(** * Covid19_Analysis: the reshaping, merging and query pipeline

    A shallow embedding of [src/data_loader.py] (class [CovidDataLoader]),
    [src/analysis.py] (class [CovidAnalysis]) and the tables prepared in
    [src/visualization.py] (class [CovidVisualizer]), and the properties of
    the specification checked against it.

    The program is written against pandas.  A DataFrame is modelled row-wise,
    as a list of records whose fields are the columns; the cells of a numeric
    column are modelled by the values the program can observe:

    - [count]: a cell of a column of counts (int64, or float64 once a left
      join has introduced missing values): an integer or NaN;
    - [fval]: a cell of a float64 column: NaN, an infinity, or a finite
      number, kept as the rational it denotes.

    The rates and the growth rates are computed as numpy computes them, in
    binary64: every operation rounds its exact result to the nearest
    float64, ties to even ([fl]).  Counts are taken as mathematical
    integers: an int64 does not wrap around in the model, and a property
    that would depend on it is stated for counts in a range where the code
    computes exactly.  The mean of a rolling window and the quotient of the
    normalised heatmap are kept as exact rationals. *)

From Stdlib Require Import ZArith QArith Qround Qabs Qpower List String Bool.
From Stdlib Require Import Lia Lqa.
From Stdlib Require Import Permutation Sorted.
Import ListNotations.

Local Open Scope string_scope.
Local Open Scope Z_scope.

(* ================================================================= *)
(** ** Numeric cells *)

Module Cell.

Inductive count : Type :=
| NaN
| Num (z : Z).

Inductive fval : Type :=
| FNaN
| FInf (neg : bool)
| FNum (q : Q).

(** [a - b] on a column of counts: NaN is absorbing. *)
Definition csub (a b : count) : count :=
  match a, b with
  | Num x, Num y => Num (x - y)
  | _, _ => NaN
  end.

(** The quotient [a / b] of two counts as an exact rational, with the
    special values of numpy's true division: [x / 0] is an infinity of the
    sign of [x], [0 / 0] is NaN; no exception is raised. *)
Definition cdiv (a b : count) : fval :=
  match a, b with
  | Num x, Num y =>
      if y =? 0 then (if x =? 0 then FNaN else FInf (x <? 0))
      else FNum (inject_Z x / inject_Z y)
  | _, _ => FNaN
  end.

(** numpy's [rint]: the nearest integer, ties to even. *)
Definition rint (q : Q) : Z :=
  let f := Qfloor q in
  match (q - inject_Z f ?= 1 # 2)%Q with
  | Lt => f
  | Gt => f + 1
  | Eq => if Z.even f then f else f + 1
  end.

(** *** binary64 arithmetic *)

(** The exponent of the binade of a positive rational: the [k] with
    [2 ^ k <= q < 2 ^ (k + 1)]. *)
Definition ilog2 (q : Q) : Z :=
  let k := Z.log2 (Qnum q) - Z.log2 (Zpos (Qden q)) in
  if Qle_bool (2 ^ k) q then k else k - 1.

(** The binary64 number nearest to a positive rational, ties to even: 53
    significant bits, the exponent of the last bit not below -1074. *)
Definition rnd_abs (a : Q) : Q :=
  let e := Z.max (ilog2 a - 52) (-1074) in
  (inject_Z (rint (a / 2 ^ e)) * 2 ^ e)%Q.

Definition rnd (q : Q) : Q :=
  match Qnum q with
  | Z0 => 0%Q
  | Zpos _ => rnd_abs q
  | Zneg _ => (- rnd_abs (- q))%Q
  end.

(** A real number as a float64: the nearest binary64 number, an infinity
    when that is out of range. *)
Definition fl (q : Q) : fval :=
  let v := rnd q in
  if Qle_bool (2 ^ 1024) (Qabs v) then FInf (Qnum q <? 0) else FNum (Qred v).

(** IEEE division, multiplication and subtraction.  The zero of the model
    is the positive zero: the divisors of the program are counts and the
    constant 100. *)
Definition fdiv (a b : fval) : fval :=
  match a, b with
  | FNaN, _ | _, FNaN => FNaN
  | FInf _, FInf _ => FNaN
  | FInf s, FNum q => FInf (xorb s (Qnum q <? 0))
  | FNum _, FInf _ => FNum 0
  | FNum p, FNum q =>
      if Qnum q =? 0 then (if Qnum p =? 0 then FNaN else FInf (Qnum p <? 0))
      else fl (p / q)
  end.

Definition fmul (a b : fval) : fval :=
  match a, b with
  | FNaN, _ | _, FNaN => FNaN
  | FInf s, FInf t => FInf (xorb s t)
  | FInf s, FNum q | FNum q, FInf s =>
      if Qnum q =? 0 then FNaN else FInf (xorb s (Qnum q <? 0))
  | FNum p, FNum q => fl (p * q)
  end.

Definition fsub (a b : fval) : fval :=
  match a, b with
  | FNaN, _ | _, FNaN => FNaN
  | FInf s, FInf t => if Bool.eqb s t then FNaN else FInf s
  | FInf s, FNum _ => FInf s
  | FNum _, FInf t => FInf (negb t)
  | FNum p, FNum q => fl (p - q)
  end.

(** numpy's [rint] on a float64 cell. *)
Definition frint (a : fval) : fval :=
  match a with
  | FNum q => FNum (inject_Z (rint q))
  | other => other
  end.

(** [Series.round(2)], as numpy computes it: [rint (a * 100) / 100], each
    step in binary64.  NaN and the infinities are left as they are. *)
Definition around2 (a : fval) : fval :=
  fdiv (frint (fmul a (FNum 100))) (FNum 100).

(** A count as a float64 cell (the conversion of an int64 column before a
    true division). *)
Definition to_float64 (a : count) : fval :=
  match a with
  | NaN => FNaN
  | Num z => fl (inject_Z z)
  end.

(** [a / b] on two columns of counts, true division of numpy: a float64.
    [x / 0] is an infinity of the sign of [x], [0 / 0] is NaN; no exception
    is raised. *)
Definition true_divide (a b : count) : fval :=
  fdiv (to_float64 a) (to_float64 b).

(** [fillna(0)] on one cell: only NaN is replaced; an infinity is not a
    missing value. *)
Definition cfillna0 (a : count) : count :=
  match a with
  | NaN => Num 0
  | Num z => Num z
  end.

Definition ffillna0 (a : fval) : fval :=
  match a with
  | FNaN => FNum 0
  | other => other
  end.

Definition cnotna (a : count) : bool :=
  match a with NaN => false | Num _ => true end.

Definition fnotna (a : fval) : bool :=
  match a with FNaN => false | _ => true end.

(** A count read as a float64 cell. *)
Definition of_count (a : count) : fval :=
  match a with
  | NaN => FNaN
  | Num z => FNum (inject_Z z)
  end.

(** [sum] of a column of counts: missing values are skipped, the sum of no
    value is 0. *)
Definition cval (a : count) : Z :=
  match a with NaN => 0 | Num z => z end.

Definition zsum (l : list Z) : Z := fold_right Z.add 0 l.

Definition csum (l : list count) : Z := zsum (map cval l).

(** The aggregation ["first"]: the first value of the group that is not
    missing (pandas skips missing values), NaN when there is none. *)
Fixpoint first_notna (l : list fval) : fval :=
  match l with
  | [] => FNaN
  | a :: l' => if fnotna a then a else first_notna l'
  end.

(** Addition, with the special values of IEEE; the sum of two finite
    numbers is kept exact. *)
Definition fadd (a b : fval) : fval :=
  match a, b with
  | FNaN, _ | _, FNaN => FNaN
  | FInf s, FInf t => if Bool.eqb s t then FInf s else FNaN
  | FInf s, FNum _ | FNum _, FInf s => FInf s
  | FNum p, FNum q => FNum (Qred (p + q))
  end.

(** Division of a float by a positive integer (the window size of a mean),
    kept exact. *)
Definition fdivn (a : fval) (n : positive) : fval :=
  match a with
  | FNum q => FNum (Qred (q / inject_Z (Zpos n)))
  | other => other
  end.

End Cell.
Export Cell.

(* ================================================================= *)
(** ** Exceptions and dictionaries *)

Inductive exn : Type :=
| KeyError (key : string)
| DateParseError (text : string)
| DanglingRef (l : nat).

Inductive result (A : Type) : Type :=
| Ok (a : A)
| Raise (e : exn).
Arguments Ok {A} a.
Arguments Raise {A} e.

Definition bind {A B : Type} (m : result A) (k : A -> result B) : result B :=
  match m with
  | Ok a => k a
  | Raise e => Raise e
  end.

Declare Scope result_scope.
Delimit Scope result_scope with result.
Notation "x <- m ;; k" := (bind m (fun x => k))
  (at level 100, m at next level, right associativity) : result_scope.

Fixpoint mapM {A B : Type} (f : A -> result B) (l : list A)
  : result (list B) :=
  match l with
  | [] => Ok []
  | a :: l' =>
      (b <- f a ;; bs <- mapM f l' ;; Ok (b :: bs))%result
  end.

(** A Python [dict] with string keys: an association list in insertion
    order, each key at most once. *)
Module Dict.

Definition dict (V : Type) : Type := list (string * V).

Fixpoint get {V : Type} (k : string) (d : dict V) : option V :=
  match d with
  | [] => None
  | (k', v) :: d' => if String.eqb k k' then Some v else get k d'
  end.

(** [d[k] = v]: an existing key keeps its place. *)
Fixpoint set {V : Type} (k : string) (v : V) (d : dict V) : dict V :=
  match d with
  | [] => [(k, v)]
  | (k', v') :: d' =>
      if String.eqb k k' then (k, v) :: d' else (k', v') :: set k v d'
  end.

(** [d[k]] as an expression: raises KeyError on a missing key. *)
Definition getitem {V : Type} (k : string) (d : dict V) : result V :=
  match get k d with
  | Some v => Ok v
  | None => Raise (KeyError k)
  end.

End Dict.

(* ================================================================= *)
(** ** Sorting

    A stable insertion sort, used for [groupby] (which returns the groups in
    key order), [sort_values] and [nlargest].  pandas does not promise a
    stable [sort_values]; the properties below that depend on the order of
    equal keys are stated for inputs without equal keys. *)

Section Sort.
Context {A : Type}.
Variable leb : A -> A -> bool.

Fixpoint insert (x : A) (l : list A) : list A :=
  match l with
  | [] => [x]
  | y :: l' => if leb x y then x :: l else y :: insert x l'
  end.

Definition sort (l : list A) : list A := fold_right insert [] l.

Definition le (x y : A) : Prop := leb x y = true.
End Sort.

(* ================================================================= *)
(** ** [CovidDataLoader] (src/data_loader.py) *)

Module Loader.
Import Dict.

(** One row of a raw wide-format table: the four identifier columns and one
    cell per date column.  A blank cell of the CSV file is a missing value:
    NaN in a column of numbers, no value in a column of text. *)
Record RawRow : Type := {
  raw_Province_State : option string;
  raw_Country_Region : option string;
  raw_Lat : fval;
  raw_Long : fval;
  raw_cells : list count
}.

(** A raw table as [read_csv] returns it: the headers of the date columns,
    in file order, and the rows. *)
Record RawSeriesTable : Type := {
  date_columns : list string;
  raw_rows : list RawRow
}.

(** A value of a datetime column: a date, as a day number, or NaT. *)
Inductive datetime : Type :=
| Timestamp (day : Z)
| NaT.

(** A row of the melted table; [D] is the type of the [Date] column,
    header text before [to_datetime] and a datetime after it. *)
Record MeltedRow (D : Type) : Type := {
  melted_Province_State : option string;
  melted_Country_Region : option string;
  melted_Lat : fval;
  melted_Long : fval;
  melted_Date : D;
  melted_Cases : count
}.
Arguments melted_Province_State {D} _.
Arguments melted_Country_Region {D} _.
Arguments melted_Lat {D} _.
Arguments melted_Long {D} _.
Arguments melted_Date {D} _.
Arguments melted_Cases {D} _.

(** A row of a processed (long-format) table; dates are day numbers. *)
Record LongRecord : Type := {
  long_Country_Region : string;
  long_Date : Z;
  long_Cases : Z;
  long_Lat : fval;
  long_Long : fval
}.

(** A row of the merged table, columns in the order pandas gives them. *)
Record MergedRecord : Type := {
  Country_Region : string;
  Date : Z;
  Confirmed : Z;
  Lat : fval;
  Long : fval;
  Deaths : count;
  Recovered : count;
  Active : count;
  Death_Rate : fval;
  Recovery_Rate : fval
}.

Definition key : Type := (string * Z)%type.

Definition key_eqb (a b : key) : bool :=
  String.eqb (fst a) (fst b) && (snd a =? snd b).

Definition key_leb (a b : key) : bool :=
  match String.compare (fst a) (fst b) with
  | Lt => true
  | Eq => snd a <=? snd b
  | Gt => false
  end.

Definition key_eq_dec (a b : key) : {a = b} + {a <> b}.
Proof. decide equality; [apply Z.eq_dec | apply string_dec]. Defined.

Definition metrics : list string := ["confirmed"; "deaths"; "recovered"].

Section IO.
(** The entries of the data directory ([os.listdir]), the parsed contents
    of a file ([pd.read_csv]) and the date parser ([pd.to_datetime]: a
    date, or NaT for a text it reads as a missing value, such as ["NaT"];
    [None] where it raises). *)
Variable listdir : list string.
Variable read_csv : string -> RawSeriesTable.
Variable to_datetime : string -> option datetime.

Definition load_data : dict RawSeriesTable :=
  fold_left
    (fun data data_type =>
       let files :=
         filter (String.prefix (data_type ++ "_time_series")) listdir in
       match files with
       | file0 :: _ => Dict.set data_type (read_csv file0) data
       | [] => data
       end)
    metrics [].

(** [df.melt(id_vars, var_name="Date", value_name="Cases")]: the date
    columns one after the other, each with all the rows. *)
Definition melt (df : RawSeriesTable) : list (MeltedRow string) :=
  flat_map
    (fun jh : nat * string =>
       map (fun r =>
              {| melted_Province_State := raw_Province_State r;
                 melted_Country_Region := raw_Country_Region r;
                 melted_Lat := raw_Lat r;
                 melted_Long := raw_Long r;
                 melted_Date := snd jh;
                 melted_Cases := nth (fst jh) (raw_cells r) NaN |})
           (raw_rows df))
    (combine (seq 0 (List.length (date_columns df))) (date_columns df)).

Definition convert_date (r : MeltedRow string) : result (MeltedRow datetime) :=
  match to_datetime (melted_Date r) with
  | Some d =>
      Ok {| melted_Province_State := melted_Province_State r;
            melted_Country_Region := melted_Country_Region r;
            melted_Lat := melted_Lat r;
            melted_Long := melted_Long r;
            melted_Date := d;
            melted_Cases := melted_Cases r |}
  | None => Raise (DateParseError (melted_Date r))
  end.

(** The key of a row for [groupby(["Country/Region", "Date"])]: a row
    without a country or without a date has none. *)
Definition melted_key (r : MeltedRow datetime) : option key :=
  match melted_Country_Region r, melted_Date r with
  | Some country, Timestamp d => Some (country, d)
  | _, _ => None
  end.

Definition has_key (k : key) (r : MeltedRow datetime) : bool :=
  match melted_key r with
  | Some k' => key_eqb k' k
  | None => false
  end.

Definition group (melted : list (MeltedRow datetime)) (k : key)
  : list (MeltedRow datetime) :=
  filter (has_key k) melted.

(** The keys of the groups, in increasing order.  [groupby] leaves out the
    rows whose key is missing ([dropna=True], the default). *)
Definition group_keys (melted : list (MeltedRow datetime)) : list key :=
  sort key_leb
       (nodup key_eq_dec
              (flat_map (fun r => match melted_key r with
                                  | Some k => [k]
                                  | None => []
                                  end)
                        melted)).

(** [.agg({"Cases": "sum", "Lat": "first", "Long": "first"})] on the
    group of one key. *)
Definition aggregate (melted : list (MeltedRow datetime)) (k : key) : LongRecord :=
  let g := group melted k in
  {| long_Country_Region := fst k;
     long_Date := snd k;
     long_Cases := csum (map melted_Cases g);
     long_Lat := first_notna (map melted_Lat g);
     long_Long := first_notna (map melted_Long g) |}.

Definition groupby_agg (melted : list (MeltedRow datetime)) : list LongRecord :=
  map (aggregate melted) (group_keys melted).

Definition preprocess_frame (df : RawSeriesTable) : result (list LongRecord) :=
  (melted_df <- mapM convert_date (melt df) ;;
   Ok (groupby_agg melted_df))%result.

(** The loop over [data.items()].  Writing the processed tables to disk
    ([save_processed]) does not change the returned value and is left
    out. *)
Fixpoint preprocess_loop (items : list (string * RawSeriesTable))
    (processed_data : dict (list LongRecord))
  : result (dict (list LongRecord)) :=
  match items with
  | [] => Ok processed_data
  | (data_type, df) :: items' =>
      (country_data <- preprocess_frame df ;;
       preprocess_loop items' (Dict.set data_type country_data processed_data))%result
  end.

Definition preprocess_data (data : dict RawSeriesTable)
  : result (dict (list LongRecord)) :=
  preprocess_loop data [].
End IO.

(** [left.merge(right[[keys, value]], on=keys, how="left")]: every left row
    once per matching right row, in the order of the left table, and once
    with a missing value when no right row matches. *)
Definition matches (right : list LongRecord) (k : key) : list Z :=
  map long_Cases
      (filter (fun r => key_eqb (long_Country_Region r, long_Date r) k) right).

Definition merge_left {L : Type} (key_of : L -> key) (left : list L)
    (right : list LongRecord) : list (L * count) :=
  flat_map
    (fun l =>
       match matches right (key_of l) with
       | [] => [(l, NaN)]
       | vs => map (fun v => (l, Num v)) vs
       end)
    left.

Definition long_key (r : LongRecord) : key :=
  (long_Country_Region r, long_Date r).

(** The three derived columns, computed on the joined row. *)
Definition derive (j : LongRecord * count * count) : MergedRecord :=
  let '(c, deaths, recovered) := j in
  let confirmed := Num (long_Cases c) in
  {| Country_Region := long_Country_Region c;
     Date := long_Date c;
     Confirmed := long_Cases c;
     Lat := long_Lat c;
     Long := long_Long c;
     Deaths := deaths;
     Recovered := recovered;
     Active := csub (csub confirmed deaths) recovered;
     Death_Rate := around2 (fmul (true_divide deaths confirmed) (FNum 100));
     Recovery_Rate :=
       around2 (fmul (true_divide recovered confirmed) (FNum 100)) |}.

(** [merged.fillna(0, inplace=True)]: every column, cell by cell. *)
Definition fillna0 (m : MergedRecord) : MergedRecord :=
  {| Country_Region := Country_Region m;
     Date := Date m;
     Confirmed := Confirmed m;
     Lat := ffillna0 (Lat m);
     Long := ffillna0 (Long m);
     Deaths := cfillna0 (Deaths m);
     Recovered := cfillna0 (Recovered m);
     Active := cfillna0 (Active m);
     Death_Rate := ffillna0 (Death_Rate m);
     Recovery_Rate := ffillna0 (Recovery_Rate m) |}.

Definition merge_frames (confirmed deaths recovered : list LongRecord)
  : list MergedRecord :=
  let merged :=
    merge_left (fun j => long_key (fst j))
               (merge_left long_key confirmed deaths) recovered in
  map fillna0 (map derive merged).

(** Writing [merged_covid_data.csv] is left out; the table is returned
    whether or not it was written. *)
Definition get_merged_data (processed_data : dict (list LongRecord))
  : result (list MergedRecord) :=
  (confirmed <- getitem "confirmed" processed_data ;;
   deaths <- getitem "deaths" processed_data ;;
   recovered <- getitem "recovered" processed_data ;;
   Ok (merge_frames confirmed deaths recovered))%result.

(** *** [download_data]

    The data directory is a mapping from file names to file contents;
    [requests.get] is a function from the address to the response.  Creating
    the directory and the messages printed are left out. *)
Record Response : Type := {
  status_code : Z;
  content : string
}.

Definition base_url : string :=
  "https://raw.githubusercontent.com/CSSEGISandData/COVID-19/master/csse_covid_19_data/csse_covid_19_time_series/".

Definition files : list (string * string) :=
  [("confirmed", "time_series_covid19_confirmed_global.csv");
   ("deaths", "time_series_covid19_deaths_global.csv");
   ("recovered", "time_series_covid19_recovered_global.csv")].

Definition download_file (requests_get : string -> Response)
    (data_dir : dict string) (file : string * string) : dict string :=
  let (data_type, filename) := file in
  let url := base_url ++ filename in
  let response := requests_get url in
  if status_code response =? 200
  then Dict.set (data_type ++ "_" ++ filename) (content response) data_dir
  else data_dir.

Definition download_data (requests_get : string -> Response)
    (data_dir : dict string) : dict string :=
  fold_left (download_file requests_get) files data_dir.


End Loader.

(* ================================================================= *)
(** ** [CovidAnalysis] (src/analysis.py) *)

Module Analysis.
Import Dict Loader.

(** A row of the table the analysis works on: the columns of the merged
    table and, by name, the float64 columns added to it afterwards. *)
Record Row : Type := {
  base :> MergedRecord;
  extra : dict fval
}.

Definition DataFrame : Type := list Row.

(** The merged table as the analysis receives it. *)
Definition of_merged (merged : list MergedRecord) : DataFrame :=
  map (fun m => {| base := m; extra := [] |}) merged.

(** [self.data["Date"].max()]; no value (NaT) on an empty table. *)
Definition max_date (data : DataFrame) : option Z :=
  match data with
  | [] => None
  | r :: data' => Some (fold_left Z.max (map (fun x : Row => Date x) data') (Date r))
  end.

(** [self.data["Date"] == latest_date]; nothing equals NaT. *)
Definition date_is (latest_date : option Z) (r : Row) : bool :=
  match latest_date with
  | Some d => Date r =? d
  | None => false
  end.

Definition confirmed_geb (a b : Row) : bool := Confirmed b <=? Confirmed a.

(** [nlargest(n, "Confirmed")], with the default [keep="first"]: the rows
    in decreasing order of the column, equal values in table order. *)
Definition nlargest_Confirmed (n : nat) (df : DataFrame) : DataFrame :=
  firstn n (sort confirmed_geb df).

(** The five columns selected from the ranking. *)
Record TopRow : Type := {
  top_Country_Region : string;
  top_Confirmed : Z;
  top_Deaths : count;
  top_Recovered : count;
  top_Death_Rate : fval
}.

Definition top_columns (r : Row) : TopRow :=
  {| top_Country_Region := Country_Region r;
     top_Confirmed := Confirmed r;
     top_Deaths := Deaths r;
     top_Recovered := Recovered r;
     top_Death_Rate := Death_Rate r |}.

Definition get_top_countries_by_cases (data : DataFrame) (n : nat)
    (latest_date : option Z) : list TopRow :=
  let latest_date :=
    match latest_date with
    | None => max_date data
    | Some d => Some d
    end in
  let latest_data := filter (date_is latest_date) data in
  map top_columns (nlargest_Confirmed n latest_data).

Definition date_leb (a b : Row) : bool := Date a <=? Date b.

Definition sort_values_Date (df : DataFrame) : DataFrame := sort date_leb df.

Definition get_country_time_series (data : DataFrame) (country_name : string)
  : DataFrame :=
  sort_values_Date
    (filter (fun r : Row => String.eqb (Country_Region r) country_name) data).

(** *** Column operations *)

(** [Series.diff()]: the difference with the previous row, missing on the
    first row. *)
Fixpoint diff_from (prev : count) (col : list count) : list count :=
  match col with
  | [] => []
  | x :: col' => csub x prev :: diff_from x col'
  end.

Definition diff (col : list count) : list count := diff_from NaN col.

(** [Series.pct_change()]: [x / x.shift(1) - 1].  (Older versions of pandas
    first fill missing values forward; a column of a merged table has
    none.) *)
Fixpoint pct_change_from (prev : count) (col : list count) : list fval :=
  match col with
  | [] => []
  | x :: col' =>
      fsub (true_divide x prev) (FNum 1) :: pct_change_from x col'
  end.

Definition pct_change (col : list count) : list fval :=
  pct_change_from NaN col.

(** The window of [rolling(window=w)] that ends at row [i]. *)
Definition window (w i : nat) (col : list fval) : list fval :=
  skipn (i + 1 - w) (firstn (i + 1) col).

(** [Series.rolling(window=w).mean()]: [min_periods] is the window size, so
    a window with fewer than [w] values that are not missing gives NaN. *)
Definition window_mean (w : positive) (win : list fval) : fval :=
  if (List.length (filter fnotna win) <? Pos.to_nat w)%nat then FNaN
  else fdivn (fold_left fadd win (FNum 0)) w.

Definition rolling_mean (w : positive) (col : list fval) : list fval :=
  map (fun i => window_mean w (window (Pos.to_nat w) i col))
      (seq 0 (List.length col)).

Definition column_Confirmed (df : DataFrame) : list count :=
  map (fun r : Row => Num (Confirmed r)) df.

Definition column_Deaths (df : DataFrame) : list count :=
  map (fun r : Row => Deaths r) df.

(** [df[name]] for an added column: KeyError when a row has no such
    field. *)
Definition column (name : string) (df : DataFrame) : result (list fval) :=
  mapM (fun r => getitem name (extra r)) df.

Definition set_extra (name : string) (v : fval) (r : Row) : Row :=
  {| base := base r; extra := Dict.set name v (extra r) |}.

(** [df[name] = col]: the values are aligned with the rows; a row without a
    value gets NaN. *)
Fixpoint assign (name : string) (col : list fval) (df : DataFrame)
  : DataFrame :=
  match df with
  | [] => []
  | r :: df' =>
      match col with
      | [] => set_extra name FNaN r :: assign name [] df'
      | v :: col' => set_extra name v r :: assign name col' df'
      end
  end.

(** *** The object store

    [calculate_growth_rates] assigns columns to a DataFrame object in place.
    Objects live in a heap; a variable holds a reference. *)

Definition loc : Type := nat.
Definition heap : Type := list DataFrame.
Definition St (A : Type) : Type := heap -> result (A * heap).

Definition ret {A : Type} (a : A) : St A := fun h => Ok (a, h).

Definition bindS {A B : Type} (m : St A) (k : A -> St B) : St B :=
  fun h =>
    match m h with
    | Ok (a, h') => k a h'
    | Raise e => Raise e
    end.

Declare Scope st_scope.
Delimit Scope st_scope with st.
Notation "x <- m ;; k" := (bindS m (fun x => k))
  (at level 100, m at next level, right associativity) : st_scope.
Notation "m ;;; k" := (bindS m (fun _ => k))
  (at level 100, right associativity) : st_scope.

Fixpoint update {A : Type} (l : nat) (x : A) (h : list A) : list A :=
  match h with
  | [] => []
  | y :: h' =>
      match l with
      | O => x :: h'
      | S l' => y :: update l' x h'
      end
  end.

Definition deref (l : loc) : St DataFrame :=
  fun h =>
    match nth_error h l with
    | Some df => Ok (df, h)
    | None => Raise (DanglingRef l)
    end.

(** A new object, at a reference not in use. *)
Definition alloc (df : DataFrame) : St loc :=
  fun h => Ok (List.length h, (h ++ [df])%list).

(** Mutation of an object in place. *)
Definition mutate (l : loc) (f : DataFrame -> DataFrame) : St unit :=
  fun h =>
    match nth_error h l with
    | Some df => Ok (tt, update l (f df) h)
    | None => Raise (DanglingRef l)
    end.

Definition lift {A : Type} (r : result A) : St A :=
  fun h =>
    match r with
    | Ok a => Ok (a, h)
    | Raise e => Raise e
    end.

(** [df.sort_values("Date")] returns a new object. *)
Definition sort_values (df : loc) : St loc :=
  (d <- deref df ;; alloc (sort_values_Date d))%st.

Definition getitem_Confirmed (df : loc) : St (list count) :=
  (d <- deref df ;; ret (column_Confirmed d))%st.

Definition getitem_Deaths (df : loc) : St (list count) :=
  (d <- deref df ;; ret (column_Deaths d))%st.

Definition getitem_column (df : loc) (name : string) : St (list fval) :=
  (d <- deref df ;; lift (column name d))%st.

Definition setitem (df : loc) (name : string) (col : list fval) : St unit :=
  mutate df (assign name col).

Definition percent (col : list fval) : list fval :=
  map around2 (map (fun v => fmul v (FNum 100)) col).

Definition calculate_growth_rates (country_data : loc) : St loc :=
  (country_data <- sort_values country_data ;;
   confirmed <- getitem_Confirmed country_data ;;
   setitem country_data "Daily_Confirmed" (map of_count (diff confirmed)) ;;;
   deaths <- getitem_Deaths country_data ;;
   setitem country_data "Daily_Deaths" (map of_count (diff deaths)) ;;;
   confirmed <- getitem_Confirmed country_data ;;
   setitem country_data "Confirmed_Growth_Rate"
           (percent (pct_change confirmed)) ;;;
   deaths <- getitem_Deaths country_data ;;
   setitem country_data "Death_Growth_Rate" (percent (pct_change deaths)) ;;;
   daily_confirmed <- getitem_column country_data "Daily_Confirmed" ;;
   setitem country_data "Confirmed_MA_7" (rolling_mean 7 daily_confirmed) ;;;
   daily_deaths <- getitem_column country_data "Daily_Deaths" ;;
   setitem country_data "Deaths_MA_7" (rolling_mean 7 daily_deaths) ;;;
   ret country_data)%st.

(** The table [calculate_growth_rates] returns, as a function of the table
    it is given. *)
Definition growth_frame (df : DataFrame) : DataFrame :=
  let sorted := sort_values_Date df in
  let daily_confirmed := map of_count (diff (column_Confirmed sorted)) in
  let daily_deaths := map of_count (diff (column_Deaths sorted)) in
  assign "Deaths_MA_7" (rolling_mean 7 daily_deaths)
    (assign "Confirmed_MA_7" (rolling_mean 7 daily_confirmed)
       (assign "Death_Growth_Rate" (percent (pct_change (column_Deaths sorted)))
          (assign "Confirmed_Growth_Rate"
                  (percent (pct_change (column_Confirmed sorted)))
             (assign "Daily_Deaths" daily_deaths
                (assign "Daily_Confirmed" daily_confirmed sorted))))).

(** *** Ranking by death rate, and the global summary *)

(** The order of a float64 column as [nlargest] ranks it: minus infinity,
    the finite values, plus infinity; a missing value ranks below all. *)
Definition fval_leb (a b : fval) : bool :=
  match a, b with
  | FNaN, _ => true
  | _, FNaN => false
  | FInf true, _ => true
  | _, FInf false => true
  | FInf false, _ => false
  | _, FInf true => false
  | FNum p, FNum q => Qle_bool p q
  end.

Definition death_rate_geb (a b : Row) : bool :=
  fval_leb (Death_Rate b) (Death_Rate a).

(** [nlargest(n, "Death_Rate")]: the rows with a rate in decreasing order
    of it, then the rows without one, in table order. *)
Definition nlargest_Death_Rate (n : nat) (df : DataFrame) : DataFrame :=
  firstn n
    (sort death_rate_geb (filter (fun r : Row => fnotna (Death_Rate r)) df)
     ++ filter (fun r : Row => negb (fnotna (Death_Rate r))) df)%list.

(** The four columns selected from the ranking by death rate. *)
Record TopRateRow : Type := {
  rate_Country_Region : string;
  rate_Confirmed : Z;
  rate_Deaths : count;
  rate_Death_Rate : fval
}.

Definition rate_columns (r : Row) : TopRateRow :=
  {| rate_Country_Region := Country_Region r;
     rate_Confirmed := Confirmed r;
     rate_Deaths := Deaths r;
     rate_Death_Rate := Death_Rate r |}.

Definition get_top_countries_by_death_rate (data : DataFrame) (n : nat)
    (min_cases : Z) (latest_date : option Z) : list TopRateRow :=
  let latest_date :=
    match latest_date with
    | None => max_date data
    | Some d => Some d
    end in
  let latest_data := filter (date_is latest_date) data in
  let filtered_data :=
    filter (fun r : Row => min_cases <=? Confirmed r) latest_data in
  map rate_columns (nlargest_Death_Rate n filtered_data).

(** The dictionary [get_global_summary] returns, one field per key. *)
Record Summary : Type := {
  Total_Confirmed : Z;
  Total_Deaths : Z;
  Total_Recovered : Z;
  Total_Active : Z;
  Global_Death_Rate : fval;
  Number_of_Countries : nat
}.

(** [Series.nunique()] on the country column. *)
Definition nunique (names : list string) : nat :=
  List.length (nodup string_dec names).

(** The sums are numpy scalars: the division of the two sums follows the
    rules of [true_divide] (an infinity or NaN on a zero divisor, no
    exception). *)
Definition get_global_summary (data : DataFrame) (date : option Z) : Summary :=
  let date :=
    match date with
    | None => max_date data
    | Some d => Some d
    end in
  let global_data := filter (date_is date) data in
  let confirmed := zsum (map (fun r : Row => Confirmed r) global_data) in
  let deaths := csum (map (fun r : Row => Deaths r) global_data) in
  {| Total_Confirmed := confirmed;
     Total_Deaths := deaths;
     Total_Recovered := csum (map (fun r : Row => Recovered r) global_data);
     Total_Active := csum (map (fun r : Row => Active r) global_data);
     Global_Death_Rate :=
       around2 (fmul (true_divide (Num deaths) (Num confirmed)) (FNum 100));
     Number_of_Countries :=
       nunique (map (fun r : Row => Country_Region r) global_data) |}.


End Analysis.

(* ================================================================= *)
(** ** [CovidVisualizer] (src/visualization.py)

    The tables the visualizer prepares before it draws; the drawing itself
    is outside the model. *)

Module Visualizer.
Import Dict Loader Analysis.

(** A pivot table: the countries, the dates, and one row of cells per
    country, one cell per date. *)
Record Heatmap : Type := {
  hm_index : list string;
  hm_columns : list Z;
  hm_values : list (list count)
}.

Definition isin (countries : list string) (name : string) : bool :=
  existsb (String.eqb name) countries.

(** The rows of a country at a date. *)
Definition cell_rows (df : DataFrame) (country : string) (date : Z)
  : DataFrame :=
  filter (fun r : Row =>
            String.eqb (Country_Region r) country && (Date r =? date)) df.

(** [pivot_table(index="Country/Region", columns="Date",
    values="Confirmed", aggfunc="sum")]: the countries and the dates in
    increasing order; a cell without a row is missing. *)
Definition pivot_cell (df : DataFrame) (country : string) (date : Z) : count :=
  match cell_rows df country date with
  | [] => NaN
  | g => Num (zsum (map (fun r : Row => Confirmed r) g))
  end.

Definition pivot_table (df : DataFrame) : Heatmap :=
  let index :=
    sort String.leb (nodup string_dec (map (fun r : Row => Country_Region r) df)) in
  let columns :=
    sort Z.leb (nodup Z.eq_dec (map (fun r : Row => Date r) df)) in
  {| hm_index := index;
     hm_columns := columns;
     hm_values :=
       map (fun country => map (pivot_cell df country) columns) index |}.

(** A comparison with a date that may be NaT: nothing compares with NaT. *)
Definition date_cmp (cmp : Z -> Z -> bool) (d : Z) (bound : option Z) : bool :=
  match bound with
  | Some b => cmp d b
  | None => false
  end.

Definition create_heatmap_data (data : DataFrame) (countries : list string)
    (start_date end_date : option Z) : option Heatmap :=
  let start_date :=
    match start_date with
    | None => option_map (fun m => m - 30) (max_date data)
    | Some d => Some d
    end in
  let end_date :=
    match end_date with
    | None => max_date data
    | Some d => Some d
    end in
  let filtered_data :=
    filter (fun r : Row =>
              isin countries (Country_Region r)
              && date_cmp Z.geb (Date r) start_date
              && date_cmp Z.leb (Date r) end_date) data in
  match filtered_data with
  | [] => None
  | _ => Some (pivot_table filtered_data)
  end.

(** The values of a row of cells that are not missing. *)
Definition present (x : list count) : list Z :=
  flat_map (fun c => match c with NaN => [] | Num z => [z] end) x.

(** [x.min()] and [x.max()]: missing values are skipped; NaN when there is
    no value. *)
Definition row_min (x : list count) : count :=
  match present x with
  | [] => NaN
  | z :: zs => Num (fold_left Z.min zs z)
  end.

Definition row_max (x : list count) : count :=
  match present x with
  | [] => NaN
  | z :: zs => Num (fold_left Z.max zs z)
  end.

(** [x.max() > x.min()]: false when a side is NaN. *)
Definition cgtb (a b : count) : bool :=
  match a, b with
  | Num x, Num y => y <? x
  | _, _ => false
  end.

(** The function [plot_heatmap] applies to each row of the pivot table:
    [(x - x.min()) / (x.max() - x.min()) if x.max() > x.min() else x]. *)
Definition normalize_row (x : list count) : list fval :=
  if cgtb (row_max x) (row_min x)
  then map (fun c => cdiv (csub c (row_min x))
                          (csub (row_max x) (row_min x))) x
  else map of_count x.

(** The table [plot_heatmap] draws; none when it is given no table or an
    empty one. *)
Definition normalized_data (heatmap_data : option Heatmap)
  : option (list (list fval)) :=
  match heatmap_data with
  | None => None
  | Some hm =>
      match hm_index hm, hm_columns hm with
      | [], _ | _, [] => None
      | _, _ => Some (map normalize_row (hm_values hm))
      end
  end.

(** The table [plot_interactive_global_map] draws: the rows of the date
    that have both coordinates; none when no row is left. *)
Definition map_data (data : DataFrame) (date : option Z) : option DataFrame :=
  let date :=
    match date with
    | None => max_date data
    | Some d => Some d
    end in
  let map_data := filter (date_is date) data in
  let map_data :=
    filter (fun r : Row => fnotna (Lat r) && fnotna (Long r)) map_data in
  match map_data with
  | [] => None
  | _ => Some map_data
  end.

End Visualizer.

(* ================================================================= *)
(** * Properties *)

(** ** Dictionaries, sorting and sums *)

Module DictFacts.
Import Dict.

Lemma get_set_same {V : Type} (k : string) (v : V) (d : dict V) :
  get k (set k v d) = Some v.
Proof.
  induction d as [|[k' v'] d IH]; simpl.
  - now rewrite String.eqb_refl.
  - destruct (String.eqb k k') eqn:E; simpl.
    + now rewrite String.eqb_refl.
    + now rewrite E.
Qed.

Lemma get_set_other {V : Type} (k k0 : string) (v : V) (d : dict V) :
  k0 <> k -> get k0 (set k v d) = get k0 d.
Proof.
  intros Hne. induction d as [|[k' v'] d IH]; simpl.
  - destruct (String.eqb k0 k) eqn:E; [|reflexivity].
    apply String.eqb_eq in E. contradiction.
  - destruct (String.eqb k k') eqn:E; simpl.
    + apply String.eqb_eq in E. subst k'.
      destruct (String.eqb k0 k) eqn:E0; [|reflexivity].
      apply String.eqb_eq in E0. contradiction.
    + now rewrite IH.
Qed.

End DictFacts.

Section SortFacts.
Context {A : Type}.
Variable leb : A -> A -> bool.

Lemma insert_perm x l : Permutation (x :: l) (insert leb x l).
Proof.
  induction l as [|y l IH]; simpl; [reflexivity|].
  destruct (leb x y); [reflexivity|].
  rewrite perm_swap. now apply perm_skip.
Qed.

Lemma sort_perm l : Permutation l (sort leb l).
Proof.
  induction l as [|x l IH]; simpl; [constructor|].
  rewrite <- insert_perm. now apply perm_skip.
Qed.

Lemma sort_length l : List.length (sort leb l) = List.length l.
Proof. symmetry. apply Permutation_length, sort_perm. Qed.

Lemma sort_sorted_id l : Sorted (le leb) l -> sort leb l = l.
Proof.
  induction 1 as [|x l HS IH HR]; simpl; [reflexivity|].
  rewrite IH. destruct HR as [|y l' Hxy]; simpl; [reflexivity|].
  unfold le in Hxy. now rewrite Hxy.
Qed.

Hypothesis leb_total : forall x y, leb x y = false -> leb y x = true.

Lemma insert_sorted x l : Sorted (le leb) l -> Sorted (le leb) (insert leb x l).
Proof.
  induction 1 as [|y l HS IH HR]; simpl.
  - repeat constructor.
  - destruct (leb x y) eqn:E.
    + constructor; [now constructor|]. now constructor.
    + constructor; [exact IH|].
      destruct HR as [|z l' Hyz]; simpl.
      * constructor. now apply leb_total.
      * destruct (leb x z); constructor; [now apply leb_total|exact Hyz].
Qed.

Lemma sort_sorted l : Sorted (le leb) (sort leb l).
Proof.
  induction l as [|x l IH]; simpl; [constructor|].
  now apply insert_sorted.
Qed.
End SortFacts.

Lemma zsum_app l1 l2 : zsum (l1 ++ l2)%list = zsum l1 + zsum l2.
Proof. induction l1 as [|x l1 IH]; simpl; [reflexivity|]. rewrite IH. lia. Qed.

Lemma zsum_perm l1 l2 : Permutation l1 l2 -> zsum l1 = zsum l2.
Proof. induction 1; simpl; lia. Qed.


(** ** binary64 rounding *)

Module CellFacts.
Local Open Scope Q_scope.

(** The integers of an int64 column. *)
Definition int64 (z : Z) : Prop := (- 2 ^ 63 <= z < 2 ^ 63)%Z.

(** [(x / c * 100).round(2)]: the percentage of the program. *)
Definition percentage (x c : count) : fval :=
  around2 (fmul (true_divide x c) (FNum 100)).

(** *** The model on known values *)

(** The float64 of 1/10 and of 1/3; an odd integer above 2^53 goes to the
    even neighbour; 2^1024 overflows; half the least subnormal goes to 0. *)
Lemma fl_examples :
  fl (1 # 10) = FNum (3602879701896397 # 36028797018963968)
  /\ fl (1 # 3) = FNum (6004799503160661 # 18014398509481984)
  /\ fl (inject_Z (2 ^ 53 + 1)) = FNum (inject_Z (2 ^ 53))
  /\ fl (inject_Z (2 ^ 53 + 3)) = FNum (inject_Z (2 ^ 53 + 4))
  /\ fl (2 ^ 1024) = FInf false
  /\ fl (2 ^ (-1075)) = FNum 0.
Proof. vm_compute. repeat split. Qed.

(** Three percentages: 23 of 160 is 14.37 and 49 of 160 is 30.63 (the exact
    quotients 14.375 and 30.625 would round to 14.38 and 30.62; their
    float64 are just below and just above), and 2 of 10 is 20. *)
Lemma percentage_23_160 : percentage (Num 23) (Num 160) = fl (1437 # 100).
Proof. vm_compute. reflexivity. Qed.

Lemma percentage_49_160 : percentage (Num 49) (Num 160) = fl (3063 # 100).
Proof. vm_compute. reflexivity. Qed.

Lemma percentage_2_10 : percentage (Num 2) (Num 10) = FNum 20.
Proof. vm_compute. reflexivity. Qed.

(** *** Powers of 2, binades and [rint] *)

Lemma pow2_pos (e : Z) : 0 < 2 ^ e.
Proof. apply Qpower_0_lt. reflexivity. Qed.

Lemma pow2_add (a b : Z) : 2 ^ (a + b) == 2 ^ a * 2 ^ b.
Proof. apply Qpower_plus. discriminate. Qed.

Lemma pow2_le (a b : Z) : (a <= b)%Z -> 2 ^ a <= 2 ^ b.
Proof. intros H. apply Qpower_le_compat_l; [exact H|discriminate]. Qed.

Lemma pow2_Z (n : Z) : (0 <= n)%Z -> inject_Z (2 ^ n) == 2 ^ n.
Proof. intros H. now rewrite Zpower_Qpower. Qed.

Lemma Qnum_den (q : Q) : q * inject_Z (Zpos (Qden q)) == inject_Z (Qnum q).
Proof. destruct q as [n d]. unfold Qeq, Qmult, inject_Z; simpl. lia. Qed.

Lemma ilog2_spec (q : Q) :
  0 < q -> 2 ^ ilog2 q <= q /\ q < 2 ^ (ilog2 q + 1).
Proof.
  intros Hq.
  assert (Hn : (0 < Qnum q)%Z).
  { destruct q as [n d]. unfold Qlt in Hq; simpl in *. lia. }
  pose proof (Z.log2_spec _ Hn) as [Ha1 Ha2].
  pose proof (Z.log2_spec (Zpos (Qden q)) ltac:(reflexivity)) as [Hb1 Hb2].
  pose proof (Z.log2_nonneg (Qnum q)) as Ha0.
  pose proof (Z.log2_nonneg (Zpos (Qden q))) as Hb0.
  set (a := Z.log2 (Qnum q)) in *. set (b := Z.log2 (Zpos (Qden q))) in *.
  rewrite Zle_Qle in Ha1, Hb1. rewrite Zlt_Qlt in Ha2, Hb2.
  rewrite pow2_Z in Ha1, Ha2, Hb1, Hb2 by lia.
  pose proof (Qnum_den q) as E.
  unfold ilog2. fold a b.
  destruct (Qle_bool (2 ^ (a - b)) q) eqn:T.
  - split; [now apply Qle_bool_iff|].
    apply (Qmult_lt_r _ _ (2 ^ b)); [apply pow2_pos|].
    rewrite <- pow2_add. replace (a - b + 1 + b)%Z with (Z.succ a) by lia.
    eapply Qle_lt_trans; [|exact Ha2]. rewrite <- E.
    apply Qmult_le_l; [exact Hq|exact Hb1].
  - assert (L : q < 2 ^ (a - b)).
    { apply Qnot_le_lt. intros H. apply Qle_bool_iff in H. congruence. }
    replace (a - b - 1 + 1)%Z with (a - b)%Z by lia. split; [|exact L].
    apply (Qmult_le_r _ _ (2 ^ Z.succ b)); [apply pow2_pos|].
    rewrite <- pow2_add. replace (a - b - 1 + Z.succ b)%Z with a by lia.
    eapply Qle_trans; [exact Ha1|]. rewrite <- E.
    apply Qmult_le_l; [exact Hq|]. now apply Qlt_le_weak.
Qed.

Lemma ilog2_mono (x y : Q) : 0 < x -> x <= y -> (ilog2 x <= ilog2 y)%Z.
Proof.
  intros Hx Hxy.
  destruct (ilog2_spec x Hx) as [Lx _].
  destruct (ilog2_spec y) as [_ Uy]; [eapply Qlt_le_trans; eassumption|].
  assert (H : 2 ^ ilog2 x < 2 ^ (ilog2 y + 1)).
  { eapply Qle_lt_trans; [exact Lx|]. eapply Qle_lt_trans; eassumption. }
  apply Qpower_lt_compat_l_inv in H; [lia|reflexivity].
Qed.

Lemma rint_range (q : Q) :
  (Qfloor q <= rint q <= Qfloor q + 1)%Z.
Proof. unfold rint. destruct (_ ?= _); [destruct (Z.even _)| |]; lia. Qed.

Lemma rint_mono (x y : Q) : x <= y -> (rint x <= rint y)%Z.
Proof.
  intros H. pose proof (Qfloor_resp_le _ _ H) as F.
  destruct (Z.eq_dec (Qfloor x) (Qfloor y)) as [E|NE].
  - unfold rint. rewrite E.
    destruct (Qcompare_spec (x - inject_Z (Qfloor y)) (1 # 2)) as [C|C|C];
      destruct (Qcompare_spec (y - inject_Z (Qfloor y)) (1 # 2)) as [C'|C'|C'];
      try destruct (Z.even (Qfloor y)); try lia; exfalso; lra.
  - pose proof (rint_range x). pose proof (rint_range y). lia.
Qed.

Lemma rint_Z (n : Z) : rint (inject_Z n) = n.
Proof.
  unfold rint. rewrite Qfloor_Z.
  destruct (Qcompare_spec (inject_Z n - inject_Z n) (1 # 2)) as [C|C|C];
    [exfalso; lra|reflexivity|exfalso; lra].
Qed.

Lemma rint_lower (n : Z) (q : Q) : inject_Z n <= q -> (n <= rint q)%Z.
Proof. intros H. rewrite <- (rint_Z n). now apply rint_mono. Qed.

Lemma rint_upper (n : Z) (q : Q) : q <= inject_Z n -> (rint q <= n)%Z.
Proof. intros H. rewrite <- (rint_Z n). now apply rint_mono. Qed.

(** *** The rounding keeps the order *)

Lemma rnd_abs_nonneg (a : Q) : 0 < a -> 0 <= rnd_abs a.
Proof.
  intros Ha. unfold rnd_abs.
  apply Qmult_le_0_compat; [|apply Qlt_le_weak, pow2_pos].
  change 0 with (inject_Z 0). rewrite <- Zle_Qle. apply rint_lower.
  apply Qle_shift_div_l; [apply pow2_pos|].
  change (inject_Z 0) with 0. rewrite Qmult_0_l. now apply Qlt_le_weak.
Qed.

Lemma rnd_abs_mono (x y : Q) : 0 < x -> x <= y -> rnd_abs x <= rnd_abs y.
Proof.
  intros Hx Hxy.
  assert (Hy : 0 < y) by (eapply Qlt_le_trans; eassumption).
  pose proof (ilog2_mono x y Hx Hxy) as Hl.
  destruct (ilog2_spec x Hx) as [Lx Ux]. destruct (ilog2_spec y Hy) as [Ly Uy].
  unfold rnd_abs.
  set (ex := Z.max (ilog2 x - 52) (-1074)).
  set (ey := Z.max (ilog2 y - 52) (-1074)).
  destruct (Z.eq_dec ex ey) as [E|NE].
  - rewrite E. apply Qmult_le_compat_r; [|apply Qlt_le_weak, pow2_pos].
    rewrite <- Zle_Qle. apply rint_mono.
    apply Qmult_le_compat_r; [exact Hxy|].
    apply Qinv_le_0_compat, Qlt_le_weak, pow2_pos.
  - assert (Ey : ey = (ilog2 y - 52)%Z) by lia.
    assert (Hm : (2 ^ 52 <= rint (y / 2 ^ ey))%Z).
    { apply rint_lower. apply Qle_shift_div_l; [apply pow2_pos|].
      rewrite pow2_Z by lia. rewrite <- pow2_add.
      replace (52 + ey)%Z with (ilog2 y) by lia. exact Ly. }
    assert (Hm' : (rint (x / 2 ^ ex) <= 2 ^ 53)%Z).
    { apply rint_upper. apply Qle_shift_div_r; [apply pow2_pos|].
      rewrite pow2_Z by lia. rewrite <- pow2_add.
      apply Qlt_le_weak. eapply Qlt_le_trans; [exact Ux|].
      apply pow2_le. lia. }
    rewrite Zle_Qle in Hm, Hm'. rewrite pow2_Z in Hm, Hm' by lia.
    apply Qle_trans with (2 ^ 53 * 2 ^ ex).
    { apply Qmult_le_compat_r; [exact Hm'|apply Qlt_le_weak, pow2_pos]. }
    apply Qle_trans with (2 ^ 52 * 2 ^ ey).
    { rewrite <- !pow2_add. apply pow2_le. lia. }
    apply Qmult_le_compat_r; [exact Hm|apply Qlt_le_weak, pow2_pos].
Qed.

Lemma rnd_abs_1 : rnd_abs 1 == 1.
Proof. vm_compute. reflexivity. Qed.

Lemma fl_notna (q : Q) : fl q <> FNaN.
Proof. unfold fl. now destruct (Qle_bool _ _). Qed.

Lemma rnd_abs_100 : rnd_abs 100 == 100.
Proof. vm_compute. reflexivity. Qed.

Lemma rnd_abs_10000 : rnd_abs 10000 == 10000.
Proof. vm_compute. reflexivity. Qed.

Lemma rnd_abs_int64 : rnd_abs (inject_Z (2 ^ 63)) == inject_Z (2 ^ 63).
Proof. vm_compute. reflexivity. Qed.

Lemma Qnum_pos (q : Q) : 0 < q -> (Qnum q =? 0)%Z = false.
Proof. destruct q as [n d]. unfold Qlt; simpl. lia. Qed.

Lemma Qnum_neg (q : Q) : q < 0 -> (Qnum q =? 0)%Z = false.
Proof. destruct q as [n d]. unfold Qlt; simpl. lia. Qed.

Lemma FNum_inj (p q : Q) : FNum p = FNum q -> p = q.
Proof. now intros [= ->]. Qed.

(** The float64 of a positive real, when it is finite. *)
Lemma fl_positive (x q : Q) :
  0 < x -> fl x = FNum q -> q == rnd_abs x /\ rnd_abs x < 2 ^ 1024.
Proof.
  intros Hx. destruct x as [[|n|n] d]; try discriminate Hx.
  unfold fl. change (rnd (Z.pos n # d)) with (rnd_abs (Z.pos n # d)).
  pose proof (rnd_abs_nonneg (Z.pos n # d) Hx) as L.
  set (v := rnd_abs (Z.pos n # d)) in *.
  destruct (Qle_bool _ _) eqn:T; [discriminate|].
  intros E. apply FNum_inj in E. subst q.
  split; [apply Qred_correct|].
  apply Qnot_le_lt. intros H. rewrite <- (Qabs_pos _ L) in H.
  apply Qle_bool_iff in H. congruence.
Qed.

Lemma fl_zero (x : Q) : x == 0 -> fl x = FNum 0.
Proof.
  destruct x as [[|n|n] d]; intros E;
    try (exfalso; revert E; unfold Qeq; simpl; lia).
  vm_compute. reflexivity.
Qed.

Lemma fl_finite (x : Q) :
  0 < x -> rnd_abs x < 2 ^ 1024 -> fl x = FNum (Qred (rnd_abs x)).
Proof.
  intros Hx Hmax. destruct x as [[|n|n] d]; try discriminate Hx.
  unfold fl. change (rnd (Z.pos n # d)) with (rnd_abs (Z.pos n # d)).
  pose proof (rnd_abs_nonneg (Z.pos n # d) Hx) as L.
  set (v := rnd_abs (Z.pos n # d)) in *.
  destruct (Qle_bool _ _) eqn:T; [|reflexivity].
  apply Qle_bool_iff in T. rewrite (Qabs_pos _ L) in T. exfalso. lra.
Qed.

(** Rounding keeps the order of the nonnegative reals. *)
Lemma fl_monotone (x y q : Q) :
  0 <= x -> x <= y -> fl y = FNum q ->
  exists p, fl x = FNum p /\ 0 <= p /\ p <= q.
Proof.
  intros H0 Hxy Ey.
  destruct (Qlt_le_dec 0 x) as [Hx|Hx].
  - assert (Hy : 0 < y) by lra.
    destruct (fl_positive y q Hy Ey) as [Eq Hmax].
    pose proof (rnd_abs_mono x y Hx Hxy) as M.
    pose proof (rnd_abs_nonneg x Hx) as L.
    exists (Qred (rnd_abs x)). split; [apply fl_finite; [exact Hx|lra]|].
    rewrite Qred_correct. split; [exact L|lra].
  - exists 0. split; [apply fl_zero; lra|]. split; [lra|].
    destruct (Qlt_le_dec 0 y) as [Hy|Hy].
    + destruct (fl_positive y q Hy Ey) as [Eq _]. rewrite Eq.
      now apply rnd_abs_nonneg.
    + rewrite fl_zero in Ey by lra. apply FNum_inj in Ey. subst q. lra.
Qed.

(** A nonnegative real below a binary64 number [B] is rounded to a number
    between 0 and [B]. *)
Lemma fl_bounded (x B : Q) :
  0 <= x -> x <= B -> rnd_abs B == B -> B < 2 ^ 1024 ->
  exists q, fl x = FNum q /\ 0 <= q /\ q <= B.
Proof.
  intros H0 HB EB Hmax.
  destruct (Qlt_le_dec 0 B) as [Hb|Hb].
  - destruct (fl_monotone x B (Qred (rnd_abs B)) H0 HB) as (p & Ep & L & U).
    + apply fl_finite; [exact Hb|lra].
    + exists p. rewrite Qred_correct, EB in U. now repeat split.
  - exists 0. split; [apply fl_zero; lra|]. lra.
Qed.

(** *** The float64 of an integer *)

Lemma pow2_1024 (q : Q) : q <= inject_Z (2 ^ 63) -> q < 2 ^ 1024.
Proof.
  intros H. eapply Qle_lt_trans; [exact H|]. vm_compute. reflexivity.
Qed.

Lemma rnd_abs_int (p : positive) :
  1 <= rnd_abs (inject_Z (Zpos p))
  /\ ((Zpos p <= 2 ^ 63)%Z -> rnd_abs (inject_Z (Zpos p)) <= inject_Z (2 ^ 63)).
Proof.
  split.
  - rewrite <- rnd_abs_1. apply rnd_abs_mono; [reflexivity|].
    change 1 with (inject_Z 1). rewrite <- Zle_Qle. lia.
  - intros H. rewrite <- rnd_abs_int64. apply rnd_abs_mono; [reflexivity|].
    now rewrite <- Zle_Qle.
Qed.

(** The float64 of an integer that is not 0 is not 0, and it is finite when
    the integer is an int64. *)
Lemma fl_int (c : Z) :
  c <> 0%Z ->
  match fl (inject_Z c) with
  | FNaN => False
  | FInf _ => ~ int64 c
  | FNum q => (Qnum q =? 0)%Z = false
  end.
Proof.
  intros Hc. destruct c as [|p|p]; [now contradiction Hc| |].
  - destruct (rnd_abs_int p) as [L U].
    destruct (fl (inject_Z (Z.pos p))) as [|s|q] eqn:E.
    + now apply fl_notna in E.
    + intros [_ I]. rewrite fl_finite in E; [discriminate|reflexivity|].
      apply pow2_1024, U. lia.
    + destruct (fl_positive (inject_Z (Z.pos p)) q) as [Eq _];
        [reflexivity|exact E|].
      apply Qnum_pos. rewrite Eq. lra.
  - destruct (rnd_abs_int p) as [L U].
    unfold fl.
    change (rnd (inject_Z (Z.neg p))) with (- rnd_abs (inject_Z (Z.pos p))).
    set (r := rnd_abs (inject_Z (Z.pos p))) in *.
    destruct (Qle_bool _ _) eqn:T.
    + intros [I _]. apply Qle_bool_iff in T. rewrite Qabs_opp in T.
      rewrite Qabs_pos in T by lra.
      assert (r < 2 ^ 1024) by (apply pow2_1024, U; lia). lra.
    + apply Qnum_neg. rewrite Qred_correct. lra.
Qed.

(** *** The percentage *)

Lemma fdiv_nan_r (a : fval) : fdiv a FNaN = FNaN.
Proof. now destruct a. Qed.

Lemma fdiv_notna (a : fval) (q : Q) :
  a <> FNaN -> (Qnum q =? 0)%Z = false -> fdiv a (FNum q) <> FNaN.
Proof.
  intros Ha Hq. destruct a as [|s|p]; [now contradiction Ha|discriminate|].
  unfold fdiv. rewrite Hq. apply fl_notna.
Qed.

Lemma fmul_notna (a : fval) (q : Q) :
  a <> FNaN -> (Qnum q =? 0)%Z = false -> fmul a (FNum q) <> FNaN.
Proof.
  intros Ha Hq. destruct a as [|s|p]; [now contradiction Ha| |].
  - unfold fmul. rewrite Hq. discriminate.
  - apply fl_notna.
Qed.

Lemma around2_notna (a : fval) : a <> FNaN -> around2 a <> FNaN.
Proof.
  intros Ha. unfold around2. apply fdiv_notna; [|reflexivity].
  pose proof (fmul_notna a 100 Ha eq_refl) as H.
  now destruct (fmul a (FNum 100)).
Qed.

(** The percentage is a value when the divisor is an int64 that is not 0. *)
Lemma percentage_notna (z c : Z) :
  c <> 0%Z -> int64 c -> percentage (Num z) (Num c) <> FNaN.
Proof.
  intros Hc Ic. unfold percentage, true_divide, to_float64.
  apply around2_notna, fmul_notna; [|reflexivity].
  pose proof (fl_int c Hc) as F.
  destruct (fl (inject_Z c)) as [|s|q]; [destruct F|now contradiction F|].
  apply fdiv_notna; [apply fl_notna|exact F].
Qed.

(** The percentage of 0 is 0, whatever the divisor, when that is not 0. *)
Lemma percentage_zero (c : Z) :
  c <> 0%Z -> percentage (Num 0) (Num c) = FNum 0.
Proof.
  intros Hc. unfold percentage, true_divide, to_float64.
  pose proof (fl_int c Hc) as F.
  destruct (fl (inject_Z c)) as [|s|q]; [destruct F|reflexivity|].
  change (fl (inject_Z 0)) with (FNum 0). unfold fdiv. rewrite F.
  reflexivity.
Qed.

(** What a percentage between 0 and 100 with two decimals is, as a
    float64: the float64 of [k / 100] for an integer [k] from 0 to 10000. *)
Definition two_decimals (a : fval) : Prop :=
  exists (k : Z) (q : Q),
    (0 <= k <= 10000)%Z /\ a = FNum q /\ fl (inject_Z k / 100) = FNum q
    /\ 0 <= q /\ q <= 100.

Lemma two_decimals_0 : two_decimals (FNum 0).
Proof. exists 0%Z, 0. repeat split; try reflexivity; discriminate. Qed.

(** A part of a whole is a percentage between 0 and 100. *)
Lemma percentage_range (d c : Z) :
  (0 <= d <= c)%Z -> two_decimals (ffillna0 (percentage (Num d) (Num c))).
Proof.
  intros Hd. destruct (Z.eq_dec c 0) as [->|Hc].
  { assert (d = 0%Z) by lia. subst d. exact two_decimals_0. }
  unfold percentage, true_divide, to_float64.
  pose proof (fl_int c Hc) as F.
  destruct (fl (inject_Z c)) as [|s|qc] eqn:Ec; [destruct F| |].
  - destruct (fl (inject_Z d)) as [|s'|qd] eqn:Ed;
      [now apply fl_notna in Ed|exact two_decimals_0|exact two_decimals_0].
  - destruct (fl_monotone (inject_Z d) (inject_Z c) qc) as (qd & Ed & L & U);
      [change 0 with (inject_Z 0); rewrite <- Zle_Qle; lia
      |rewrite <- Zle_Qle; lia|exact Ec|].
    rewrite Ed. unfold fdiv. rewrite F.
    assert (Hqc : 0 < qc).
    { destruct (fl_positive (inject_Z c) qc) as [Eq _];
        [change 0 with (inject_Z 0); rewrite <- Zlt_Qlt; lia|exact Ec|].
      destruct c as [|p|p]; try lia. destruct (rnd_abs_int p). lra. }
    destruct (fl_bounded (qd / qc) 1) as (q1 & E1 & L1 & U1);
      [apply Qle_shift_div_l; [exact Hqc|lra]
      |apply Qle_shift_div_r; [exact Hqc|lra]
      |exact rnd_abs_1|reflexivity|].
    rewrite E1. unfold fmul.
    destruct (fl_bounded (q1 * 100) 100) as (q2 & E2 & L2 & U2);
      [lra|lra|exact rnd_abs_100|reflexivity|].
    rewrite E2. unfold around2, fmul.
    destruct (fl_bounded (q2 * 100) 10000) as (q3 & E3 & L3 & U3);
      [lra|lra|exact rnd_abs_10000|reflexivity|].
    rewrite E3. unfold frint, fdiv.
    change (Qnum 100 =? 0)%Z with false. cbv iota.
    assert (K0 : (0 <= rint q3)%Z) by now apply rint_lower.
    assert (K1 : (rint q3 <= 10000)%Z) by now apply rint_upper.
    rewrite Zle_Qle in K0, K1.
    destruct (fl_bounded (inject_Z (rint q3) / 100) 100) as (q4 & E4 & L4 & U4);
      [apply Qle_shift_div_l; [reflexivity|]; change (inject_Z 0) with 0 in K0; lra
      |apply Qle_shift_div_r; [reflexivity|];
       change (inject_Z 10000) with (100 * 100) in K1; lra
      |exact rnd_abs_100|reflexivity|].
    rewrite E4. exists (rint q3), q4. rewrite <- !Zle_Qle in *.
    now repeat split.
Qed.

(** Two rationals that are equal are rounded to the same float64. *)
Lemma rnd_abs_comp (x y : Q) : 0 < x -> x == y -> rnd_abs x == rnd_abs y.
Proof.
  intros Hx E. apply Qle_antisym; apply rnd_abs_mono; lra.
Qed.

Lemma fl_comp (x y : Q) : x == y -> fl x = fl y.
Proof.
  intros E.
  assert (V : rnd x == rnd y /\ (Qnum x <? 0)%Z = (Qnum y <? 0)%Z).
  { destruct x as [[|n|n] d], y as [[|m|m] d'];
      try (exfalso; revert E; unfold Qeq; simpl; lia).
    - now split.
    - split; [|reflexivity]. now apply rnd_abs_comp.
    - split; [|reflexivity]. unfold rnd. simpl Qnum. cbv iota.
      apply Qopp_comp, rnd_abs_comp; [reflexivity|]. now rewrite E. }
  destruct V as [V S]. unfold fl. rewrite S.
  assert (B : Qle_bool (2 ^ 1024) (Qabs (rnd x))
              = Qle_bool (2 ^ 1024) (Qabs (rnd y))) by now rewrite V.
  rewrite B. destruct (Qle_bool (2 ^ 1024) (Qabs (rnd y))); [reflexivity|].
  f_equal. now apply Qred_complete.
Qed.

(** The float64 of a positive integer is positive. *)
Lemma fl_int_positive (z : Z) :
  (0 < z)%Z ->
  match fl (inject_Z z) with
  | FNaN => False
  | FInf s => s = false
  | FNum q => (Qnum q =? 0)%Z = false /\ (Qnum q <? 0)%Z = false
  end.
Proof.
  intros Hz. destruct z as [|p|p]; try lia.
  destruct (rnd_abs_int p) as [L _].
  destruct (fl (inject_Z (Z.pos p))) as [|s|q] eqn:E.
  - now apply fl_notna in E.
  - unfold fl in E. destruct (Qle_bool _ _); [|discriminate].
    now injection E as <-.
  - destruct (fl_positive (inject_Z (Z.pos p)) q) as [Eq _];
      [reflexivity|exact E|].
    assert (Hq : 0 < q) by (rewrite Eq; lra).
    split; [now apply Qnum_pos|]. destruct q as [n d].
    unfold Qlt in Hq; simpl in *. lia.
Qed.

(** *** The error of the rounding *)

Lemma rint_comp (p q : Q) : p == q -> rint p = rint q.
Proof.
  intros E. unfold rint.
  assert (F : Qfloor p = Qfloor q) by now rewrite E.
  rewrite F.
  assert (C : (p - inject_Z (Qfloor q) ?= 1 # 2)
              = (q - inject_Z (Qfloor q) ?= 1 # 2)) by now rewrite E.
  now rewrite C.
Qed.

(** [rint] is within one half of its argument. *)
Lemma rint_half (y : Q) : Qabs (inject_Z (rint y) - y) <= 1 # 2.
Proof.
  pose proof (Qfloor_le y) as L. pose proof (Qlt_floor y) as U.
  rewrite inject_Z_plus in U. change (inject_Z 1) with 1 in U.
  apply Qabs_Qle_condition. unfold rint.
  destruct (Qcompare_spec (y - inject_Z (Qfloor y)) (1 # 2)) as [C|C|C];
    [destruct (Z.even (Qfloor y))| |];
    try rewrite inject_Z_plus; try change (inject_Z 1) with 1; split; lra.
Qed.

(** The unit roundoff, and a decimal bound of it. *)
Definition ulp52 : Q := 2 ^ (-52).

Lemma ulp52_small : ulp52 <= 1 # 4000000000000000.
Proof. vm_compute. discriminate. Qed.

Lemma ulp52_pos : 0 < ulp52.
Proof. apply pow2_pos. Qed.

(** A nonnegative real below a binary64 number [B >= 1] is rounded with an
    error of at most [B * 2 ^ (-52)]. *)
Lemma fl_error (x B : Q) :
  0 <= x -> x <= B -> 1 <= B -> rnd_abs B == B -> B < 2 ^ 1024 ->
  exists q, fl x = FNum q /\ 0 <= q /\ q <= B /\ Qabs (q - x) <= B * ulp52.
Proof.
  intros H0 HB H1 EB Hmax.
  pose proof ulp52_pos as Hu.
  destruct (Qlt_le_dec 0 x) as [Hx|Hx].
  - pose proof (rnd_abs_mono x B Hx HB) as M. rewrite EB in M.
    pose proof (rnd_abs_nonneg x Hx) as L.
    exists (Qred (rnd_abs x)).
    split; [apply fl_finite; [exact Hx|lra]|].
    rewrite Qred_correct. split; [exact L|]. split; [exact M|].
    destruct (ilog2_spec x Hx) as [Lx _].
    unfold rnd_abs.
    set (e := Z.max (ilog2 x - 52) (-1074)).
    pose proof (pow2_pos e) as Pe.
    pose proof (rint_half (x / 2 ^ e)) as R.
    apply Qabs_Qle_condition in R. destruct R as [R1 R2].
    assert (E : (inject_Z (rint (x / 2 ^ e)) - x / 2 ^ e) * 2 ^ e
                == inject_Z (rint (x / 2 ^ e)) * 2 ^ e - x).
    { field. intros Z0. rewrite Z0 in Pe. discriminate Pe. }
    assert (P : 2 ^ e <= B * ulp52).
    { unfold ulp52. destruct (Z.max_spec (ilog2 x - 52) (-1074)) as [[_ Em]|[_ Em]];
        fold e in Em; rewrite Em.
      - apply Qle_trans with (1 * 2 ^ (-52));
          [rewrite Qmult_1_l; apply pow2_le; lia|].
        apply Qmult_le_compat_r; [exact H1|apply Qlt_le_weak, pow2_pos].
      - replace (ilog2 x - 52)%Z with (ilog2 x + -52)%Z by lia.
        rewrite pow2_add.
        apply Qmult_le_compat_r; [lra|apply Qlt_le_weak, pow2_pos]. }
    apply (Qmult_le_compat_r _ _ (2 ^ e)) in R1; [|lra].
    apply (Qmult_le_compat_r _ _ (2 ^ e)) in R2; [|lra].
    rewrite E in R1, R2.
    apply Qabs_Qle_condition. split; lra.
  - exists 0. split; [apply fl_zero; lra|]. split; [lra|]. split; [lra|].
    assert (E : 0 - x == 0) by lra. rewrite E. simpl.
    apply Qmult_le_0_compat; lra.
Qed.

(** An integer up to [2 ^ 53] is a float64. *)
Lemma fl_int_exact (z : Z) :
  (0 <= z < 2 ^ 53)%Z ->
  exists q, fl (inject_Z z) = FNum q /\ q == inject_Z z.
Proof.
  intros Hz. destruct (Z.eq_dec z 0) as [->|Hz0].
  { exists 0. now split. }
  assert (Hx : 0 < inject_Z z)
    by (change 0 with (inject_Z 0); rewrite <- Zlt_Qlt; lia).
  destruct (ilog2_spec _ Hx) as [Lx Ux].
  set (l := ilog2 (inject_Z z)) in *.
  assert (Hl : (0 <= l <= 52)%Z).
  { split.
    - assert (H : 2 ^ 0 < 2 ^ (l + 1)).
      { eapply Qle_lt_trans; [|exact Ux].
        change (2 ^ 0) with (inject_Z 1). rewrite <- Zle_Qle. lia. }
      apply (Qpower_lt_compat_l_inv 2 0 (l + 1)) in H; [lia|reflexivity].
    - assert (H : 2 ^ l < 2 ^ 53).
      { eapply Qle_lt_trans; [exact Lx|].
        rewrite <- pow2_Z by lia. rewrite <- Zlt_Qlt. lia. }
      apply (Qpower_lt_compat_l_inv 2 l 53) in H; [lia|reflexivity]. }
  assert (V : rnd_abs (inject_Z z) == inject_Z z).
  { unfold rnd_abs. fold l.
    replace (Z.max (l - 52) (-1074)) with (- (52 - l))%Z by lia.
    pose proof (pow2_pos (52 - l)) as Pp.
    assert (I : inject_Z z / 2 ^ (- (52 - l)) == inject_Z (z * 2 ^ (52 - l))).
    { rewrite inject_Z_mult, pow2_Z by lia. rewrite Qpower_opp.
      field. intros Z0. rewrite Z0 in Pp. discriminate Pp. }
    rewrite (rint_comp _ _ I), rint_Z, inject_Z_mult, pow2_Z by lia.
    rewrite Qpower_opp. field. intros Z0. rewrite Z0 in Pp. discriminate Pp. }
  exists (Qred (rnd_abs (inject_Z z))). split.
  - apply fl_finite; [exact Hx|]. rewrite V. apply pow2_1024.
    rewrite <- Zle_Qle. lia.
  - now rewrite Qred_correct.
Qed.

(** The distance between the percentage of the program and the exact
    one. *)
Definition close_to (a : fval) (x : Q) : Prop :=
  exists q, a = FNum q /\ Qabs (q - x) <= (1 # 200) + (1 # 1000000000000).

Lemma rnd_abs_2 : rnd_abs 2 == 2.
Proof. vm_compute. reflexivity. Qed.

(** [round(2)] of a number between 0 and 100. *)
Lemma around2_close (q : Q) :
  0 <= q -> q <= 100 ->
  exists k r,
    around2 (FNum q) = FNum r /\ (0 <= k <= 10000)%Z
    /\ fl (inject_Z k / 100) = FNum r /\ 0 <= r /\ r <= 100
    /\ Qabs (r - q) <= (1 # 200) + 200 * ulp52.
Proof.
  intros L U. pose proof ulp52_pos as Hu. unfold around2, fmul.
  destruct (fl_error (q * 100) 10000) as (q3 & E3 & L3 & U3 & R3);
    [lra|lra|discriminate|exact rnd_abs_10000|reflexivity|].
  rewrite E3. unfold frint, fdiv.
  change (Qnum 100 =? 0)%Z with false. cbv iota.
  assert (K0 : (0 <= rint q3)%Z) by now apply rint_lower.
  assert (K1 : (rint q3 <= 10000)%Z) by now apply rint_upper.
  pose proof (rint_half q3) as Rk.
  set (k := rint q3) in *.
  assert (K0' := K0). assert (K1' := K1). rewrite Zle_Qle in K0', K1'.
  change (inject_Z 0) with 0 in K0'.
  change (inject_Z 10000) with 10000 in K1'.
  destruct (fl_error (inject_Z k / 100) 100) as (q4 & E4 & L4 & U4 & R4);
    [apply Qle_shift_div_l; [reflexivity|lra]
    |apply Qle_shift_div_r; [reflexivity|lra]
    |discriminate|exact rnd_abs_100|reflexivity|].
  exists k, q4. rewrite E4. repeat split; try assumption.
  apply Qabs_Qle_condition in R3, Rk, R4. apply Qabs_Qle_condition.
  assert (D : inject_Z k / 100 == inject_Z k * (1 # 100)) by reflexivity.
  rewrite D in R4. split; lra.
Qed.

(** A part of a whole, both below [2 ^ 53]: the percentage is within half a
    hundredth of the exact percentage, and a rounding error. *)
Lemma percentage_close (d c : Z) :
  (0 <= d <= c)%Z -> (0 < c < 2 ^ 53)%Z ->
  close_to (percentage (Num d) (Num c)) (inject_Z d / inject_Z c * 100).
Proof.
  intros Hd Hc. pose proof ulp52_pos as Hu. pose proof ulp52_small as Hs.
  unfold percentage, true_divide, to_float64.
  destruct (fl_int_exact c) as (qc & Ec & Vc); [lia|].
  destruct (fl_int_exact d) as (qd & Ed & Vd); [lia|].
  rewrite Ec, Ed. unfold fdiv.
  assert (Pc : 0 < inject_Z c)
    by (change 0 with (inject_Z 0); rewrite <- Zlt_Qlt; lia).
  assert (Pd : 0 <= inject_Z d)
    by (change 0 with (inject_Z 0); rewrite <- Zle_Qle; lia).
  assert (Dc : inject_Z d <= inject_Z c) by (rewrite <- Zle_Qle; lia).
  rewrite Qnum_pos by lra.
  set (x := inject_Z d / inject_Z c).
  assert (X : qd / qc == x) by (unfold x; now rewrite Vd, Vc).
  assert (X0 : 0 <= x) by (apply Qle_shift_div_l; [exact Pc|lra]).
  assert (X1 : x <= 1) by (apply Qle_shift_div_r; [exact Pc|lra]).
  destruct (fl_error (qd / qc) 1) as (q1 & E1 & L1 & U1 & R1);
    [lra|lra|discriminate|exact rnd_abs_1|reflexivity|].
  rewrite E1. unfold fmul.
  destruct (fl_error (q1 * 100) 100) as (q2 & E2 & L2 & U2 & R2);
    [lra|lra|discriminate|exact rnd_abs_100|reflexivity|].
  rewrite E2.
  destruct (around2_close q2 L2 U2) as (k & r & Er & _ & _ & _ & _ & Rr).
  rewrite Er. exists r. split; [reflexivity|].
  apply Qabs_Qle_condition in R1, R2, Rr. apply Qabs_Qle_condition.
  split; lra.
Qed.

End CellFacts.


(* ================================================================= *)
(** ** The Merger: [get_merged_data] *)

Module MergerFacts.
Import Dict Loader CellFacts.

(** The value a left join gives a left row of key [k]: missing when no right
    row has the key, else the value of one of the right rows that have it. *)
Definition joined (right : list LongRecord) (k : key) (v : count) : Prop :=
  (v = NaN /\ matches right k = []) \/
  (exists z, v = Num z /\ In z (matches right k)).

Lemma in_merge_left {L : Type} (key_of : L -> key) (left : list L)
    (right : list LongRecord) (x : L * count) :
  In x (merge_left key_of left right) <->
  In (fst x) left /\ joined right (key_of (fst x)) (snd x).
Proof.
  unfold merge_left, joined. rewrite in_flat_map. split.
  - intros (l & Hl & Hx).
    destruct (matches right (key_of l)) as [|z zs] eqn:E.
    + destruct Hx as [<-|[]]. simpl. split; [exact Hl|]. left. now split.
    + apply in_map_iff in Hx. destruct Hx as (v & <- & Hv). simpl.
      split; [exact Hl|]. right. exists v. rewrite E. now split.
  - destruct x as [l v]. simpl. intros (Hl & [[-> E]|(z & -> & Hz)]).
    + exists l. split; [exact Hl|]. rewrite E. now left.
    + exists l. split; [exact Hl|].
      destruct (matches right (key_of l)) as [|z' zs] eqn:E; [destruct Hz|].
      now apply (in_map (fun v => (l, Num v)) (z' :: zs)).
Qed.

Lemma joined_exists (right : list LongRecord) (k : key) :
  exists v, joined right k v.
Proof.
  destruct (matches right k) as [|z zs] eqn:E.
  - exists NaN. left. now split.
  - exists (Num z). right. exists z. split; [reflexivity|]. rewrite E. now left.
Qed.

(** Every merged row is a confirmed row, completed by the join with deaths
    and the join with recovered. *)
Lemma in_merge_frames (confirmed deaths recovered : list LongRecord)
    (m : MergedRecord) :
  In m (merge_frames confirmed deaths recovered) <->
  exists c d r,
    In c confirmed /\ joined deaths (long_key c) d
    /\ joined recovered (long_key c) r
    /\ m = fillna0 (derive (c, d, r)).
Proof.
  unfold merge_frames. rewrite map_map, in_map_iff. split.
  - intros ([[c d] r] & <- & Hj).
    apply in_merge_left in Hj. simpl in Hj. destruct Hj as (Hcd & Hr).
    apply in_merge_left in Hcd. simpl in Hcd. destruct Hcd as (Hc & Hd).
    now exists c, d, r.
  - intros (c & d & r & Hc & Hd & Hr & ->).
    exists (c, d, r). split; [reflexivity|].
    apply in_merge_left. simpl. split; [|exact Hr].
    apply in_merge_left. simpl. now split.
Qed.

Lemma get_merged_data_ok (processed_data : dict (list LongRecord))
    (confirmed deaths recovered : list LongRecord) :
  get "confirmed" processed_data = Some confirmed ->
  get "deaths" processed_data = Some deaths ->
  get "recovered" processed_data = Some recovered ->
  get_merged_data processed_data
  = Ok (merge_frames confirmed deaths recovered).
Proof.
  intros Hc Hd Hr. unfold get_merged_data, getitem.
  now rewrite Hc, Hd, Hr.
Qed.

Lemma get_merged_data_inv (processed_data : dict (list LongRecord))
    (out : list MergedRecord) :
  get_merged_data processed_data = Ok out ->
  exists confirmed deaths recovered,
    get "confirmed" processed_data = Some confirmed
    /\ get "deaths" processed_data = Some deaths
    /\ get "recovered" processed_data = Some recovered
    /\ out = merge_frames confirmed deaths recovered.
Proof.
  unfold get_merged_data, getitem.
  destruct (get "confirmed" processed_data) as [c|]; [|discriminate].
  destruct (get "deaths" processed_data) as [d|]; [|discriminate].
  destruct (get "recovered" processed_data) as [r|]; [|discriminate].
  simpl. intros [= <-]. now exists c, d, r.
Qed.

Definition merged_key (m : MergedRecord) : key := (Country_Region m, Date m).

(** Where both joins find a row, no value is missing, and the equation of
    the active cases holds when the three counts are between 0 and 2^52:
    there neither an int64 subtraction nor a float64 one (the type of a
    column in which another row has a missing value) loses anything. *)
Lemma active_when_matched (confirmed deaths recovered : list LongRecord)
    (m : MergedRecord) :
  In m (merge_frames confirmed deaths recovered) ->
  matches deaths (merged_key m) <> [] ->
  matches recovered (merged_key m) <> [] ->
  exists d r,
    Deaths m = Num d /\ Recovered m = Num r
    /\ (0 <= Confirmed m < 2 ^ 52 -> 0 <= d < 2 ^ 52 -> 0 <= r < 2 ^ 52 ->
        Active m = Num (Confirmed m - d - r)).
Proof.
  intros Hm Hd Hr. apply in_merge_frames in Hm.
  destruct Hm as (c & d & r & _ & Jd & Jr & ->).
  change (merged_key (fillna0 (derive (c, d, r)))) with (long_key c) in Hd, Hr.
  destruct Jd as [[_ E]|(zd & -> & _)]; [contradiction|].
  destruct Jr as [[_ E]|(zr & -> & _)]; [contradiction|].
  now exists zd, zr.
Qed.

(** Where a join finds no row, the active cases are 0, whatever the other
    columns hold: the missing values are filled after the subtraction. *)
Lemma active_when_unmatched (confirmed deaths recovered : list LongRecord)
    (m : MergedRecord) :
  In m (merge_frames confirmed deaths recovered) ->
  matches deaths (merged_key m) = []
  \/ matches recovered (merged_key m) = [] ->
  Active m = Num 0.
Proof.
  intros Hm H. apply in_merge_frames in Hm.
  destruct Hm as (c & d & r & _ & Jd & Jr & ->).
  change (merged_key (fillna0 (derive (c, d, r)))) with (long_key c) in H.
  destruct H as [E|E].
  - destruct Jd as [[-> _]|(zd & -> & Hz)]; [reflexivity|].
    rewrite E in Hz. destruct Hz.
  - destruct Jr as [[-> _]|(zr & -> & Hz)].
    + simpl. now destruct d.
    + rewrite E in Hz. destruct Hz.
Qed.

Definition long (country : string) (date cases : Z) : LongRecord :=
  {| long_Country_Region := country;
     long_Date := date;
     long_Cases := cases;
     long_Lat := FNum 40;
     long_Long := FNum (-100) |}.

(** Day numbers of 2020-01-22 and 2020-01-23. *)
Definition d1 : Z := 18283.
Definition d2 : Z := 18284.

Definition unmatched_recovered : dict (list LongRecord) :=
  [("confirmed", [long "US" d1 10; long "US" d2 12]);
   ("deaths", [long "US" d1 1; long "US" d2 1]);
   ("recovered", [long "US" d1 2])].

(** C1 (the code departs from it): every merged row should satisfy
    active = confirmed - deaths - recovered, a missing join counting as 0.
    On a table whose second confirmed row has no recovered row, the merged
    row has confirmed 12, deaths 1, recovered 0 (filled) and active 0, where
    the equation asks for 11; the row where both joins match satisfies
    it. *)
Theorem active_equation_unmatched_row :
  exists m1 m2,
    get_merged_data unmatched_recovered = Ok [m1; m2]
    /\ (Confirmed m1 = 10 /\ Deaths m1 = Num 1 /\ Recovered m1 = Num 2
        /\ Active m1 = Num 7)
    /\ (Confirmed m2 = 12 /\ Deaths m2 = Num 1 /\ Recovered m2 = Num 0
        /\ Active m2 = Num 0)
    /\ csub (csub (Num (Confirmed m2)) (Deaths m2)) (Recovered m2) = Num 11.
Proof.
  eexists _, _. split; [vm_compute; reflexivity|]. simpl. repeat split.
Qed.

Definition missing_deaths : dict (list LongRecord) :=
  [("confirmed", [long "US" d1 10]);
   ("deaths", []);
   ("recovered", [long "US" d1 2])].

(** C2 (the code departs from it): merging confirmed = {(US, d1): 10},
    deaths = {} and recovered = {(US, d1): 2} gives one row, with
    confirmed 10, deaths 0 and recovered 2, but with active 0, not 8. *)
Theorem merge_missing_deaths_example :
  get_merged_data missing_deaths
  = Ok [ {| Country_Region := "US";
            Date := d1;
            Confirmed := 10;
            Lat := FNum 40;
            Long := FNum (-100);
            Deaths := Num 0;
            Recovered := Num 2;
            Active := Num 0;
            Death_Rate := FNum 0;
            Recovery_Rate := FNum 20 |} ].
Proof. vm_compute. reflexivity. Qed.

(** *** The rates *)

(** What the specification says of a rate column, for the count [x] it is
    the rate of (as the merged row holds it), the confirmed count and the
    rate [rate] of the merged row.  The percentage is the one the program
    computes, in binary64. *)
Record rate_spec (confirmed : Z) (x : count) (rate : fval) : Prop := {
  rate_defined : rate <> FNaN;
  rate_rounded : forall d,
    x = Num d -> confirmed <> 0 -> int64 confirmed ->
    rate = percentage (Num d) (Num confirmed);
  rate_zero : x = Num 0 -> confirmed = 0 -> rate = FNum 0;
  rate_range : forall d,
    x = Num d -> 0 <= d <= confirmed -> two_decimals rate;
  rate_close : forall d,
    x = Num d -> 0 <= d <= confirmed -> 0 < confirmed < 2 ^ 53 ->
    close_to rate (inject_Z d / inject_Z confirmed * 100)
}.

Lemma rate_of_join (confirmed : Z) (x : count) :
  rate_spec confirmed (cfillna0 x)
            (ffillna0 (percentage x (Num confirmed))).
Proof.
  split.
  - now destruct (percentage x (Num confirmed)).
  - intros d Hx Hc Ic. destruct x as [|z]; simpl in Hx; injection Hx as <-.
    + now rewrite percentage_zero.
    + pose proof (percentage_notna z confirmed Hc Ic) as N.
      now destruct (percentage (Num z) (Num confirmed)).
  - intros Hx ->. destruct x as [|z]; simpl in Hx; [reflexivity|].
    injection Hx as ->. reflexivity.
  - intros d Hx Hd. destruct x as [|z]; simpl in Hx; injection Hx as <-.
    + exact two_decimals_0.
    + now apply percentage_range.
  - intros d Hx Hd Hc. pose proof (percentage_close d confirmed Hd Hc) as C.
    destruct x as [|z]; simpl in Hx; injection Hx as <-.
    + rewrite percentage_zero in C by lia. exact C.
    + destruct C as (q & E & C). rewrite E. now exists q.
Qed.

Definition zero_confirmed : dict (list LongRecord) :=
  [("confirmed", [long "US" d1 0]);
   ("deaths", [long "US" d1 5]);
   ("recovered", [long "US" d1 0])].

(** C3, as stated, fails: a row with confirmed 0 and deaths 5 has an
    infinite death rate, which [fillna] does not replace. *)
Lemma rate_zero_confirmed_counterexample :
  exists out,
    get_merged_data zero_confirmed = Ok out
    /\ ~ (forall m, In m out -> Confirmed m = 0 -> Death_Rate m = FNum 0).
Proof.
  eexists. split; [vm_compute; reflexivity|].
  intros H. specialize (H _ (or_introl eq_refl) eq_refl). discriminate H.
Qed.

(** C3, amended: when the three tables are present [get_merged_data] returns
    (it does not raise), and in every row it returns each rate is a value
    (not NaN); when confirmed is an int64 other than 0 it is the percentage
    of the count the row holds, count / confirmed * 100 rounded to 2
    decimals, each operation in binary64; it is 0 when confirmed is 0 and
    the count is 0 (or was missing and filled with 0); and when the count
    is between 0 and confirmed it is a number of two decimals from 0 to 100
    (the float64 of k / 100, for an integer k from 0 to 10000), within half
    a hundredth (and a rounding error below 10^-12) of the exact percentage
    when confirmed is below 2^53. *)
Theorem merged_rates (processed_data : dict (list LongRecord))
    (confirmed deaths recovered : list LongRecord) :
  get "confirmed" processed_data = Some confirmed ->
  get "deaths" processed_data = Some deaths ->
  get "recovered" processed_data = Some recovered ->
  exists out,
    get_merged_data processed_data = Ok out
    /\ forall m, In m out ->
         rate_spec (Confirmed m) (Deaths m) (Death_Rate m)
         /\ rate_spec (Confirmed m) (Recovered m) (Recovery_Rate m).
Proof.
  intros Hc Hd Hr. exists (merge_frames confirmed deaths recovered).
  split; [now apply get_merged_data_ok|].
  intros m Hm. apply in_merge_frames in Hm.
  destruct Hm as (c & d & r & _ & _ & _ & ->).
  split; apply rate_of_join.
Qed.

Definition both_matched : dict (list LongRecord) :=
  [("confirmed", [long "US" d1 7]);
   ("deaths", [long "US" d1 1]);
   ("recovered", [long "US" d1 3])].

Lemma merged_rates_witness :
  exists out,
    get_merged_data both_matched = Ok out
    /\ forall m, In m out ->
         rate_spec (Confirmed m) (Deaths m) (Death_Rate m)
         /\ rate_spec (Confirmed m) (Recovered m) (Recovery_Rate m).
Proof.
  apply (merged_rates both_matched
           [long "US" d1 7] [long "US" d1 1] [long "US" d1 3]);
    reflexivity.
Defined.

(** *** The keys *)

(** C6: the keys (country, date) of the merged table are exactly the keys
    of the confirmed table: every confirmed row gives a merged row, and a
    key that only the deaths or the recovered table has gives none, without
    an error. *)
Theorem merged_keys (processed_data : dict (list LongRecord))
    (confirmed deaths recovered : list LongRecord) :
  get "confirmed" processed_data = Some confirmed ->
  get "deaths" processed_data = Some deaths ->
  get "recovered" processed_data = Some recovered ->
  exists out,
    get_merged_data processed_data = Ok out
    /\ (forall c, In c confirmed ->
          exists m, In m out /\ merged_key m = long_key c)
    /\ (forall k, In k (map merged_key out) <-> In k (map long_key confirmed))
    /\ (forall k,
          In k (map long_key deaths) \/ In k (map long_key recovered) ->
          ~ In k (map long_key confirmed) ->
          ~ In k (map merged_key out)).
Proof.
  intros Hc Hd Hr. exists (merge_frames confirmed deaths recovered).
  split; [now apply get_merged_data_ok|].
  assert (F : forall c, In c confirmed ->
     exists m, In m (merge_frames confirmed deaths recovered)
               /\ merged_key m = long_key c).
  { intros c Hin.
    destruct (joined_exists deaths (long_key c)) as [d Jd].
    destruct (joined_exists recovered (long_key c)) as [r Jr].
    exists (fillna0 (derive (c, d, r))). split; [|reflexivity].
    apply in_merge_frames. now exists c, d, r. }
  assert (K : forall k,
     In k (map merged_key (merge_frames confirmed deaths recovered))
     <-> In k (map long_key confirmed)).
  { intros k. rewrite !in_map_iff. split.
    - intros (m & <- & Hm). apply in_merge_frames in Hm.
      destruct Hm as (c & d & r & Hin & _ & _ & ->).
      exists c. now split.
    - intros (c & <- & Hin). destruct (F c Hin) as (m & Hm & E).
      exists m. now split. }
  split; [exact F|]. split; [exact K|].
  intros k _ Hk Hin. apply Hk. now apply K.
Qed.

Definition extra_keys : dict (list LongRecord) :=
  [("confirmed", [long "US" d1 10; long "FR" d1 4]);
   ("deaths", [long "US" d1 1; long "IT" d1 3]);
   ("recovered", [long "DE" d2 2])].

Lemma merged_keys_witness :
  exists out,
    get_merged_data extra_keys = Ok out
    /\ (forall c, In c [long "US" d1 10; long "FR" d1 4] ->
          exists m, In m out /\ merged_key m = long_key c)
    /\ (forall k,
          In k (map merged_key out)
          <-> In k (map long_key [long "US" d1 10; long "FR" d1 4]))
    /\ (forall k,
          In k (map long_key [long "US" d1 1; long "IT" d1 3])
          \/ In k (map long_key [long "DE" d2 2]) ->
          ~ In k (map long_key [long "US" d1 10; long "FR" d1 4]) ->
          ~ In k (map merged_key out)).
Proof.
  apply (merged_keys extra_keys); reflexivity.
Defined.

End MergerFacts.


(* ================================================================= *)
(** ** The Reshaper: [preprocess_data] *)

Module ReshaperFacts.
Import Dict Loader DictFacts.

Lemma key_eqb_eq (a b : key) : key_eqb a b = true <-> a = b.
Proof.
  destruct a as [c d], b as [c' d']. unfold key_eqb; simpl.
  rewrite andb_true_iff, String.eqb_eq, Z.eqb_eq. split.
  - intros [-> ->]. reflexivity.
  - intros [= -> ->]. now split.
Qed.

Lemma key_eqb_refl (a : key) : key_eqb a a = true.
Proof. now apply key_eqb_eq. Qed.

Lemma mapM_app {A B : Type} (f : A -> result B) (l1 l2 : list A)
    (out : list B) :
  mapM f (l1 ++ l2)%list = Ok out ->
  exists o1 o2,
    mapM f l1 = Ok o1 /\ mapM f l2 = Ok o2 /\ out = (o1 ++ o2)%list.
Proof.
  revert out. induction l1 as [|a l1 IH]; simpl; intros out H.
  - now exists [], out.
  - destruct (f a) as [b|e]; simpl in *; [|discriminate].
    destruct (mapM f (l1 ++ l2)%list) as [bs|e]; simpl in *; [|discriminate].
    injection H as <-.
    destruct (IH bs eq_refl) as (o1 & o2 & -> & E2 & ->).
    now exists (b :: o1), o2.
Qed.

Lemma filter_map_swap {A B : Type} (p : B -> bool) (f : A -> B) (l : list A) :
  filter p (map f l) = map f (filter (fun a => p (f a)) l).
Proof.
  induction l as [|a l IH]; simpl; [reflexivity|].
  destruct (p (f a)); simpl; now rewrite IH.
Qed.

Lemma filter_none {A : Type} (p : A -> bool) (l : list A) :
  (forall a, In a l -> p a = false) -> filter p l = [].
Proof.
  induction l as [|a l IH]; simpl; intros H; [reflexivity|].
  rewrite (H a (or_introl eq_refl)). apply IH. intros b Hb. apply H. now right.
Qed.

Lemma filter_all {A : Type} (p : A -> bool) (l : list A) :
  (forall a, In a l -> p a = true) -> filter p l = l.
Proof.
  induction l as [|a l IH]; simpl; intros H; [reflexivity|].
  rewrite (H a (or_introl eq_refl)). f_equal. apply IH.
  intros b Hb. apply H. now right.
Qed.

(** The total of the [Cases] column of a melted table. *)
Definition total (melted : list (MeltedRow datetime)) : Z :=
  csum (map melted_Cases melted).

Lemma total_app (l1 l2 : list (MeltedRow datetime)) :
  total (l1 ++ l2)%list = total l1 + total l2.
Proof. unfold total, csum. now rewrite !map_app, zsum_app. Qed.

Definition mem (k : key) (keys : list key) : bool := existsb (key_eqb k) keys.

Lemma mem_In (k : key) (keys : list key) : mem k keys = true <-> In k keys.
Proof.
  unfold mem. rewrite existsb_exists. split.
  - intros (k' & Hin & E). apply key_eqb_eq in E. now subst.
  - intros Hin. exists k. split; [exact Hin|apply key_eqb_refl].
Qed.

Lemma total_filter_disjoint (p q : MeltedRow datetime -> bool)
    (melted : list (MeltedRow datetime)) :
  (forall r, p r = true -> q r = false) ->
  total (filter (fun r => p r || q r) melted)
  = total (filter p melted) + total (filter q melted).
Proof.
  intros D. induction melted as [|r l IH]; [reflexivity|].
  simpl. destruct (p r) eqn:P; simpl.
  - rewrite (D r P). unfold total, csum in *. simpl. rewrite IH. lia.
  - destruct (q r); unfold total, csum in *; simpl; rewrite IH; lia.
Qed.

(** The rows whose key is one of [keys]. *)
Definition mem_key (keys : list key) (r : MeltedRow datetime) : bool :=
  match melted_key r with
  | Some k => mem k keys
  | None => false
  end.

(** The rows that have a key, of date [d]. *)
Definition on_date (d : Z) (r : MeltedRow datetime) : bool :=
  match melted_key r with
  | Some k => snd k =? d
  | None => false
  end.

(** Summing group by group over distinct keys is summing over the rows
    whose key is one of them. *)
Lemma total_groups (melted : list (MeltedRow datetime)) (keys : list key) :
  NoDup keys ->
  zsum (map (fun k => total (group melted k)) keys)
  = total (filter (mem_key keys) melted).
Proof.
  induction 1 as [|k keys Hk ND IH]; simpl.
  - rewrite filter_none; [reflexivity|].
    intros r _. unfold mem_key. now destruct (melted_key r).
  - rewrite IH.
    rewrite (filter_ext (mem_key (k :: keys))
                        (fun r => has_key k r || mem_key keys r))
      by (intros r; unfold mem_key, has_key; now destruct (melted_key r)).
    symmetry. apply total_filter_disjoint.
    intros r E. unfold has_key, mem_key in *.
    destruct (melted_key r) as [k'|]; [|discriminate E].
    apply key_eqb_eq in E. subst k'.
    destruct (mem k keys) eqn:M; [|reflexivity].
    apply mem_In in M. contradiction.
Qed.

Lemma group_keys_In (melted : list (MeltedRow datetime)) (k : key) :
  In k (group_keys melted) <->
  exists r, In r melted /\ melted_key r = Some k.
Proof.
  assert (F : In k (flat_map (fun r => match melted_key r with
                                       | Some k => [k]
                                       | None => []
                                       end) melted)
              <-> exists r, In r melted /\ melted_key r = Some k).
  { rewrite in_flat_map.
    split; intros (r & Hr & H); exists r; (split; [exact Hr|]).
    - destruct (melted_key r) as [k'|]; [|destruct H].
      destruct H as [->|[]]. reflexivity.
    - rewrite H. now left. }
  rewrite <- F. unfold group_keys. split; intros H.
  - apply (nodup_In key_eq_dec).
    eapply Permutation_in; [symmetry; apply sort_perm|exact H].
  - eapply Permutation_in; [apply sort_perm|].
    now apply (nodup_In key_eq_dec).
Qed.

Lemma group_keys_NoDup (melted : list (MeltedRow datetime)) :
  NoDup (group_keys melted).
Proof.
  unfold group_keys. eapply Permutation_NoDup; [apply sort_perm|].
  apply NoDup_nodup.
Qed.

(** The processed table conserves the total of every date, over the rows
    that have a key. *)
Lemma groupby_total (melted : list (MeltedRow datetime)) (d : Z) :
  zsum (map long_Cases
          (filter (fun o => long_Date o =? d) (groupby_agg melted)))
  = total (filter (on_date d) melted).
Proof.
  unfold groupby_agg. rewrite filter_map_swap, map_map. simpl.
  change (fun x : key => csum (map melted_Cases (group melted x)))
    with (fun k : key => total (group melted k)).
  rewrite total_groups.
  - f_equal. apply filter_ext_in. intros r Hr. unfold mem_key, on_date.
    destruct (melted_key r) as [k|] eqn:K; [|reflexivity].
    destruct (snd k =? d) eqn:E.
    + apply mem_In. apply filter_In. split; [|exact E].
      apply group_keys_In. now exists r.
    + destruct (mem _ _) eqn:M; [|reflexivity].
      apply mem_In, filter_In in M. destruct M as [_ M]. congruence.
  - apply NoDup_filter, group_keys_NoDup.
Qed.

(** *** The raw table, column by column *)

(** The date columns of a raw table, with their positions. *)
Definition columns (df : RawSeriesTable) : list (nat * string) :=
  combine (seq 0 (List.length (date_columns df))) (date_columns df).

(** The cells of the date column at position [j], one per row. *)
Definition cells_at (j : nat) (rows : list RawRow) : list count :=
  map (fun r => nth j (raw_cells r) NaN) rows.

Definition has_country (r : RawRow) : bool :=
  match raw_Country_Region r with
  | Some _ => true
  | None => false
  end.

(** The rows that have a country. *)
Definition named_rows (df : RawSeriesTable) : list RawRow :=
  filter has_country (raw_rows df).

Definition is_country (country : string) (r : RawRow) : bool :=
  match raw_Country_Region r with
  | Some c => String.eqb c country
  | None => false
  end.

(** The rows (sub-locations) of a country, in table order. *)
Definition country_rows (df : RawSeriesTable) (country : string)
  : list RawRow :=
  filter (is_country country) (raw_rows df).

Section Reshape.
Variable to_datetime : string -> option datetime.

(** The sum of the values of date [d] in the rows [rows] of the table: over
    the date columns whose header is that date, the sum of the cells of the
    column. *)
Definition date_total (cols : list (nat * string)) (rows : list RawRow)
    (d : Z) : Z :=
  zsum (map (fun jh : nat * string =>
               match to_datetime (snd jh) with
               | Some (Timestamp d') =>
                   if d' =? d then csum (cells_at (fst jh) rows) else 0
               | _ => 0
               end)
            cols).

(** The sum of the raw values of date [d] of the rows that have a
    country. *)
Definition raw_total (df : RawSeriesTable) (d : Z) : Z :=
  date_total (columns df) (named_rows df) d.

(** The sum of all raw values of date [d], as the specification words it. *)
Definition raw_total_all (df : RawSeriesTable) (d : Z) : Z :=
  date_total (columns df) (raw_rows df) d.

Lemma named_rows_all (df : RawSeriesTable) :
  (forall r, In r (raw_rows df) -> raw_Country_Region r <> None) ->
  named_rows df = raw_rows df.
Proof.
  intros H. apply filter_all. intros r Hr. unfold has_country.
  specialize (H r Hr). now destruct (raw_Country_Region r).
Qed.

Variable df : RawSeriesTable.

Definition column_rows (jh : nat * string) : list (MeltedRow string) :=
  map (fun r =>
         {| melted_Province_State := raw_Province_State r;
            melted_Country_Region := raw_Country_Region r;
            melted_Lat := raw_Lat r;
            melted_Long := raw_Long r;
            melted_Date := snd jh;
            melted_Cases := nth (fst jh) (raw_cells r) NaN |})
      (raw_rows df).

Definition dated_row (j : nat) (d : datetime) (r : RawRow)
  : MeltedRow datetime :=
  {| melted_Province_State := raw_Province_State r;
     melted_Country_Region := raw_Country_Region r;
     melted_Lat := raw_Lat r;
     melted_Long := raw_Long r;
     melted_Date := d;
     melted_Cases := nth j (raw_cells r) NaN |}.

Lemma melt_columns : melt df = flat_map column_rows (columns df).
Proof. reflexivity. Qed.

Lemma convert_column (jh : nat * string) (out : list (MeltedRow datetime)) :
  mapM (convert_date to_datetime) (column_rows jh) = Ok out ->
  (raw_rows df = [] /\ out = [])
  \/ exists d, to_datetime (snd jh) = Some d
               /\ out = map (dated_row (fst jh) d) (raw_rows df).
Proof.
  unfold column_rows. destruct (to_datetime (snd jh)) as [d|] eqn:E.
  - intros H. right. exists d. split; [reflexivity|].
    revert out H. induction (raw_rows df) as [|r rows IH]; simpl; intros out H.
    + now injection H as <-.
    + unfold convert_date in H at 1. simpl in H. rewrite E in H. simpl in H.
      destruct (mapM _ _) as [bs|e]; simpl in H; [|discriminate].
      injection H as <-. f_equal. now apply IH.
  - destruct (raw_rows df) as [|r rows]; simpl; intros H.
    + left. split; [reflexivity|]. now injection H as <-.
    + unfold convert_date in H at 1. simpl in H. rewrite E in H. discriminate.
Qed.

Lemma on_date_dated_row (d : Z) (j : nat) (p : datetime) (r : RawRow) :
  on_date d (dated_row j p r)
  = match p with
    | Timestamp d' => has_country r && (d' =? d)
    | NaT => false
    end.
Proof.
  unfold on_date, melted_key, has_country; simpl.
  destruct (raw_Country_Region r), p; reflexivity.
Qed.

Lemma melted_total (cols : list (nat * string))
    (melted : list (MeltedRow datetime)) (d : Z) :
  mapM (convert_date to_datetime) (flat_map column_rows cols) = Ok melted ->
  total (filter (on_date d) melted) = date_total cols (named_rows df) d.
Proof.
  unfold date_total.
  revert melted. induction cols as [|jh cols IH]; simpl; intros melted H.
  - now injection H as <-.
  - apply mapM_app in H. destruct H as (o1 & o2 & H1 & H2 & ->).
    rewrite filter_app, total_app, (IH _ H2). f_equal.
    apply convert_column in H1. unfold cells_at, named_rows.
    destruct H1 as [[E ->]|(p & E & ->)].
    + rewrite E. simpl.
      destruct (to_datetime (snd jh)) as [[d'|]|]; try reflexivity.
      now destruct (d' =? d).
    + rewrite E, filter_map_swap.
      rewrite (filter_ext _ _ (on_date_dated_row d (fst jh) p)).
      destruct p as [d'|]; [destruct (d' =? d) eqn:D|].
      * rewrite (filter_ext _ has_country)
          by (intros r; apply andb_true_r).
        unfold total. now rewrite map_map.
      * rewrite filter_none; [reflexivity|]. intros r _. apply andb_false_r.
      * now rewrite filter_none.
Qed.

Lemma has_key_dated_row (k : key) (j : nat) (p : datetime) (r : RawRow) :
  has_key k (dated_row j p r)
  = match p with
    | Timestamp d' => is_country (fst k) r && (d' =? snd k)
    | NaT => false
    end.
Proof.
  unfold has_key, melted_key, is_country, key_eqb; simpl.
  destruct (raw_Country_Region r), p; reflexivity.
Qed.

(** *** First latitude and longitude of a group *)

Lemma fnotna_false (a : fval) : fnotna a = false -> a = FNaN.
Proof. now destruct a. Qed.

Lemma first_notna_app (l1 l2 : list fval) :
  first_notna (l1 ++ l2)%list
  = if fnotna (first_notna l1) then first_notna l1 else first_notna l2.
Proof.
  induction l1 as [|a l1 IH]; simpl; [reflexivity|].
  destruct (fnotna a) eqn:E; [now rewrite E|exact IH].
Qed.

Section Field.
Variable fm : MeltedRow datetime -> fval.
Variable fr : RawRow -> fval.
Hypothesis field_dated : forall j d r, fm (dated_row j d r) = fr r.

Lemma group_field (cols : list (nat * string))
    (melted : list (MeltedRow datetime)) (k : key) :
  mapM (convert_date to_datetime) (flat_map column_rows cols) = Ok melted ->
  group melted k = []
  \/ first_notna (map fm (group melted k))
     = first_notna (map fr (country_rows df (fst k))).
Proof.
  revert melted. induction cols as [|jh cols IH]; simpl; intros melted H.
  - injection H as <-. now left.
  - apply mapM_app in H. destruct H as (o1 & o2 & H1 & H2 & ->).
    specialize (IH _ H2). unfold group in *. rewrite filter_app.
    apply convert_column in H1.
    destruct H1 as [[E ->]|(p & E & ->)]; [exact IH|].
    rewrite filter_map_swap.
    rewrite (filter_ext _ _ (has_key_dated_row k (fst jh) p)).
    destruct p as [d'|]; [|now rewrite filter_none].
    destruct (d' =? snd k) eqn:D.
    + rewrite (filter_ext _ (is_country (fst k)))
        by (intros r; apply andb_true_r).
      fold (country_rows df (fst k)).
      destruct (country_rows df (fst k)) as [|r0 R] eqn:ER; [exact IH|].
      right. rewrite map_app, map_map.
      rewrite (map_ext _ fr) by (intros r; apply field_dated).
      rewrite first_notna_app.
      destruct (fnotna (first_notna (map fr (r0 :: R)))) eqn:F;
        [reflexivity|].
      destruct IH as [-> | ->]; [|reflexivity].
      simpl map at 1. simpl first_notna at 1.
      symmetry. now apply fnotna_false.
    + rewrite filter_none; [exact IH|]. intros r _. apply andb_false_r.
Qed.

Lemma aggregate_field (melted : list (MeltedRow datetime)) (k : key) :
  mapM (convert_date to_datetime) (melt df) = Ok melted ->
  In k (group_keys melted) ->
  first_notna (map fm (group melted k))
  = first_notna (map fr (country_rows df (fst k))).
Proof.
  intros H Hk. rewrite melt_columns in H.
  destruct (group_field _ _ k H) as [E|E]; [|exact E].
  apply group_keys_In in Hk. destruct Hk as (r & Hr & Kr).
  assert (Hin : In r (group melted k)).
  { apply filter_In. split; [exact Hr|].
    unfold has_key. rewrite Kr. apply key_eqb_refl. }
  rewrite E in Hin. destruct Hin.
Qed.
End Field.

(** What [preprocess_data] makes of one table. *)
Lemma preprocess_frame_spec (out : list LongRecord) :
  preprocess_frame to_datetime df = Ok out ->
  (forall d,
      zsum (map long_Cases (filter (fun o => long_Date o =? d) out))
      = raw_total df d)
  /\ (forall o, In o out ->
        long_Lat o
        = first_notna (map raw_Lat (country_rows df (long_Country_Region o)))
        /\ long_Long o
           = first_notna
               (map raw_Long (country_rows df (long_Country_Region o)))).
Proof.
  unfold preprocess_frame.
  destruct (mapM (convert_date to_datetime) (melt df)) as [melted|e] eqn:H;
    simpl; [|discriminate].
  intros [= <-]. split.
  - intros d. rewrite groupby_total. unfold raw_total. apply melted_total.
    now rewrite <- melt_columns.
  - intros o Ho. apply in_map_iff in Ho. destruct Ho as (k & <- & Hk).
    simpl. split.
    + now apply (aggregate_field melted_Lat raw_Lat).
    + now apply (aggregate_field melted_Long raw_Long).
Qed.

Lemma mapM_total {A B : Type} (f : A -> result B) (l : list A) :
  (forall a, In a l -> exists b, f a = Ok b) -> exists bs, mapM f l = Ok bs.
Proof.
  induction l as [|a l IH]; simpl; intros H; [now exists []|].
  destruct (H a (or_introl eq_refl)) as [b ->].
  destruct IH as [bs ->]; [intros x Hx; apply H; now right|].
  now exists (b :: bs).
Qed.

(** A table whose date headers all parse is processed without raising. *)
Lemma preprocess_frame_total :
  (forall h, In h (date_columns df) -> to_datetime h <> None) ->
  exists out, preprocess_frame to_datetime df = Ok out.
Proof.
  intros Hp. unfold preprocess_frame.
  destruct (mapM_total (convert_date to_datetime) (melt df)) as [melted ->].
  - intros r Hr. rewrite melt_columns in Hr. apply in_flat_map in Hr.
    destruct Hr as ([j h] & Hjh & Hr). apply in_combine_r in Hjh.
    apply in_map_iff in Hr. destruct Hr as (x & <- & _).
    unfold convert_date. simpl.
    destruct (to_datetime h) eqn:E; [eauto|]. now apply Hp in Hjh.
  - simpl. eauto.
Qed.
End Reshape.

(** *** The dictionary of processed tables *)

Lemma get_notin {V : Type} (k : string) (d : dict V) :
  ~ In k (map fst d) -> get k d = None.
Proof.
  induction d as [|[k' v] d IH]; simpl; intros H; [reflexivity|].
  destruct (String.eqb k k') eqn:E.
  - apply String.eqb_eq in E. subst. exfalso. apply H. now left.
  - apply IH. intros Hin. apply H. now right.
Qed.

Lemma preprocess_loop_get (to_datetime : string -> option datetime)
    (items : list (string * RawSeriesTable))
    (acc processed : dict (list LongRecord)) :
  NoDup (map fst items) ->
  preprocess_loop to_datetime items acc = Ok processed ->
  forall k,
    match get k items with
    | Some df =>
        exists out,
          preprocess_frame to_datetime df = Ok out /\ get k processed = Some out
    | None => get k processed = get k acc
    end.
Proof.
  revert acc. induction items as [|[t df] items IH]; simpl; intros acc ND H k.
  - now injection H as <-.
  - destruct (preprocess_frame to_datetime df) as [cd|e] eqn:F; simpl in H;
      [|discriminate].
    inversion ND as [|? ? Hnotin ND']; subst.
    specialize (IH _ ND' H k).
    destruct (String.eqb k t) eqn:E.
    + apply String.eqb_eq in E. subst k.
      rewrite (get_notin _ _ Hnotin) in IH. rewrite IH, get_set_same.
      now exists cd.
    + destruct (get k items); [exact IH|].
      rewrite IH. apply get_set_other.
      intros ->. now rewrite String.eqb_refl in E.
Qed.

Lemma preprocess_loop_total (to_datetime : string -> option datetime)
    (items : list (string * RawSeriesTable)) (acc : dict (list LongRecord)) :
  (forall t df h, In (t, df) items -> In h (date_columns df) ->
                  to_datetime h <> None) ->
  exists processed, preprocess_loop to_datetime items acc = Ok processed.
Proof.
  revert acc. induction items as [|[t df] items IH]; simpl; intros acc Hp.
  - now exists acc.
  - destruct (preprocess_frame_total to_datetime df) as [out ->].
    + intros h Hh. apply (Hp t df h); [now left|exact Hh].
    + simpl. apply IH. intros t' df' h Hin. apply (Hp t' df' h). now right.
Qed.

(** The claim on the coordinates as the specification words it: those of
    the first row of the country. *)
Definition first_row_coordinates (df : RawSeriesTable)
    (out : list LongRecord) : Prop :=
  forall o, In o out ->
    exists r,
      hd_error (country_rows df (long_Country_Region o)) = Some r
      /\ long_Lat o = raw_Lat r /\ long_Long o = raw_Long r.

(** A stand-in for [pd.to_datetime] on the two headers of the examples. *)
Definition parse_header (h : string) : option datetime :=
  if String.eqb h "1/22/20" then Some (Timestamp 18283)
  else if String.eqb h "1/23/20" then Some (Timestamp 18284)
  else if String.eqb h "NaT" then Some NaT
  else None.

Definition sample_table : RawSeriesTable :=
  {| date_columns := ["1/22/20"; "1/23/20"];
     raw_rows :=
       [ {| raw_Province_State := Some "Unknown";
            raw_Country_Region := Some "China";
            raw_Lat := FNaN;
            raw_Long := FNaN;
            raw_cells := [Num 1; Num 2] |};
         {| raw_Province_State := Some "Hubei";
            raw_Country_Region := Some "China";
            raw_Lat := FNum (3097 # 100);
            raw_Long := FNum (11227 # 100);
            raw_cells := [Num 444; Num 444] |};
         {| raw_Province_State := None;
            raw_Country_Region := Some "Italy";
            raw_Lat := FNum 43;
            raw_Long := FNum 12;
            raw_cells := [Num 0; NaN] |} ] |}.

(** The claim on the totals as the specification words it: the processed
    values of a date sum to all the raw values of the date. *)
Definition conserves_all_totals (to_datetime : string -> option datetime)
    (df : RawSeriesTable) (out : list LongRecord) : Prop :=
  forall d,
    zsum (map long_Cases (filter (fun o => long_Date o =? d) out))
    = raw_total_all to_datetime df d.

(** A table with a row whose country is blank, and a column whose header
    is read as a missing date. *)
Definition unnamed_table : RawSeriesTable :=
  {| date_columns := ["1/22/20"; "NaT"];
     raw_rows :=
       [ {| raw_Province_State := Some "Diamond Princess";
            raw_Country_Region := None;
            raw_Lat := FNum 35;
            raw_Long := FNum 139;
            raw_cells := [Num 1; Num 4] |};
         {| raw_Province_State := None;
            raw_Country_Region := Some "Italy";
            raw_Lat := FNum 43;
            raw_Long := FNum 12;
            raw_cells := [Num 2; Num 7] |} ] |}.

(** C5, as stated, fails in two places.  On the coordinates: where the
    first row of a country has no latitude, the processed row takes the
    latitude of a later row of the country, not the missing one of the first.
    On the totals: a row whose country is blank belongs to no group, and its
    values are lost (raw total 3, processed total 2). *)
Lemma reshape_counterexample :
  (exists out,
      preprocess_frame parse_header sample_table = Ok out
      /\ ~ first_row_coordinates sample_table out)
  /\ (exists out,
         preprocess_frame parse_header unnamed_table = Ok out
         /\ ~ conserves_all_totals parse_header unnamed_table out).
Proof.
  split.
  - eexists. split; [vm_compute; reflexivity|].
    intros H. destruct (H _ (or_introl eq_refl)) as (r & Hr & Hlat & _).
    vm_compute in Hr. injection Hr as <-. discriminate Hlat.
  - eexists. split; [vm_compute; reflexivity|].
    intros H. specialize (H 18283). vm_compute in H. discriminate H.
Qed.

(** C5, amended: for every table of the dictionary and every date, the
    processed values of that date sum to the raw values of that date in the
    rows that have a country (missing cells counting for nothing), which are
    all the raw values of that date when every row has a country; the
    latitude of a processed row is the first latitude that is not missing
    among the rows of its country, in table order, and so is the longitude:
    those of the first row of the country where that row has them. *)
Theorem reshape_conserves_totals (to_datetime : string -> option datetime)
    (data : dict RawSeriesTable) (processed : dict (list LongRecord)) :
  NoDup (map fst data) ->
  preprocess_data to_datetime data = Ok processed ->
  forall data_type df,
    get data_type data = Some df ->
    exists out,
      get data_type processed = Some out
      /\ (forall d,
            zsum (map long_Cases (filter (fun o => long_Date o =? d) out))
            = raw_total to_datetime df d)
      /\ ((forall r, In r (raw_rows df) -> raw_Country_Region r <> None) ->
          conserves_all_totals to_datetime df out)
      /\ (forall o, In o out ->
            let rows := country_rows df (long_Country_Region o) in
            long_Lat o = first_notna (map raw_Lat rows)
            /\ long_Long o = first_notna (map raw_Long rows)
            /\ forall r, hd_error rows = Some r ->
                 (fnotna (raw_Lat r) = true -> long_Lat o = raw_Lat r)
                 /\ (fnotna (raw_Long r) = true -> long_Long o = raw_Long r)).
Proof.
  intros ND H data_type df Hget.
  pose proof (preprocess_loop_get _ _ _ _ ND H data_type) as G.
  rewrite Hget in G. destruct G as (out & F & G).
  exists out. split; [exact G|].
  destruct (preprocess_frame_spec _ _ _ F) as [T C].
  split; [exact T|]. split.
  { intros Hn d. rewrite T. unfold raw_total, raw_total_all.
    now rewrite named_rows_all. }
  intros o Ho rows. destruct (C o Ho) as [CLat CLong].
  fold rows in CLat, CLong. split; [exact CLat|]. split; [exact CLong|].
  intros r Hr. destruct rows as [|r' rows']; [discriminate|].
  injection Hr as ->. simpl in CLat, CLong.
  split; intros E; rewrite E in *; assumption.
Qed.

Definition sample_data : dict RawSeriesTable :=
  [("confirmed", sample_table); ("recovered", sample_table)].

Definition sample_processed : dict (list LongRecord) :=
  Eval vm_compute in
    match preprocess_data parse_header sample_data with
    | Ok processed => processed
    | Raise _ => []
    end.

Definition unnamed_data : dict RawSeriesTable :=
  [("confirmed", sample_table); ("recovered", unnamed_table)].

Definition unnamed_processed : dict (list LongRecord) :=
  Eval vm_compute in
    match preprocess_data parse_header unnamed_data with
    | Ok processed => processed
    | Raise _ => []
    end.

Lemma reshape_conserves_totals_witness :
  exists out,
    get "recovered" unnamed_processed = Some out
    /\ (forall d,
          zsum (map long_Cases (filter (fun o => long_Date o =? d) out))
          = raw_total parse_header unnamed_table d)
    /\ ((forall r, In r (raw_rows unnamed_table) ->
                   raw_Country_Region r <> None) ->
        conserves_all_totals parse_header unnamed_table out)
    /\ (forall o, In o out ->
          let rows := country_rows unnamed_table (long_Country_Region o) in
          long_Lat o = first_notna (map raw_Lat rows)
          /\ long_Long o = first_notna (map raw_Long rows)
          /\ forall r, hd_error rows = Some r ->
               (fnotna (raw_Lat r) = true -> long_Lat o = raw_Lat r)
               /\ (fnotna (raw_Long r) = true -> long_Long o = raw_Long r)).
Proof.
  apply (reshape_conserves_totals parse_header unnamed_data unnamed_processed).
  - repeat constructor; simpl; intuition discriminate.
  - vm_compute. reflexivity.
  - reflexivity.
Defined.

End ReshaperFacts.


(* ================================================================= *)
(** ** Missing input files: [load_data] and what follows it *)

Module LoadFacts.
Import Dict Loader DictFacts ReshaperFacts.

(** The files of the directory that [load_data] takes for a metric. *)
Definition files_of (listdir : list string) (data_type : string)
  : list string :=
  filter (String.prefix (data_type ++ "_time_series")) listdir.

Section Load.
Variable listdir : list string.
Variable read_csv : string -> RawSeriesTable.

Lemma load_data_get (data_type : string) :
  In data_type metrics ->
  get data_type (load_data listdir read_csv)
  = match files_of listdir data_type with
    | file0 :: _ => Some (read_csv file0)
    | [] => None
    end.
Proof.
  unfold load_data, metrics, files_of.
  intros [<-|[<-|[<-|[]]]]; simpl;
    destruct (filter (String.prefix "confirmed_time_series") listdir);
    destruct (filter (String.prefix "deaths_time_series") listdir);
    destruct (filter (String.prefix "recovered_time_series") listdir);
    reflexivity.
Qed.

Lemma load_data_keys :
  NoDup (map fst (load_data listdir read_csv))
  /\ forall k, In k (map fst (load_data listdir read_csv)) -> In k metrics.
Proof.
  unfold load_data, metrics. simpl.
  destruct (filter (String.prefix "confirmed_time_series") listdir);
    destruct (filter (String.prefix "deaths_time_series") listdir);
    destruct (filter (String.prefix "recovered_time_series") listdir);
    simpl; (split; [repeat constructor; simpl; intuition discriminate
                   | intuition auto]).
Qed.

Lemma load_data_values (data_type : string) (df : RawSeriesTable) :
  In (data_type, df) (load_data listdir read_csv) ->
  exists file, In file listdir /\ df = read_csv file.
Proof.
  assert (F : forall t f fs, files_of listdir t = f :: fs -> In f listdir).
  { intros t f fs E.
    assert (Hin : In f (files_of listdir t)) by (rewrite E; now left).
    now apply filter_In in Hin. }
  unfold load_data, metrics. simpl.
  change (filter (String.prefix "confirmed_time_series") listdir)
    with (files_of listdir "confirmed").
  change (filter (String.prefix "deaths_time_series") listdir)
    with (files_of listdir "deaths").
  change (filter (String.prefix "recovered_time_series") listdir)
    with (files_of listdir "recovered").
  destruct (files_of listdir "confirmed") as [|f1 ?] eqn:E1;
    destruct (files_of listdir "deaths") as [|f2 ?] eqn:E2;
    destruct (files_of listdir "recovered") as [|f3 ?] eqn:E3;
    simpl; intros H;
    repeat (destruct H as [H|H];
            [injection H as <- <-; eexists; split; [|reflexivity]; eauto|]);
    destruct H.
Qed.
End Load.

Lemma get_merged_data_missing (processed_data : dict (list LongRecord))
    (data_type : string) :
  In data_type metrics ->
  get data_type processed_data = None ->
  exists k,
    get_merged_data processed_data = Raise (KeyError k)
    /\ get k processed_data = None.
Proof.
  intros Hm Hnone. unfold get_merged_data, getitem.
  destruct (get "confirmed" processed_data) eqn:E1; simpl;
    [|now exists "confirmed"].
  destruct (get "deaths" processed_data) eqn:E2; simpl;
    [|now exists "deaths"].
  destruct (get "recovered" processed_data) eqn:E3; simpl;
    [|now exists "recovered"].
  destruct Hm as [<-|[<-|[<-|[]]]]; congruence.
Qed.

Definition two_files : list string :=
  ["confirmed_time_series_covid19_confirmed_global.csv";
   "recovered_time_series_covid19_recovered_global.csv"].

(** C9, as stated, fails: with no file for deaths, the deaths table is
    left out by [load_data] and by [preprocess_data], and [get_merged_data]
    then raises KeyError instead of merging what there is. *)
Lemma partial_data_counterexample :
  get "deaths" (load_data two_files (fun _ => sample_table)) = None
  /\ exists processed,
       preprocess_data parse_header (load_data two_files (fun _ => sample_table))
       = Ok processed
       /\ get_merged_data processed = Raise (KeyError "deaths")
       /\ ~ (exists merged, get_merged_data processed = Ok merged).
Proof.
  split; [reflexivity|]. eexists. split; [vm_compute; reflexivity|].
  split; [reflexivity|]. intros [merged H]. discriminate H.
Qed.

(** C9, amended: when the directory has no file for a metric, [load_data]
    leaves the metric out of the mapping and loads the metrics that have a
    file; [preprocess_data] (the date headers being dates) processes the
    tables that are there and leaves the metric out too; [get_merged_data]
    does not proceed on partial data: it needs the three tables and raises
    KeyError on a missing one. *)
Theorem missing_metric (listdir : list string)
    (read_csv : string -> RawSeriesTable) (to_datetime : string -> option datetime)
    (data_type : string) :
  In data_type metrics ->
  files_of listdir data_type = [] ->
  (forall file h, In file listdir -> In h (date_columns (read_csv file)) ->
                  to_datetime h <> None) ->
  let data := load_data listdir read_csv in
  get data_type data = None
  /\ (forall t file files,
        In t metrics -> files_of listdir t = file :: files ->
        get t data = Some (read_csv file))
  /\ exists processed,
       preprocess_data to_datetime data = Ok processed
       /\ get data_type processed = None
       /\ (forall t df,
             get t data = Some df ->
             exists out,
               preprocess_frame to_datetime df = Ok out
               /\ get t processed = Some out)
       /\ exists k,
            get_merged_data processed = Raise (KeyError k)
            /\ get k processed = None.
Proof.
  intros Hm Hfiles Hparse data.
  assert (Hnone : get data_type data = None).
  { unfold data. rewrite load_data_get by exact Hm. now rewrite Hfiles. }
  split; [exact Hnone|]. split.
  { intros t file files Ht E. unfold data.
    rewrite load_data_get by exact Ht. now rewrite E. }
  destruct (preprocess_loop_total to_datetime data []) as [processed P].
  { intros t df h Hin Hh. apply load_data_values in Hin.
    destruct Hin as (file & Hfile & ->). now apply (Hparse file). }
  exists processed. split; [exact P|].
  pose proof (preprocess_loop_get to_datetime data [] processed
                (proj1 (load_data_keys listdir read_csv)) P) as G.
  assert (Hp : get data_type processed = None).
  { specialize (G data_type). now rewrite Hnone in G. }
  split; [exact Hp|]. split.
  - intros t df Ht. specialize (G t). now rewrite Ht in G.
  - now apply (get_merged_data_missing processed data_type).
Qed.

Lemma missing_metric_witness :
  let data := load_data two_files (fun _ => sample_table) in
  get "deaths" data = None
  /\ (forall t file files,
        In t metrics -> files_of two_files t = file :: files ->
        get t data = Some sample_table)
  /\ exists processed,
       preprocess_data parse_header data = Ok processed
       /\ get "deaths" processed = None
       /\ (forall t df,
             get t data = Some df ->
             exists out,
               preprocess_frame parse_header df = Ok out
               /\ get t processed = Some out)
       /\ exists k,
            get_merged_data processed = Raise (KeyError k)
            /\ get k processed = None.
Proof.
  apply (missing_metric two_files (fun _ => sample_table) parse_header "deaths").
  - simpl. auto.
  - reflexivity.
  - intros file h _ Hh. simpl in Hh.
    destruct Hh as [<-|[<-|[]]]; discriminate.
Defined.

End LoadFacts.


(* ================================================================= *)
(** ** The Analyzer: rankings and country series *)

Module QueryFacts.
Import Dict Loader Analysis.

Lemma Sorted_weaken {A : Type} (P Q : A -> A -> Prop) (l : list A) :
  (forall a b, P a b -> Q a b) -> Sorted P l -> Sorted Q l.
Proof.
  intros PQ. induction 1 as [|a l HS IH HR]; constructor; [exact IH|].
  destruct HR; constructor. now apply PQ.
Qed.

Lemma date_leb_total (a b : Row) : date_leb a b = false -> date_leb b a = true.
Proof. unfold date_leb. rewrite Z.leb_gt, Z.leb_le. lia. Qed.

Lemma confirmed_geb_total (a b : Row) :
  confirmed_geb a b = false -> confirmed_geb b a = true.
Proof. unfold confirmed_geb. rewrite Z.leb_gt, Z.leb_le. lia. Qed.

(** C8: [get_country_time_series] returns the rows of the country, all of
    them and no other, in increasing order of date; for a country that the
    table does not have it returns the empty table (nothing is raised: the
    function is total). *)
Theorem country_time_series (data : DataFrame) (country_name : string) :
  let out := get_country_time_series data country_name in
  Permutation
    (filter (fun r : Row => String.eqb (Country_Region r) country_name) data)
    out
  /\ (forall r, In r out <-> In r data /\ Country_Region r = country_name)
  /\ Sorted (fun a b : Row => Date a <= Date b) out
  /\ ((forall r, In r data -> Country_Region r <> country_name) -> out = []).
Proof.
  unfold get_country_time_series, sort_values_Date.
  set (rows := filter _ data).
  assert (P : Permutation rows (sort date_leb rows)) by apply sort_perm.
  split; [exact P|]. split; [|split].
  - intros r. split.
    + intros H. apply (Permutation_in _ (Permutation_sym P)) in H.
      apply filter_In in H. now rewrite String.eqb_eq in H.
    + intros [H E]. apply (Permutation_in _ P). apply filter_In.
      now rewrite String.eqb_eq.
  - apply (Sorted_weaken (le date_leb)).
    + intros a b H. now apply Z.leb_le.
    + apply sort_sorted, date_leb_total.
  - intros H. replace rows with (@nil Row); [reflexivity|].
    symmetry. apply ReshaperFacts.filter_none. intros r Hr.
    apply String.eqb_neq. now apply H.
Qed.

Definition row (country : string) (date confirmed deaths : Z) : Row :=
  {| base := {| Country_Region := country;
                Date := date;
                Confirmed := confirmed;
                Lat := FNum 0;
                Long := FNum 0;
                Deaths := Num deaths;
                Recovered := Num 0;
                Active := Num (confirmed - deaths);
                Death_Rate := FNum 0;
                Recovery_Rate := FNum 0 |};
     extra := [] |}.

Definition two_countries : DataFrame :=
  [row "FR" 18284 12 1; row "US" 18284 30 2; row "US" 18283 10 0;
   row "FR" 18283 5 0; row "US" 18285 70 3].

Lemma country_time_series_witness :
  let out := get_country_time_series two_countries "IT" in
  Permutation
    (filter (fun r : Row => String.eqb (Country_Region r) "IT") two_countries)
    out
  /\ (forall r, In r out <-> In r two_countries /\ Country_Region r = "IT")
  /\ Sorted (fun a b : Row => Date a <= Date b) out
  /\ ((forall r, In r two_countries -> Country_Region r <> "IT") -> out = []).
Proof. apply (country_time_series two_countries "IT"). Defined.

(** *** The latest date *)

Lemma fold_max_spec (l : list Z) (x : Z) :
  let m := fold_left Z.max l x in
  x <= m /\ (forall y, In y l -> y <= m) /\ (m = x \/ In m l).
Proof.
  revert x. induction l as [|a l IH]; simpl; intros x.
  - split; [lia|]. split; [intros y []|now left].
  - destruct (IH (Z.max x a)) as (H1 & H2 & H3). split; [lia|]. split.
    + intros y [<-|Hy]; [lia|now apply H2].
    + destruct H3 as [H3|H3]; [|now right; right].
      destruct (Z.max_spec x a) as [[_ E]|[_ E]]; rewrite H3;
        [right; left; now symmetry|now left].
Qed.

Lemma max_date_spec (data : DataFrame) (m : Z) :
  max_date data = Some m ->
  (forall r : Row, In r data -> Date r <= m)
  /\ exists r : Row, In r data /\ Date r = m.
Proof.
  destruct data as [|r0 data]; simpl; [discriminate|]. intros [= <-].
  destruct (fold_max_spec (map (fun x : Row => Date x) data) (Date r0))
    as (H1 & H2 & H3).
  split.
  - intros r [<-|Hr]; [exact H1|]. apply H2.
    now apply (in_map (fun x : Row => Date x)).
  - destruct H3 as [H3|H3].
    + exists r0. split; [now left|now symmetry].
    + apply in_map_iff in H3. destruct H3 as (r & E & Hr).
      exists r. split; [now right|exact E].
Qed.

(** *** Rankings without ties *)

Lemma confirmed_geb_trans : Relations_1.Transitive (le confirmed_geb).
Proof.
  intros a b c. unfold le, confirmed_geb. rewrite !Z.leb_le. lia.
Qed.

(** A table ranked by [nlargest] whose values are all different is ranked
    in one way only. *)
Lemma ranking_unique (l1 l2 : DataFrame) :
  StronglySorted (le confirmed_geb) l1 ->
  StronglySorted (fun a b : Row => Confirmed b < Confirmed a) l2 ->
  Permutation l1 l2 ->
  l1 = l2.
Proof.
  intros S1. revert l2. induction S1 as [|x l1 S1 IH F1]; intros l2 S2 P.
  - apply Permutation_nil in P. now subst.
  - destruct l2 as [|y l2].
    + apply Permutation_sym, Permutation_nil in P. discriminate.
    + inversion S2 as [|? ? S2' F2]; subst.
      assert (E : x = y).
      { assert (Hx : In x (y :: l2))
          by (apply (Permutation_in _ P); now left).
        assert (Hy : In y (x :: l1))
          by (apply (Permutation_in _ (Permutation_sym P)); now left).
        destruct Hx as [Hx|Hx]; [now symmetry|].
        destruct Hy as [Hy|Hy]; [exact Hy|].
        rewrite Forall_forall in F1, F2.
        specialize (F1 y Hy). specialize (F2 x Hx).
        unfold le, confirmed_geb in F1. apply Z.leb_le in F1. lia. }
      subst y. f_equal. apply IH; [exact S2'|].
      now apply Permutation_cons_inv in P.
Qed.

Lemma nlargest_unique (n : nat) (df ranked : DataFrame) :
  StronglySorted (fun a b : Row => Confirmed b < Confirmed a) ranked ->
  Permutation df ranked ->
  nlargest_Confirmed n df = firstn n ranked.
Proof.
  intros S P. unfold nlargest_Confirmed. f_equal.
  apply ranking_unique; [|exact S|].
  - apply Sorted_StronglySorted; [exact confirmed_geb_trans|].
    apply sort_sorted, confirmed_geb_total.
  - rewrite <- P. symmetry. apply sort_perm.
Qed.

(** C7: on a table whose rows of the latest date are those of the
    countries A to F, with 1000, 500, 2000, 300, 100 and 50 confirmed cases,
    in any order and among rows of earlier dates,
    [get_top_countries_by_cases] with n = 5 and no date returns the rows of
    C, A, B, D and E, in this order; the date it takes is the greatest date
    of the table. *)
Theorem top_five_example (data : DataFrame) (latest : Z) (a b c d e f : Row) :
  (forall r : Row, In r data -> Date r <= latest) ->
  Permutation (filter (fun r : Row => Date r =? latest) data)
              [a; b; c; d; e; f] ->
  Country_Region a = "A" -> Confirmed a = 1000 ->
  Country_Region b = "B" -> Confirmed b = 500 ->
  Country_Region c = "C" -> Confirmed c = 2000 ->
  Country_Region d = "D" -> Confirmed d = 300 ->
  Country_Region e = "E" -> Confirmed e = 100 ->
  Country_Region f = "F" -> Confirmed f = 50 ->
  max_date data = Some latest
  /\ get_top_countries_by_cases data 5 None
     = map top_columns [c; a; b; d; e]
  /\ map top_Country_Region (get_top_countries_by_cases data 5 None)
     = ["C"; "A"; "B"; "D"; "E"]
  /\ map top_Confirmed (get_top_countries_by_cases data 5 None)
     = [2000; 1000; 500; 300; 100].
Proof.
  intros Hle P Na Ca Nb Cb Nc Cc Nd Cd Ne Ce Nf Cf.
  assert (Ha : In a data /\ Date a = latest).
  { assert (H : In a (filter (fun r : Row => Date r =? latest) data))
      by (apply (Permutation_in _ (Permutation_sym P)); now left).
    apply filter_In in H. now rewrite Z.eqb_eq in H. }
  assert (M : max_date data = Some latest).
  { destruct (max_date data) as [m|] eqn:E.
    - destruct (max_date_spec _ _ E) as (U & r & Hr & Er).
      f_equal. pose proof (Hle r Hr). pose proof (U a (proj1 Ha)).
      destruct Ha. lia.
    - destruct data; [destruct (proj1 Ha)|discriminate]. }
  assert (T : get_top_countries_by_cases data 5 None
              = map top_columns [c; a; b; d; e]).
  { unfold get_top_countries_by_cases. rewrite M. f_equal.
    change (filter (date_is (Some latest)) data)
      with (filter (fun r : Row => Date r =? latest) data).
    rewrite (nlargest_unique 5 _ [c; a; b; d; e; f]); [reflexivity| |].
    - repeat (constructor; [|repeat constructor; lia]). constructor.
    - rewrite P. symmetry.
      exact (Permutation_middle [a; b] [d; e; f] c). }
  split; [exact M|]. split; [exact T|]. rewrite T. simpl.
  rewrite Na, Nb, Nc, Nd, Ne, Ca, Cb, Cc, Cd, Ce. now split.
Qed.

(** Permutations of explicit tables: each row of the left table is looked
    up in the right one. *)
Ltac perm_rows :=
  repeat match goal with
    | |- Permutation [] [] => apply perm_nil
    | |- Permutation (?x :: ?l) ?l' =>
        let rec split_at pre l' :=
          lazymatch l' with
          | x :: ?post => apply (Permutation_cons_app pre post x); simpl
          | ?y :: ?post => split_at constr:((pre ++ [y])%list) post
          end in
        split_at constr:(@nil Row) l'
    end.

Definition six_countries : DataFrame :=
  [row "A" 18283 900 10; row "F" 18284 50 1; row "B" 18284 500 7;
   row "C" 18283 1500 40; row "A" 18284 1000 12; row "E" 18284 100 0;
   row "G" 18283 5000 90; row "D" 18284 300 2; row "C" 18284 2000 55].

Lemma top_five_example_witness :
  max_date six_countries = Some 18284
  /\ get_top_countries_by_cases six_countries 5 None
     = map top_columns
         [row "C" 18284 2000 55; row "A" 18284 1000 12; row "B" 18284 500 7;
          row "D" 18284 300 2; row "E" 18284 100 0]
  /\ map top_Country_Region (get_top_countries_by_cases six_countries 5 None)
     = ["C"; "A"; "B"; "D"; "E"]
  /\ map top_Confirmed (get_top_countries_by_cases six_countries 5 None)
     = [2000; 1000; 500; 300; 100].
Proof.
  apply (top_five_example six_countries 18284
           (row "A" 18284 1000 12) (row "B" 18284 500 7)
           (row "C" 18284 2000 55) (row "D" 18284 300 2)
           (row "E" 18284 100 0) (row "F" 18284 50 1));
    try reflexivity.
  - intros r Hr. simpl in Hr.
    repeat (destruct Hr as [<-|Hr]; [simpl; lia|]). destruct Hr.
  - simpl. perm_rows.
Defined.

End QueryFacts.


(* ================================================================= *)
(** ** The Analyzer: [calculate_growth_rates] *)

Module GrowthFacts.
Import Dict Loader Analysis DictFacts.

(** *** Assigning and reading columns *)

Lemma assign_length (name : string) (col : list fval) (df : DataFrame) :
  List.length (assign name col df) = List.length df.
Proof.
  revert col. induction df as [|r df IH]; intros col; [reflexivity|].
  destruct col; simpl; now rewrite IH.
Qed.

Lemma assign_base (name : string) (col : list fval) (df : DataFrame) :
  map base (assign name col df) = map base df.
Proof.
  revert col. induction df as [|r df IH]; intros col; [reflexivity|].
  destruct col; simpl; now rewrite IH.
Qed.

Lemma column_Confirmed_base (df df' : DataFrame) :
  map base df = map base df' -> column_Confirmed df = column_Confirmed df'.
Proof.
  intros E. unfold column_Confirmed.
  transitivity (map (fun m : MergedRecord => Num (Confirmed m)) (map base df));
    [now rewrite map_map|].
  rewrite E. now rewrite map_map.
Qed.

Lemma column_Deaths_base (df df' : DataFrame) :
  map base df = map base df' -> column_Deaths df = column_Deaths df'.
Proof.
  intros E. unfold column_Deaths.
  transitivity (map (fun m : MergedRecord => Deaths m) (map base df));
    [now rewrite map_map|].
  rewrite E. now rewrite map_map.
Qed.

Lemma column_Confirmed_assign name col df :
  column_Confirmed (assign name col df) = column_Confirmed df.
Proof. apply column_Confirmed_base, assign_base. Qed.

Lemma column_Deaths_assign name col df :
  column_Deaths (assign name col df) = column_Deaths df.
Proof. apply column_Deaths_base, assign_base. Qed.

Lemma column_assign_same (name : string) (col : list fval) (df : DataFrame) :
  List.length col = List.length df ->
  column name (assign name col df) = Ok col.
Proof.
  revert col. unfold column.
  induction df as [|r df IH]; intros [|v col] E; try discriminate E.
  - reflexivity.
  - simpl. unfold getitem at 1. simpl. rewrite get_set_same. simpl.
    injection E as E. fold (column name (assign name col df)).
    unfold column. now rewrite (IH col E).
Qed.

Lemma column_assign_other (name name' : string) (col : list fval)
    (df : DataFrame) :
  name' <> name ->
  column name' (assign name col df) = column name' df.
Proof.
  intros NE. revert col. unfold column.
  induction df as [|r df IH]; intros col; [reflexivity|].
  destruct col as [|v col]; simpl; unfold getitem at 1 3; simpl;
    rewrite get_set_other by exact NE; now rewrite IH.
Qed.

Lemma diff_from_length prev col :
  List.length (diff_from prev col) = List.length col.
Proof.
  revert prev. induction col as [|x col IH]; intros prev; simpl;
    [reflexivity|now rewrite IH].
Qed.

Lemma pct_change_from_length prev col :
  List.length (pct_change_from prev col) = List.length col.
Proof.
  revert prev. induction col as [|x col IH]; intros prev; simpl;
    [reflexivity|now rewrite IH].
Qed.

Lemma daily_length (col : list count) :
  List.length (map of_count (diff col)) = List.length col.
Proof. unfold diff. now rewrite length_map, diff_from_length. Qed.

Lemma percent_length (col : list count) :
  List.length (percent (pct_change col)) = List.length col.
Proof.
  unfold percent, pct_change. now rewrite !length_map, pct_change_from_length.
Qed.

Lemma rolling_mean_length (w : positive) (col : list fval) :
  List.length (rolling_mean w col) = List.length col.
Proof. unfold rolling_mean. now rewrite length_map, length_seq. Qed.

Lemma column_Confirmed_length df :
  List.length (column_Confirmed df) = List.length df.
Proof. apply length_map. Qed.

Lemma column_Deaths_length df :
  List.length (column_Deaths df) = List.length df.
Proof. apply length_map. Qed.

Create Rewrite HintDb frame.
#[local] Hint Rewrite assign_length daily_length percent_length
  rolling_mean_length column_Confirmed_length column_Deaths_length
  column_Confirmed_assign column_Deaths_assign : frame.

(** Reading, from a table built by assignments, a column assigned in it. *)
Ltac read_column :=
  repeat (rewrite column_assign_other by discriminate);
  rewrite column_assign_same by (autorewrite with frame; reflexivity).

(** The derived columns of the table returned. *)
Lemma growth_frame_columns (df : DataFrame) :
  let sorted := sort_values_Date df in
  let daily_confirmed := map of_count (diff (column_Confirmed sorted)) in
  let daily_deaths := map of_count (diff (column_Deaths sorted)) in
  map base (growth_frame df) = map base sorted
  /\ column "Daily_Confirmed" (growth_frame df) = Ok daily_confirmed
  /\ column "Daily_Deaths" (growth_frame df) = Ok daily_deaths
  /\ column "Confirmed_Growth_Rate" (growth_frame df)
     = Ok (percent (pct_change (column_Confirmed sorted)))
  /\ column "Death_Growth_Rate" (growth_frame df)
     = Ok (percent (pct_change (column_Deaths sorted)))
  /\ column "Confirmed_MA_7" (growth_frame df)
     = Ok (rolling_mean 7 daily_confirmed)
  /\ column "Deaths_MA_7" (growth_frame df)
     = Ok (rolling_mean 7 daily_deaths).
Proof.
  intros sorted daily_confirmed daily_deaths. unfold growth_frame.
  fold sorted. fold daily_confirmed. fold daily_deaths.
  split; [now rewrite !assign_base|].
  unfold daily_confirmed, daily_deaths.
  repeat split; read_column; reflexivity.
Qed.

(** *** Running the function on the store *)

Lemma nth_error_top {A : Type} (h : list A) (x : A) :
  nth_error (h ++ [x])%list (List.length h) = Some x.
Proof. rewrite nth_error_app2, Nat.sub_diag by apply Nat.le_refl. reflexivity. Qed.

Lemma update_top {A : Type} (h : list A) (x y : A) :
  update (List.length h) y (h ++ [x])%list = (h ++ [y])%list.
Proof. induction h as [|a h IH]; simpl; [reflexivity|now rewrite IH]. Qed.

Lemma getitem_Confirmed_top (h : heap) (df : DataFrame) :
  getitem_Confirmed (List.length h) (h ++ [df])%list
  = Ok (column_Confirmed df, (h ++ [df])%list).
Proof.
  unfold getitem_Confirmed, bindS, deref, ret. now rewrite nth_error_top.
Qed.

Lemma getitem_Deaths_top (h : heap) (df : DataFrame) :
  getitem_Deaths (List.length h) (h ++ [df])%list
  = Ok (column_Deaths df, (h ++ [df])%list).
Proof.
  unfold getitem_Deaths, bindS, deref, ret. now rewrite nth_error_top.
Qed.

Lemma getitem_column_top (h : heap) (df : DataFrame) (name : string)
    (col : list fval) :
  column name df = Ok col ->
  getitem_column (List.length h) name (h ++ [df])%list
  = Ok (col, (h ++ [df])%list).
Proof.
  intros E. unfold getitem_column, bindS, deref, lift.
  now rewrite nth_error_top, E.
Qed.

Lemma setitem_top (h : heap) (df : DataFrame) (name : string)
    (col : list fval) :
  setitem (List.length h) name col (h ++ [df])%list
  = Ok (tt, (h ++ [assign name col df])%list).
Proof.
  unfold setitem, mutate. now rewrite nth_error_top, update_top.
Qed.

(** On a store where [country_data] refers to the table [df], the function
    adds one object to the store, the table [growth_frame df], and returns
    the reference to it. *)
Lemma calculate_growth_rates_run (h : heap) (country_data : loc)
    (df : DataFrame) :
  nth_error h country_data = Some df ->
  calculate_growth_rates country_data h
  = Ok (List.length h, (h ++ [growth_frame df])%list).
Proof.
  intros H. unfold calculate_growth_rates.
  unfold bindS at 1. unfold sort_values, bindS at 1, deref, alloc.
  rewrite H.
  unfold bindS at 1. rewrite getitem_Confirmed_top.
  unfold bindS at 1. rewrite setitem_top.
  unfold bindS at 1. rewrite getitem_Deaths_top.
  unfold bindS at 1. rewrite setitem_top.
  unfold bindS at 1. rewrite getitem_Confirmed_top.
  unfold bindS at 1. rewrite setitem_top.
  unfold bindS at 1. rewrite getitem_Deaths_top.
  unfold bindS at 1. rewrite setitem_top.
  unfold bindS at 1.
  rewrite (getitem_column_top _ _ "Daily_Confirmed"
             (map of_count (diff (column_Confirmed (sort_values_Date df)))))
    by (read_column; reflexivity).
  unfold bindS at 1. rewrite setitem_top.
  unfold bindS at 1.
  rewrite (getitem_column_top _ _ "Daily_Deaths"
             (map of_count (diff (column_Deaths (sort_values_Date df)))))
    by (autorewrite with frame; read_column; reflexivity).
  unfold bindS at 1. rewrite setitem_top.
  unfold ret, growth_frame. now autorewrite with frame.
Qed.

(** C10: [calculate_growth_rates] does not change the table it is given:
    on every store, the object the caller refers to holds the same rows, in
    the same order, with the same columns after the call, as does every
    other object of the store; the table returned is a new object. *)
Theorem growth_rates_frame (h : heap) (country_data : loc) (df : DataFrame) :
  nth_error h country_data = Some df ->
  exists (returned : loc) (h' : heap),
    calculate_growth_rates country_data h = Ok (returned, h')
    /\ nth_error h' country_data = Some df
    /\ (forall l df0, nth_error h l = Some df0 -> nth_error h' l = Some df0)
    /\ returned <> country_data
    /\ nth_error h returned = None
    /\ nth_error h' returned = Some (growth_frame df).
Proof.
  intros H. exists (List.length h), (h ++ [growth_frame df])%list.
  assert (K : forall l df0, nth_error h l = Some df0 ->
                nth_error (h ++ [growth_frame df])%list l = Some df0).
  { intros l df0 E. rewrite nth_error_app1; [exact E|].
    apply nth_error_Some. congruence. }
  split; [now apply calculate_growth_rates_run|].
  split; [now apply K|]. split; [exact K|]. split.
  - intros E. assert (L : (country_data < List.length h)%nat)
      by (apply nth_error_Some; congruence).
    rewrite E in L. exact (Nat.lt_irrefl _ L).
  - split; [apply nth_error_None, Nat.le_refl|apply nth_error_top].
Qed.

(** Three days of one country, not in order of date. *)
Definition unsorted_days : DataFrame :=
  [QueryFacts.row "X" 18285 9 2; QueryFacts.row "X" 18283 1 0;
   QueryFacts.row "X" 18284 4 1].

Lemma growth_rates_frame_witness :
  exists (returned : loc) (h' : heap),
    calculate_growth_rates 1%nat [[]; unsorted_days] = Ok (returned, h')
    /\ nth_error h' 1%nat = Some unsorted_days
    /\ (forall l df0,
          nth_error [[]; unsorted_days] l = Some df0 ->
          nth_error h' l = Some df0)
    /\ returned <> 1%nat
    /\ nth_error [[]; unsorted_days] returned = None
    /\ nth_error h' returned = Some (growth_frame unsorted_days).
Proof.
  apply (growth_rates_frame [[]; unsorted_days] 1%nat unsorted_days).
  reflexivity.
Defined.

(** *** Daily differences and moving averages *)

(** An integer as a float64 cell. *)
Definition fnum (z : Z) : fval := FNum (inject_Z z).

(** What the specification says of a column of daily differences of the
    values [xs]. *)
Definition daily_spec (xs : list Z) (daily : list fval) : Prop :=
  List.length daily = List.length xs
  /\ (forall x, nth_error xs 0 = Some x -> nth_error daily 0 = Some FNaN)
  /\ (forall i a b,
        nth_error xs i = Some a -> nth_error xs (S i) = Some b ->
        nth_error daily (S i) = Some (fnum (b - a))).

(** What the specification says of a 7-point moving average of the column
    [daily], for a first defined position [first]: missing before it, and
    from it on the mean of the 7 values of [daily] that end at the
    position. *)
Definition ma7_spec (first : nat) (daily ma : list fval) : Prop :=
  List.length ma = List.length daily
  /\ (forall i, (i < first)%nat -> (i < List.length daily)%nat ->
                nth_error ma i = Some FNaN)
  /\ (forall i, (first <= i)%nat -> (i < List.length daily)%nat ->
        exists vs,
          firstn 7 (skipn (i - 6) daily) = map fnum vs
          /\ List.length vs = 7%nat
          /\ nth_error ma i = Some (FNum (Qred (zsum vs # 7)))).

Fixpoint deltas (prev : Z) (xs : list Z) : list Z :=
  match xs with
  | [] => []
  | x :: xs' => (x - prev) :: deltas x xs'
  end.

Lemma deltas_length prev xs : List.length (deltas prev xs) = List.length xs.
Proof.
  revert prev. induction xs as [|x xs IH]; intros prev; simpl;
    [reflexivity|now rewrite IH].
Qed.

Lemma diff_from_Num (prev : Z) (xs : list Z) :
  diff_from (Num prev) (map Num xs) = map Num (deltas prev xs).
Proof.
  revert prev. induction xs as [|x xs IH]; intros prev; simpl;
    [reflexivity|now rewrite IH].
Qed.

Lemma daily_Num (xs : list Z) :
  map of_count (diff (map Num xs))
  = match xs with
    | [] => []
    | x :: xs' => FNaN :: map fnum (deltas x xs')
    end.
Proof.
  destruct xs as [|x xs]; [reflexivity|].
  unfold diff. simpl. now rewrite diff_from_Num, map_map.
Qed.

Lemma nth_error_deltas (prev : Z) (xs : list Z) (i : nat) (a b : Z) :
  nth_error (prev :: xs) i = Some a ->
  nth_error xs i = Some b ->
  nth_error (deltas prev xs) i = Some (b - a).
Proof.
  revert prev i. induction xs as [|x xs IH]; intros prev i Ha Hb.
  - now destruct i.
  - destruct i as [|i]; simpl in *.
    + now injection Ha as <-; injection Hb as <-.
    + now apply IH.
Qed.

Lemma daily_of_diff (xs : list Z) :
  daily_spec xs (map of_count (diff (map Num xs))).
Proof.
  rewrite daily_Num. destruct xs as [|x xs].
  - split; [reflexivity|]. split; [discriminate|]. intros [|i]; discriminate.
  - split; [simpl; now rewrite length_map, deltas_length|].
    split; [reflexivity|].
    intros i a b Ha Hb. simpl in Hb |- *.
    apply map_nth_error. now apply nth_error_deltas.
Qed.

Lemma filter_length_le {A : Type} (p : A -> bool) (l : list A) :
  (List.length (filter p l) <= List.length l)%nat.
Proof.
  induction l as [|a l IH]; simpl; [apply Nat.le_refl|].
  destruct (p a); simpl; lia.
Qed.

Lemma nth_error_rolling_mean (w : positive) (col : list fval) (i : nat) :
  (i < List.length col)%nat ->
  nth_error (rolling_mean w col) i
  = Some (window_mean w (window (Pos.to_nat w) i col)).
Proof.
  intros L. unfold rolling_mean.
  rewrite nth_error_map, nth_error_seq.
  apply Nat.ltb_lt in L. now rewrite L.
Qed.

Lemma fold_fadd (vs : list Z) (q : Q) :
  exists q',
    fold_left fadd (map fnum vs) (FNum q) = FNum q'
    /\ (q' == q + inject_Z (zsum vs))%Q.
Proof.
  revert q. induction vs as [|v vs IH]; intros q; simpl.
  - exists q. split; [reflexivity|]. ring.
  - destruct (IH (Qred (q + inject_Z v))) as (q' & E & Hq).
    exists q'. split; [exact E|].
    rewrite Hq, Qred_correct, inject_Z_plus. ring.
Qed.

Lemma window_mean_numbers (vs : list Z) :
  List.length vs = 7%nat ->
  window_mean 7 (map fnum vs) = FNum (Qred (zsum vs # 7)).
Proof.
  intros L. unfold window_mean.
  rewrite ReshaperFacts.filter_all
    by (intros a Ha; apply in_map_iff in Ha; now destruct Ha as (z & <- & _)).
  rewrite length_map, L.
  change (7 <? Pos.to_nat 7)%nat with false. cbv iota.
  destruct (fold_fadd vs 0) as (q' & -> & Hq). unfold fdivn. f_equal.
  apply Qred_complete. rewrite Hq, Qplus_0_l. symmetry. apply Qmake_Qdiv.
Qed.

(** The moving average of a column of differences starts at position 7:
    the window that ends at position 6 holds the missing first
    difference. *)
Lemma ma7_of_daily (xs : list Z) :
  let daily := map of_count (diff (map Num xs)) in
  ma7_spec 7 daily (rolling_mean 7 daily).
Proof.
  intros daily. split; [apply rolling_mean_length|].
  unfold daily. rewrite daily_Num. destruct xs as [|x xs].
  { split; intros i; simpl; lia. }
  set (zs := deltas x xs). split.
  - intros i L7 L. rewrite nth_error_rolling_mean by exact L.
    f_equal. unfold window_mean, window.
    replace (i + 1 - Pos.to_nat 7)%nat with 0%nat by (simpl; lia).
    rewrite Nat.add_1_r. simpl skipn. simpl firstn. simpl filter.
    pose proof (filter_length_le fnotna (firstn i (map fnum zs))) as F.
    pose proof (firstn_le_length i (map fnum zs)) as G.
    assert (T : (List.length (filter fnotna (firstn i (map fnum zs)))
                 <? Pos.to_nat 7)%nat = true)
      by (apply Nat.ltb_lt; simpl; lia).
    now rewrite T.
  - intros i L7 L. simpl in L. rewrite length_map in L.
    exists (firstn 7 (skipn (i - 7) zs)).
    assert (W : firstn 7 (skipn (i - 6) (FNaN :: map fnum zs))
                = map fnum (firstn 7 (skipn (i - 7) zs))).
    { replace (i - 6)%nat with (S (i - 7)) by lia.
      now rewrite skipn_cons, skipn_map, firstn_map. }
    assert (V : List.length (firstn 7 (skipn (i - 7) zs)) = 7%nat).
    { rewrite length_firstn, length_skipn. lia. }
    split; [exact W|]. split; [exact V|].
    rewrite nth_error_rolling_mean by (simpl; rewrite length_map; lia).
    f_equal. unfold window.
    replace (i + 1 - Pos.to_nat 7)%nat with (i - 6)%nat by (simpl; lia).
    replace (i + 1)%nat with (i - 6 + 7)%nat by lia.
    rewrite <- firstn_skipn_comm, W. now apply window_mean_numbers.
Qed.

(** Eight days of one country: 0, 1, 4, 9, ... confirmed cases. *)
Definition eight_days : DataFrame :=
  map (fun i => QueryFacts.row "X" (18283 + i) (i * i) i)
      [0; 1; 2; 3; 4; 5; 6; 7].




End GrowthFacts.

(* ================================================================= *)
(** ** The Analyzer: rankings in general *)

Module RankingFacts.
Import Dict Loader Analysis.

Section TopN.
Context {A : Type}.
Variable R : A -> A -> Prop.

Lemma StronglySorted_app (l1 l2 : list A) :
  StronglySorted R l1 -> StronglySorted R l2 ->
  (forall a b, In a l1 -> In b l2 -> R a b) ->
  StronglySorted R (l1 ++ l2)%list.
Proof.
  intros S1 S2 H. induction S1 as [|x l1 S1 IH F]; simpl; [exact S2|].
  constructor.
  - apply IH. intros a b Ha Hb. apply H; [now right|exact Hb].
  - apply Forall_app. split; [exact F|].
    apply Forall_forall. intros b Hb. apply H; [now left|exact Hb].
Qed.

Lemma StronglySorted_firstn (n : nat) (l : list A) :
  StronglySorted R l -> StronglySorted R (firstn n l).
Proof.
  intros S. revert n. induction S as [|x l S IH F]; intros [|n]; simpl;
    try constructor.
  - apply IH.
  - rewrite Forall_forall in *. intros y Hy. apply F.
    rewrite <- (firstn_skipn n l). apply in_or_app. now left.
Qed.

(** In a ranked list, the first [n] come before all the others. *)
Lemma firstn_dominates (n : nat) (l : list A) :
  StronglySorted R l ->
  forall a b, In a (firstn n l) -> In b (skipn n l) -> R a b.
Proof.
  intros S. revert n. induction S as [|x l S IH F]; intros n a b Ha Hb.
  - destruct n; destruct Ha.
  - destruct n as [|n]; [destruct Ha|]. simpl in Ha, Hb.
    destruct Ha as [<-|Ha]; [|now apply (IH n)].
    rewrite Forall_forall in F. apply F.
    rewrite <- (firstn_skipn n l). apply in_or_app. now right.
Qed.
End TopN.

Lemma filter_partition_perm {A : Type} (p : A -> bool) (l : list A) :
  Permutation (filter p l ++ filter (fun a => negb (p a)) l)%list l.
Proof.
  induction l as [|a l IH]; simpl; [constructor|].
  destruct (p a); simpl.
  - now apply perm_skip.
  - rewrite <- Permutation_middle. now apply perm_skip.
Qed.

(** The date a query is about: the one given, or the latest of the table. *)
Definition as_of (data : DataFrame) (date : option Z) : option Z :=
  match date with
  | None => max_date data
  | Some d => Some d
  end.

(** The ranking by confirmed cases, whatever the table: the rows returned
    are rows of the date, as many as asked for or all of them if there are
    fewer, in decreasing order of confirmed cases, and no row of the date
    that is left out has more cases than a row returned. *)
Theorem top_by_cases_ranking (data : DataFrame) (n : nat)
    (latest_date : option Z) :
  let latest_data := filter (date_is (as_of data latest_date)) data in
  exists selected rest : DataFrame,
    get_top_countries_by_cases data n latest_date = map top_columns selected
    /\ Permutation (selected ++ rest)%list latest_data
    /\ List.length selected = Nat.min n (List.length latest_data)
    /\ StronglySorted (fun a b : Row => Confirmed b <= Confirmed a) selected
    /\ (forall a b : Row, In a selected -> In b rest ->
                          Confirmed b <= Confirmed a).
Proof.
  intros latest_data.
  set (ranked := sort confirmed_geb latest_data).
  assert (S : StronglySorted (fun a b : Row => Confirmed b <= Confirmed a) ranked).
  { apply Sorted_StronglySorted; [intros a b c; lia|].
    apply (QueryFacts.Sorted_weaken (le confirmed_geb)).
    - intros a b H. now apply Z.leb_le.
    - apply sort_sorted, QueryFacts.confirmed_geb_total. }
  exists (firstn n ranked), (skipn n ranked).
  split; [reflexivity|]. split.
  - rewrite firstn_skipn. symmetry. apply sort_perm.
  - split.
    + rewrite length_firstn. unfold ranked. now rewrite sort_length.
    + split; [now apply StronglySorted_firstn|].
      exact (firstn_dominates
               (fun a b : Row => Confirmed b <= Confirmed a) n ranked S).
Qed.

(** *** The order of the death rates *)

(** [a] ranks at most as high as [b]. *)
Definition rate_le (a b : fval) : Prop := fval_leb a b = true.

Lemma fval_leb_total (a b : fval) : fval_leb a b = false -> fval_leb b a = true.
Proof.
  destruct a as [|[|]|p], b as [|[|]|q]; simpl; try reflexivity;
    try discriminate.
  intros H. apply Qle_bool_iff. destruct (Qlt_le_dec q p) as [L|L].
  - now apply Qlt_le_weak.
  - apply Qle_bool_iff in L. congruence.
Qed.

Lemma fval_leb_trans (a b c : fval) :
  rate_le a b -> rate_le b c -> rate_le a c.
Proof.
  unfold rate_le.
  destruct a as [|[|]|p], b as [|[|]|q], c as [|[|]|r]; simpl;
    try reflexivity; try discriminate.
  rewrite !Qle_bool_iff. apply Qle_trans.
Qed.

Lemma death_rate_geb_total (a b : Row) :
  death_rate_geb a b = false -> death_rate_geb b a = true.
Proof. apply fval_leb_total. Qed.

Lemma nlargest_Death_Rate_ranked (df : DataFrame) :
  let ranked :=
    (sort death_rate_geb (filter (fun r : Row => fnotna (Death_Rate r)) df)
     ++ filter (fun r : Row => negb (fnotna (Death_Rate r))) df)%list in
  StronglySorted (fun a b : Row => rate_le (Death_Rate b) (Death_Rate a)) ranked
  /\ Permutation ranked df.
Proof.
  intros ranked. split.
  - apply StronglySorted_app.
    + apply Sorted_StronglySorted.
      * intros a b c H1 H2. exact (fval_leb_trans _ _ _ H2 H1).
      * apply (sort_sorted death_rate_geb), death_rate_geb_total.
    + assert (N : forall r : Row,
                 In r (filter (fun r : Row => negb (fnotna (Death_Rate r))) df) ->
                 Death_Rate r = FNaN).
      { intros r Hr. apply filter_In in Hr. destruct Hr as [_ Hr].
        now destruct (Death_Rate r). }
      induction (filter (fun r : Row => negb (fnotna (Death_Rate r))) df)
        as [|x l IH]; constructor.
      * apply IH. intros r Hr. apply N. now right.
      * apply Forall_forall. intros y Hy. unfold rate_le.
        rewrite (N y) by now right. reflexivity.
    + intros a b _ Hb. apply filter_In in Hb. destruct Hb as [_ Hb].
      unfold rate_le. now destruct (Death_Rate b).
  - unfold ranked. rewrite <- (sort_perm death_rate_geb).
    apply filter_partition_perm.
Qed.

(** The ranking by death rate, whatever the table: every row returned is a
    row of the date with at least [min_cases] confirmed cases; there are as
    many as asked for, or all such rows if there are fewer; they are in
    decreasing order of death rate, and no such row that is left out ranks
    above a row returned. *)
Theorem top_by_death_rate_ranking (data : DataFrame) (n : nat)
    (min_cases : Z) (latest_date : option Z) :
  let filtered_data :=
    filter (fun r : Row => min_cases <=? Confirmed r)
           (filter (date_is (as_of data latest_date)) data) in
  exists selected rest : DataFrame,
    get_top_countries_by_death_rate data n min_cases latest_date
    = map rate_columns selected
    /\ Permutation (selected ++ rest)%list filtered_data
    /\ (forall r : Row, In r selected ->
          In r data /\ min_cases <= Confirmed r
          /\ date_is (as_of data latest_date) r = true)
    /\ List.length selected = Nat.min n (List.length filtered_data)
    /\ StronglySorted
         (fun a b : Row => rate_le (Death_Rate b) (Death_Rate a)) selected
    /\ (forall a b : Row, In a selected -> In b rest ->
                          rate_le (Death_Rate b) (Death_Rate a)).
Proof.
  intros filtered_data.
  destruct (nlargest_Death_Rate_ranked filtered_data) as [S P].
  set (ranked := (sort death_rate_geb _ ++ _)%list) in *.
  exists (firstn n ranked), (skipn n ranked).
  assert (PP : Permutation (firstn n ranked ++ skipn n ranked)%list filtered_data)
    by now rewrite firstn_skipn.
  split; [reflexivity|]. split; [exact PP|]. split.
  - intros r Hr.
    assert (Hin : In r filtered_data).
    { apply (Permutation_in _ PP). apply in_or_app. now left. }
    apply filter_In in Hin. destruct Hin as [Hin Hc].
    apply filter_In in Hin. destruct Hin as [Hin Hd].
    apply Z.leb_le in Hc. now repeat split.
  - split.
    + rewrite length_firstn. now rewrite (Permutation_length P).
    + split; [now apply StronglySorted_firstn|].
      exact (firstn_dominates
               (fun a b : Row => rate_le (Death_Rate b) (Death_Rate a))
               n ranked S).
Qed.

End RankingFacts.

(* ================================================================= *)
(** ** The Analyzer: [get_global_summary] *)

Module SummaryFacts.
Import Dict Loader Analysis CellFacts RankingFacts.

(** The totals satisfy the equation of the active cases when every row of
    the date does. *)
Theorem summary_active_equation (data : DataFrame) (date : option Z) :
  (forall r : Row, In r data -> date_is (as_of data date) r = true ->
     exists d rc,
       Deaths r = Num d /\ Recovered r = Num rc
       /\ Active r = Num (Confirmed r - d - rc)) ->
  let s := get_global_summary data date in
  Total_Active s = Total_Confirmed s - Total_Deaths s - Total_Recovered s.
Proof.
  intros H. unfold get_global_summary. fold (as_of data date). simpl.
  assert (G : forall r : Row,
             In r (filter (date_is (as_of data date)) data) ->
             exists d rc,
               Deaths r = Num d /\ Recovered r = Num rc
               /\ Active r = Num (Confirmed r - d - rc)).
  { intros r Hr. apply filter_In in Hr. now apply H. }
  induction (filter (date_is (as_of data date)) data) as [|r l IH];
    [reflexivity|].
  unfold csum in *. simpl.
  destruct (G r (or_introl eq_refl)) as (d & rc & -> & -> & ->). simpl.
  rewrite IH by (intros x Hx; apply G; now right). lia.
Qed.

Definition two_rows : DataFrame :=
  [QueryFacts.row "FR" 18284 100 5; QueryFacts.row "US" 18284 200 10;
   QueryFacts.row "US" 18283 150 7].

Lemma summary_active_equation_witness :
  let s := get_global_summary two_rows None in
  Total_Active s = Total_Confirmed s - Total_Deaths s - Total_Recovered s.
Proof.
  apply (summary_active_equation two_rows None).
  intros r Hr _. simpl in Hr.
  destruct Hr as [<-|[<-|[<-|[]]]]; eexists _, _; repeat split; simpl;
    f_equal; lia.
Defined.

(** The global death rate is a number of two decimals between 0 and 100
    (the float64 of k / 100 for an integer k from 0 to 10000), within half a
    hundredth (and a rounding error below 10^-12) of the exact percentage,
    when the total of deaths is between 0 and the total of confirmed cases,
    and that is positive and below 2^53. *)
Theorem summary_rate_range (data : DataFrame) (date : option Z) :
  let s := get_global_summary data date in
  0 < Total_Confirmed s < 2 ^ 53 ->
  0 <= Total_Deaths s <= Total_Confirmed s ->
  two_decimals (Global_Death_Rate s)
  /\ close_to (Global_Death_Rate s)
              (inject_Z (Total_Deaths s) / inject_Z (Total_Confirmed s) * 100).
Proof.
  unfold get_global_summary.
  cbn [Total_Confirmed Total_Deaths Global_Death_Rate].
  set (c := zsum _). set (d := csum _). intros Hc Hd.
  fold (percentage (Num d) (Num c)).
  pose proof (percentage_range d c Hd) as R.
  pose proof (percentage_close d c Hd Hc) as C.
  split; [|exact C]. destruct C as (q & E & _). now rewrite E in *.
Qed.

Lemma summary_rate_range_witness :
  let s := get_global_summary two_rows None in
  two_decimals (Global_Death_Rate s)
  /\ close_to (Global_Death_Rate s)
              (inject_Z (Total_Deaths s) / inject_Z (Total_Confirmed s) * 100).
Proof.
  apply (summary_rate_range two_rows None); vm_compute; split;
    (reflexivity || discriminate).
Defined.

(** [Number_of_Countries] counts every country that has a row at the date,
    once. *)
Theorem summary_countries (data : DataFrame) (date : option Z) :
  exists names : list string,
    NoDup names
    /\ (forall c, In c names <->
          exists r : Row,
            In r data /\ date_is (as_of data date) r = true
            /\ Country_Region r = c)
    /\ Number_of_Countries (get_global_summary data date) = List.length names.
Proof.
  unfold get_global_summary. fold (as_of data date). simpl. unfold nunique.
  eexists. split; [apply NoDup_nodup|]. split; [|reflexivity].
  intros c. rewrite nodup_In, in_map_iff. split.
  - intros (r & E & Hr). apply filter_In in Hr. exists r. tauto.
  - intros (r & Hr & Hd & E). exists r. split; [exact E|].
    apply filter_In. now split.
Qed.

(** A query about a date of which the table has no row: both rankings are
    empty, the totals are 0, no country is counted and the global death
    rate is NaN (the quotient 0/0), not 0. *)
Theorem queries_without_rows (data : DataFrame) (d : Z) (n : nat)
    (min_cases : Z) :
  (forall r : Row, In r data -> Date r <> d) ->
  get_top_countries_by_cases data n (Some d) = []
  /\ get_top_countries_by_death_rate data n min_cases (Some d) = []
  /\ get_global_summary data (Some d)
     = {| Total_Confirmed := 0;
          Total_Deaths := 0;
          Total_Recovered := 0;
          Total_Active := 0;
          Global_Death_Rate := FNaN;
          Number_of_Countries := 0 |}.
Proof.
  intros H.
  assert (E : filter (date_is (Some d)) data = []).
  { apply ReshaperFacts.filter_none. intros r Hr. simpl.
    apply Z.eqb_neq. now apply H. }
  unfold get_top_countries_by_cases, get_top_countries_by_death_rate,
    get_global_summary.
  rewrite E. simpl. unfold nlargest_Confirmed, nlargest_Death_Rate. simpl.
  now rewrite !firstn_nil.
Qed.

Lemma queries_without_rows_witness :
  get_top_countries_by_cases two_rows 5 (Some 18290) = []
  /\ get_top_countries_by_death_rate two_rows 5 1000 (Some 18290) = []
  /\ get_global_summary two_rows (Some 18290)
     = {| Total_Confirmed := 0;
          Total_Deaths := 0;
          Total_Recovered := 0;
          Total_Active := 0;
          Global_Death_Rate := FNaN;
          Number_of_Countries := 0 |}.
Proof.
  apply (queries_without_rows two_rows 18290 5 1000).
  intros r Hr. simpl in Hr.
  destruct Hr as [<-|[<-|[<-|[]]]]; discriminate.
Defined.

End SummaryFacts.

(* ================================================================= *)
(** ** The Analyzer: more on [calculate_growth_rates] *)

Module GrowthRateFacts.
Import Dict Loader Analysis DictFacts CellFacts GrowthFacts.

(** *** The growth rates *)

(** The growth rate of a row with [b] cases after a row with [a] cases:
    [(b / a - 1) * 100] rounded to 2 decimals, each operation in
    binary64. *)
Definition growth_cell (a b : Z) : fval :=
  around2 (fmul (fsub (true_divide (Num b) (Num a)) (FNum 1)) (FNum 100)).

(** From 160 to 161 cases the rate is 0.63, and from 800 to 803 it is 0.37
    (the exact 0.625 and 0.375 would round to 0.62 and 0.38). *)
Lemma growth_cell_160_161 : growth_cell 160 161 = fl (63 # 100).
Proof. vm_compute. reflexivity. Qed.

Lemma growth_cell_800_803 : growth_cell 800 803 = fl (37 # 100).
Proof. vm_compute. reflexivity. Qed.

Lemma growth_cell_from_zero (b : Z) : 0 < b -> growth_cell 0 b = FInf false.
Proof.
  intros Hb. unfold growth_cell, true_divide, to_float64.
  pose proof (fl_int_positive b Hb) as F.
  destruct (fl (inject_Z b)) as [|s|q]; [destruct F|now subst s|].
  destruct F as [F0 F1]. unfold fdiv. change (fl (inject_Z 0)) with (FNum 0).
  change (Qnum 0 =? 0) with true. cbv iota. now rewrite F0, F1.
Qed.

(** From [a] cases to at most twice as many, both below [2 ^ 53]: the rate
    is within half a hundredth of the exact one, and a rounding error. *)
Lemma growth_cell_close (a b : Z) :
  0 < a -> a <= b <= 2 * a -> b < 2 ^ 53 ->
  close_to (growth_cell a b) ((inject_Z b / inject_Z a - 1) * 100)%Q.
Proof.
  intros Ha Hb Hm. pose proof ulp52_pos as Hu. pose proof ulp52_small as Hs.
  unfold growth_cell, true_divide, to_float64.
  destruct (fl_int_exact a) as (qa & Ea & Va); [lia|].
  destruct (fl_int_exact b) as (qb & Eb & Vb); [lia|].
  rewrite Ea, Eb. unfold fdiv.
  assert (Pa : (0 < inject_Z a)%Q)
    by (change 0%Q with (inject_Z 0); rewrite <- Zlt_Qlt; lia).
  assert (Lb : (inject_Z a <= inject_Z b)%Q) by (rewrite <- Zle_Qle; lia).
  assert (Ub : (inject_Z b <= 2 * inject_Z a)%Q).
  { change 2%Q with (inject_Z 2). rewrite <- inject_Z_mult, <- Zle_Qle. lia. }
  rewrite Qnum_pos by (rewrite Va; exact Pa).
  set (x := (inject_Z b / inject_Z a)%Q).
  assert (X : (qb / qa == x)%Q) by (unfold x; now rewrite Va, Vb).
  assert (X1 : (1 <= x)%Q)
    by (apply Qle_shift_div_l; [exact Pa|now rewrite Qmult_1_l]).
  assert (X2 : (x <= 2)%Q) by (apply Qle_shift_div_r; [exact Pa|exact Ub]).
  destruct (fl_error (qb / qa) 2) as (q1 & E1 & _ & U1 & R1);
    [rewrite X; apply Qle_trans with 1%Q; [discriminate|exact X1]
    |now rewrite X|discriminate|exact rnd_abs_2|reflexivity|].
  destruct (fl_monotone 1 (qb / qa) q1) as (p & Ep & _ & Lp);
    [discriminate|now rewrite X|exact E1|].
  change (fl 1) with (FNum 1) in Ep. apply FNum_inj in Ep. subst p.
  rewrite E1. unfold fsub.
  assert (D0 : (0 <= q1 - 1)%Q)
    by (unfold Qminus; rewrite <- (Qplus_opp_r 1); now apply Qplus_le_l).
  assert (D1 : (q1 - 1 <= 1)%Q).
  { unfold Qminus. apply Qle_trans with (2 + - (1))%Q; [|discriminate].
    now apply Qplus_le_l. }
  destruct (fl_error (q1 - 1) 1) as (q1' & E1' & L1' & U1' & R1');
    [exact D0|exact D1|discriminate|exact rnd_abs_1|reflexivity|].
  rewrite E1'. unfold fmul.
  assert (M0 : (0 <= q1' * 100)%Q) by (apply Qmult_le_0_compat; [exact L1'|discriminate]).
  assert (M1 : (q1' * 100 <= 100)%Q).
  { apply Qle_trans with (1 * 100)%Q; [|discriminate].
    apply Qmult_le_compat_r; [exact U1'|discriminate]. }
  destruct (fl_error (q1' * 100) 100) as (q2 & E2 & L2 & U2 & R2);
    [exact M0|exact M1|discriminate|exact rnd_abs_100|reflexivity|].
  rewrite E2.
  destruct (around2_close q2 L2 U2) as (k & r & Er & _ & _ & _ & _ & Rr).
  rewrite Er. exists r. split; [reflexivity|].
  rewrite X in R1.
  apply Qabs_Qle_condition in R1, R1', R2, Rr. apply Qabs_Qle_condition.
  split; lra.
Qed.

Lemma growth_cell_same (a : Z) : a <> 0 -> int64 a -> growth_cell a a = FNum 0.
Proof.
  intros Ha Ia. unfold growth_cell, true_divide, to_float64.
  pose proof (fl_int a Ha) as F.
  destruct (fl (inject_Z a)) as [|s|q]; [destruct F|now contradiction F|].
  unfold fdiv. rewrite F.
  assert (Hq : ~ (q == 0)%Q).
  { destruct q as [n d]. unfold Qeq; simpl in *. lia. }
  rewrite (fl_comp (q / q) 1) by now field.
  vm_compute. reflexivity.
Qed.

Fixpoint growth_cells (prev : Z) (xs : list Z) : list fval :=
  match xs with
  | [] => []
  | x :: xs' => growth_cell prev x :: growth_cells x xs'
  end.

Lemma growth_cells_length (prev : Z) (xs : list Z) :
  List.length (growth_cells prev xs) = List.length xs.
Proof.
  revert prev. induction xs as [|x xs IH]; intros prev; simpl;
    [reflexivity|now rewrite IH].
Qed.

Lemma percent_pct_change_from (prev : Z) (xs : list Z) :
  percent (pct_change_from (Num prev) (map Num xs)) = growth_cells prev xs.
Proof.
  revert prev. induction xs as [|x xs IH]; intros prev; [reflexivity|].
  unfold percent in *. simpl map. now rewrite IH.
Qed.

Lemma percent_pct_change (xs : list Z) :
  percent (pct_change (map Num xs))
  = match xs with
    | [] => []
    | x :: xs' => FNaN :: growth_cells x xs'
    end.
Proof.
  destruct xs as [|x xs]; [reflexivity|].
  unfold pct_change.
  change (pct_change_from NaN (map Num (x :: xs)))
    with (fsub (fdiv (to_float64 (Num x)) FNaN) (FNum 1)
          :: pct_change_from (Num x) (map Num xs)).
  rewrite fdiv_nan_r.
  change (percent (fsub FNaN (FNum 1) :: pct_change_from (Num x) (map Num xs)))
    with (FNaN :: percent (pct_change_from (Num x) (map Num xs))).
  now rewrite percent_pct_change_from.
Qed.

Lemma nth_error_growth_cells (prev : Z) (xs : list Z) (i : nat) (a b : Z) :
  nth_error (prev :: xs) i = Some a ->
  nth_error xs i = Some b ->
  nth_error (growth_cells prev xs) i = Some (growth_cell a b).
Proof.
  revert prev i. induction xs as [|x xs IH]; intros prev i Ha Hb.
  - now destruct i.
  - destruct i as [|i]; simpl in *.
    + now injection Ha as <-; injection Hb as <-.
    + now apply IH.
Qed.

Lemma sorted_by_date (df : DataFrame) :
  Sorted (fun a b : Row => Date a < Date b) df -> sort_values_Date df = df.
Proof.
  intros S. apply sort_sorted_id.
  apply (QueryFacts.Sorted_weaken (fun a b : Row => Date a < Date b));
    [|exact S].
  intros a b L. apply Z.leb_le. lia.
Qed.

(** On a series in increasing order of date, the column
    [Confirmed_Growth_Rate] is missing on the first row; after a row with
    [a] cases, a row with [b] cases has the rate [(b / a - 1) * 100] rounded
    to 2 decimals, each operation in binary64: that is within half a
    hundredth (and a rounding error below 10^-12) of the exact rate when
    [b] is between [a] and twice [a], below 2^53; it is 0 when [b] is [a]
    (an int64 other than 0), plus infinity when [a] is 0 and [b] is
    positive, and NaN when both are 0. *)
Theorem growth_rate_column (h : heap) (country_data : loc) (df : DataFrame) :
  nth_error h country_data = Some df ->
  Sorted (fun a b : Row => Date a < Date b) df ->
  exists (returned : loc) (h' : heap) (out : DataFrame) (rates : list fval),
    calculate_growth_rates country_data h = Ok (returned, h')
    /\ nth_error h' returned = Some out
    /\ column "Confirmed_Growth_Rate" out = Ok rates
    /\ List.length rates = List.length df
    /\ (df <> [] -> nth_error rates 0 = Some FNaN)
    /\ (forall i (r1 r2 : Row),
          nth_error df i = Some r1 -> nth_error df (S i) = Some r2 ->
          let a := Confirmed r1 in
          let b := Confirmed r2 in
          nth_error rates (S i) = Some (growth_cell a b)
          /\ (0 < a -> a <= b <= 2 * a -> b < 2 ^ 53 ->
              close_to (growth_cell a b)
                       ((inject_Z b / inject_Z a - 1) * 100)%Q)
          /\ (a <> 0 -> int64 a -> b = a ->
              nth_error rates (S i) = Some (FNum 0))
          /\ (a = 0 -> 0 < b -> nth_error rates (S i) = Some (FInf false))
          /\ (a = 0 -> b = 0 -> nth_error rates (S i) = Some FNaN)).
Proof.
  intros H Hs.
  destruct (growth_frame_columns df) as (_ & _ & _ & C & _).
  rewrite (sorted_by_date df Hs) in C.
  assert (E : column_Confirmed df
              = map Num (map (fun r : Row => Confirmed r) df))
    by (unfold column_Confirmed; now rewrite map_map).
  rewrite E, percent_pct_change in C.
  exists (List.length h), (h ++ [growth_frame df])%list, (growth_frame df).
  eexists. split; [now apply calculate_growth_rates_run|].
  split; [apply nth_error_top|]. split; [exact C|].
  destruct df as [|r0 df].
  { split; [reflexivity|]. split; [intros N; now contradiction N|].
    intros i r1 r2 H1. destruct i; discriminate H1. }
  simpl map.
  assert (G : forall i (r1 r2 : Row),
     nth_error (r0 :: df) i = Some r1 -> nth_error (r0 :: df) (S i) = Some r2 ->
     nth_error (FNaN :: growth_cells (Confirmed r0)
                          (map (fun r : Row => Confirmed r) df)) (S i)
     = Some (growth_cell (Confirmed r1) (Confirmed r2))).
  { intros i r1 r2 H1 H2. simpl nth_error at 1.
    apply nth_error_growth_cells.
    - change (Confirmed r0 :: map (fun r : Row => Confirmed r) df)
        with (map (fun r : Row => Confirmed r) (r0 :: df)).
      now apply (map_nth_error (fun r : Row => Confirmed r)).
    - simpl in H2. now apply (map_nth_error (fun r : Row => Confirmed r)). }
  split; [simpl; now rewrite growth_cells_length, length_map|].
  split; [reflexivity|].
  intros i r1 r2 H1 H2 a b. rewrite (G i r1 r2 H1 H2).
  fold a. fold b. split; [reflexivity|].
  split; [apply growth_cell_close|]. split; [|split].
  - intros Ha Ia ->. f_equal. now apply growth_cell_same.
  - intros -> Hb. f_equal. now apply growth_cell_from_zero.
  - now intros -> ->.
Qed.

(** Eight days that start with no case. *)
Definition from_zero : DataFrame :=
  map (fun i => QueryFacts.row "X" (18283 + i) (i * i) 0)
      [0; 1; 2; 3; 4; 5; 6; 7].

Lemma growth_rate_column_witness :
  exists (returned : loc) (h' : heap) (out : DataFrame) (rates : list fval),
    calculate_growth_rates 0%nat [from_zero] = Ok (returned, h')
    /\ nth_error h' returned = Some out
    /\ column "Confirmed_Growth_Rate" out = Ok rates
    /\ List.length rates = List.length from_zero
    /\ (from_zero <> [] -> nth_error rates 0 = Some FNaN)
    /\ (forall i (r1 r2 : Row),
          nth_error from_zero i = Some r1 ->
          nth_error from_zero (S i) = Some r2 ->
          let a := Confirmed r1 in
          let b := Confirmed r2 in
          nth_error rates (S i) = Some (growth_cell a b)
          /\ (0 < a -> a <= b <= 2 * a -> b < 2 ^ 53 ->
              close_to (growth_cell a b)
                       ((inject_Z b / inject_Z a - 1) * 100)%Q)
          /\ (a <> 0 -> int64 a -> b = a ->
              nth_error rates (S i) = Some (FNum 0))
          /\ (a = 0 -> 0 < b -> nth_error rates (S i) = Some (FInf false))
          /\ (a = 0 -> b = 0 -> nth_error rates (S i) = Some FNaN)).
Proof.
  apply (growth_rate_column [from_zero] 0%nat from_zero).
  - reflexivity.
  - repeat constructor; simpl; lia.
Defined.

(** *** The moving average, in terms of the cumulative counts *)

Lemma last_cons_default (x : Z) (xs : list Z) (d d' : Z) :
  last (x :: xs) d = last (x :: xs) d'.
Proof.
  revert x. induction xs as [|y ys IH]; intros x; [reflexivity|].
  change (last (y :: ys) d = last (y :: ys) d'). apply IH.
Qed.

Lemma zsum_deltas (prev : Z) (xs : list Z) :
  zsum (deltas prev xs) = last xs prev - prev.
Proof.
  revert prev. induction xs as [|x xs IH]; intros prev; [simpl; lia|].
  change (x - prev + zsum (deltas x xs) = last (x :: xs) prev - prev).
  rewrite IH. destruct xs as [|y ys]; [simpl; lia|].
  rewrite (last_cons_default y ys x prev).
  change (last (x :: y :: ys) prev) with (last (y :: ys) prev). lia.
Qed.

Lemma skipn_deltas (prev : Z) (xs : list Z) (j : nat) (a : Z) :
  nth_error (prev :: xs) j = Some a ->
  skipn j (deltas prev xs) = deltas a (skipn j xs).
Proof.
  revert prev xs. induction j as [|j IH]; intros prev xs H.
  - now injection H as <-.
  - destruct xs as [|x xs]; [destruct j; discriminate H|].
    simpl in H |- *. now apply IH.
Qed.

Lemma firstn_deltas (prev : Z) (xs : list Z) (k : nat) :
  firstn k (deltas prev xs) = deltas prev (firstn k xs).
Proof.
  revert prev xs. induction k as [|k IH]; intros prev [|x xs]; simpl;
    try reflexivity.
  now rewrite IH.
Qed.

Lemma last_firstn_skipn (xs : list Z) (j k : nat) (b d : Z) :
  nth_error xs (j + k) = Some b ->
  last (firstn (S k) (skipn j xs)) d = b.
Proof.
  revert xs. induction j as [|j IH]; intros xs H.
  - simpl in *. revert xs H. induction k as [|k IHk]; intros [|x xs] H;
      try discriminate H.
    + simpl in H. now injection H as <-.
    + simpl in H. specialize (IHk xs H).
      change (firstn (S (S k)) (x :: xs)) with (x :: firstn (S k) xs).
      destruct xs as [|y ys]; [destruct k; discriminate H|]. exact IHk.
  - destruct xs as [|x xs]; [discriminate H|]. simpl in H |- *. now apply IH.
Qed.

Lemma map_fnum_inj (l1 l2 : list Z) : map fnum l1 = map fnum l2 -> l1 = l2.
Proof.
  revert l2. induction l1 as [|a l1 IH]; intros [|b l2] H;
    try discriminate H; [reflexivity|].
  simpl in H. injection H as E H. f_equal; [exact E|now apply IH].
Qed.



(** *** The order of the rows, and a second call *)

Lemma sorted_same_base (l1 l2 : DataFrame) :
  map base l1 = map base l2 ->
  Sorted (le date_leb) l1 -> Sorted (le date_leb) l2.
Proof.
  intros E S1. revert l2 E.
  induction S1 as [|x l1 S1 IH HR]; intros [|y l2] E; try discriminate E;
    constructor.
  - apply IH. now injection E.
  - injection E as Exy E. destruct HR as [|z l1' Hxz].
    + destruct l2; [constructor|discriminate E].
    + destruct l2 as [|w l2]; [constructor|]. injection E as Ezw _.
      constructor. unfold le, date_leb in *.
      change ((Date (base y) <=? Date (base w)) = true).
      now rewrite <- Exy, <- Ezw.
Qed.

(** Whatever the order of the rows it is given, the table returned holds the
    same rows in increasing order of date. *)
Theorem growth_rates_sorted_output (h : heap) (country_data : loc)
    (df : DataFrame) :
  nth_error h country_data = Some df ->
  exists (returned : loc) (h' : heap) (out : DataFrame),
    calculate_growth_rates country_data h = Ok (returned, h')
    /\ nth_error h' returned = Some out
    /\ Permutation (map base df) (map base out)
    /\ Sorted (fun a b : Row => Date a <= Date b) out.
Proof.
  intros H.
  exists (List.length h), (h ++ [growth_frame df])%list, (growth_frame df).
  destruct (growth_frame_columns df) as (B & _).
  split; [now apply calculate_growth_rates_run|].
  split; [apply nth_error_top|]. split.
  - rewrite B. apply Permutation_map. apply sort_perm.
  - apply (QueryFacts.Sorted_weaken (le date_leb)).
    + intros a b L. now apply Z.leb_le.
    + apply (sorted_same_base (sort_values_Date df)); [now symmetry|].
      apply sort_sorted, QueryFacts.date_leb_total.
Qed.

Lemma growth_rates_sorted_output_witness :
  exists (returned : loc) (h' : heap) (out : DataFrame),
    calculate_growth_rates 0%nat [unsorted_days] = Ok (returned, h')
    /\ nth_error h' returned = Some out
    /\ Permutation (map base unsorted_days) (map base out)
    /\ Sorted (fun a b : Row => Date a <= Date b) out.
Proof.
  apply (growth_rates_sorted_output [unsorted_days] 0%nat unsorted_days).
  reflexivity.
Defined.

Lemma set_get_id {V : Type} (k : string) (v : V) (d : dict V) :
  get k d = Some v -> set k v d = d.
Proof.
  induction d as [|[k' v'] d IH]; simpl; [discriminate|].
  destruct (String.eqb k k') eqn:E.
  - intros [= ->]. apply String.eqb_eq in E. now subst.
  - intros H. now rewrite IH.
Qed.

Lemma assign_same_value (name : string) (col : list fval) (df : DataFrame) :
  column name df = Ok col -> assign name col df = df.
Proof.
  revert col. unfold column.
  induction df as [|r df IH]; intros col H; [reflexivity|].
  simpl in H. unfold getitem in H at 1.
  destruct (get name (extra r)) as [v|] eqn:G; simpl in H; [|discriminate].
  destruct (mapM _ df) as [vs|e] eqn:M; simpl in H; [|discriminate].
  injection H as <-. simpl. rewrite (IH vs eq_refl). f_equal.
  unfold set_extra. rewrite (set_get_id _ _ _ G). now destruct r.
Qed.

Lemma growth_frame_idempotent (df : DataFrame) :
  growth_frame (growth_frame df) = growth_frame df.
Proof.
  destruct (growth_frame_columns df) as (B & C1 & C2 & C3 & C4 & C5 & C6).
  set (g := growth_frame df) in *.
  assert (Sg : sort_values_Date g = g).
  { apply sort_sorted_id.
    apply (sorted_same_base (sort_values_Date df)); [now symmetry|].
    apply sort_sorted, QueryFacts.date_leb_total. }
  unfold growth_frame at 1. fold g. rewrite Sg.
  rewrite (column_Confirmed_base g (sort_values_Date df) B).
  rewrite (column_Deaths_base g (sort_values_Date df) B).
  rewrite (assign_same_value _ _ _ C1), (assign_same_value _ _ _ C2),
    (assign_same_value _ _ _ C3), (assign_same_value _ _ _ C4),
    (assign_same_value _ _ _ C5).
  apply (assign_same_value _ _ _ C6).
Qed.

Lemma sorted_distinct_dates (l : DataFrame) :
  Sorted (le date_leb) l -> NoDup (map (fun r : Row => Date r) l) ->
  Sorted (fun a b : Row => Date a < Date b) l.
Proof.
  induction 1 as [|x l Hs IH HR]; simpl; intros ND; constructor.
  - apply IH. now inversion ND.
  - destruct HR as [|y l' Hxy]; constructor.
    unfold le, date_leb in Hxy. apply Z.leb_le in Hxy.
    inversion ND as [|? ? Hn _]. subst.
    assert (Date x <> Date y) by (intros E; apply Hn; left; now symmetry).
    lia.
Qed.

Lemma growth_frame_distinct_dates (df : DataFrame) :
  NoDup (map (fun r : Row => Date r) df) ->
  Sorted (fun a b : Row => Date a < Date b) (growth_frame df).
Proof.
  intros ND. destruct (growth_frame_columns df) as (B & _).
  apply sorted_distinct_dates.
  - apply (sorted_same_base (sort_values_Date df)); [now symmetry|].
    apply sort_sorted, QueryFacts.date_leb_total.
  - rewrite <- (map_map base (fun m : MergedRecord => Date m)), B, map_map.
    eapply Permutation_NoDup; [|exact ND].
    apply Permutation_map, sort_perm.
Qed.

(** On a table whose dates are distinct (the order of the rows [sort_values]
    returns is then the same for every sorting algorithm), calling the
    function on the table it returned gives a new table equal to that one:
    the six columns are computed again to the same values and replace
    themselves; the rows are in strictly increasing order of date. *)
Theorem growth_rates_idempotent (h : heap) (country_data : loc)
    (df : DataFrame) :
  nth_error h country_data = Some df ->
  NoDup (map (fun r : Row => Date r) df) ->
  exists (first second : loc) (h1 h2 : heap) (out : DataFrame),
    calculate_growth_rates country_data h = Ok (first, h1)
    /\ calculate_growth_rates first h1 = Ok (second, h2)
    /\ second <> first
    /\ nth_error h2 first = Some out
    /\ nth_error h2 second = Some out
    /\ Sorted (fun a b : Row => Date a < Date b) out.
Proof.
  intros H ND.
  assert (R1 := calculate_growth_rates_run h country_data df H).
  assert (T : nth_error (h ++ [growth_frame df])%list (List.length h)
              = Some (growth_frame df)) by apply nth_error_top.
  assert (R2 := calculate_growth_rates_run _ _ _ T).
  rewrite growth_frame_idempotent in R2.
  do 4 eexists. exists (growth_frame df).
  split; [exact R1|]. split; [exact R2|]. split.
  - rewrite length_app. simpl. lia.
  - split; [|split; [apply nth_error_top
                    |now apply growth_frame_distinct_dates]].
    rewrite nth_error_app1; [exact T|].
    rewrite length_app. simpl. lia.
Qed.

Lemma growth_rates_idempotent_witness :
  exists (first second : loc) (h1 h2 : heap) (out : DataFrame),
    calculate_growth_rates 0%nat [unsorted_days] = Ok (first, h1)
    /\ calculate_growth_rates first h1 = Ok (second, h2)
    /\ second <> first
    /\ nth_error h2 first = Some out
    /\ nth_error h2 second = Some out
    /\ Sorted (fun a b : Row => Date a < Date b) out.
Proof.
  apply (growth_rates_idempotent [unsorted_days] 0%nat unsorted_days).
  - reflexivity.
  - repeat constructor; simpl; intuition lia.
Defined.

(** The usual composition, for a country whose rows have distinct dates
    (the order of the series is then the same for every sorting algorithm):
    on the series [get_country_time_series] returns for the country,
    [calculate_growth_rates] keeps the rows and their order (the series is
    already in order of date), which is strictly increasing, and every row
    of the table returned is a row of that country. *)
Theorem growth_of_country_series (data : DataFrame) (country_name : string)
    (h : heap) :
  NoDup (map (fun r : Row => Date r)
             (filter (fun r : Row => String.eqb (Country_Region r) country_name)
                     data)) ->
  let series := get_country_time_series data country_name in
  exists (returned : loc) (h' : heap) (out : DataFrame),
    calculate_growth_rates (List.length h) (h ++ [series])%list
    = Ok (returned, h')
    /\ nth_error h' returned = Some out
    /\ map base out = map base series
    /\ Sorted (fun a b : Row => Date a < Date b) out
    /\ forall r : Row, In r out -> Country_Region r = country_name.
Proof.
  intros ND series.
  assert (NDs : NoDup (map (fun r : Row => Date r) series)).
  { eapply Permutation_NoDup; [|exact ND].
    apply Permutation_map, sort_perm. }
  assert (Id : sort_values_Date series = series).
  { apply sort_sorted_id. unfold series, get_country_time_series.
    apply sort_sorted, QueryFacts.date_leb_total. }
  destruct (growth_frame_columns series) as (B & _). rewrite Id in B.
  do 2 eexists. exists (growth_frame series).
  split; [apply calculate_growth_rates_run, nth_error_top|].
  split; [apply nth_error_top|]. split; [exact B|].
  split; [now apply growth_frame_distinct_dates|].
  intros r Hr.
  assert (Hb : In (base r) (map base series)).
  { rewrite <- B. now apply in_map. }
  apply in_map_iff in Hb. destruct Hb as (r' & E & Hr').
  unfold series, get_country_time_series, sort_values_Date in Hr'.
  apply (Permutation_in _ (Permutation_sym (sort_perm date_leb _))) in Hr'.
  apply filter_In in Hr'. destruct Hr' as [_ Hc].
  apply String.eqb_eq in Hc.
  change (Country_Region (base r) = country_name). now rewrite <- E.
Qed.

Lemma growth_of_country_series_witness :
  let series := get_country_time_series SummaryFacts.two_rows "US" in
  exists (returned : loc) (h' : heap) (out : DataFrame),
    calculate_growth_rates 0%nat [series] = Ok (returned, h')
    /\ nth_error h' returned = Some out
    /\ map base out = map base series
    /\ Sorted (fun a b : Row => Date a < Date b) out
    /\ forall r : Row, In r out -> Country_Region r = "US".
Proof.
  apply (growth_of_country_series SummaryFacts.two_rows "US" []).
  repeat constructor; simpl; intuition lia.
Defined.

End GrowthRateFacts.

(* ================================================================= *)
(** ** The Reshaper: the rows of a processed table *)

Module ProcessedFacts.
Import Dict Loader DictFacts ReshaperFacts.

Lemma key_leb_total (a b : key) : key_leb a b = false -> key_leb b a = true.
Proof.
  unfold key_leb. rewrite (String.compare_antisym (fst b) (fst a)).
  destruct (String.compare (fst a) (fst b)); simpl; try discriminate;
    [|reflexivity].
  rewrite Z.leb_gt, Z.leb_le. lia.
Qed.

(** The order of the keys: by country, then by date. *)
Definition key_lt (a b : key) : Prop :=
  String.compare (fst a) (fst b) = Lt \/ (fst a = fst b /\ snd a < snd b).

Lemma key_leb_lt (a b : key) : key_leb a b = true -> a <> b -> key_lt a b.
Proof.
  unfold key_leb, key_lt. destruct a as [c d], b as [c' d']; simpl.
  destruct (String.compare c c') eqn:E; try discriminate; [|now left].
  apply String.compare_eq_iff in E. subst c'. rewrite Z.leb_le.
  intros L N. right. split; [reflexivity|].
  assert (d <> d') by congruence. lia.
Qed.

Lemma sorted_strict (l : list key) :
  Sorted (le key_leb) l -> NoDup l -> Sorted key_lt l.
Proof.
  induction 1 as [|x l S IH HR]; intros ND; constructor.
  - apply IH. now inversion ND.
  - destruct HR as [|y l' Hxy]; constructor.
    apply key_leb_lt; [exact Hxy|].
    intros ->. inversion ND as [|? ? Hn _]. apply Hn. now left.
Qed.

Lemma groupby_keys (melted : list (MeltedRow datetime)) :
  map long_key (groupby_agg melted) = group_keys melted.
Proof.
  unfold groupby_agg. rewrite map_map.
  rewrite (map_ext _ (fun k => k)); [apply map_id|].
  intros [c d]. reflexivity.
Qed.

Lemma nth_error_combine_seq (l : list string) (start n : nat) (h : string) :
  nth_error l n = Some h ->
  nth_error (combine (seq start (List.length l)) l) n
  = Some ((start + n)%nat, h).
Proof.
  revert start n. induction l as [|x l IH]; intros start [|n] H;
    try discriminate H; simpl in *.
  - injection H as ->. now rewrite Nat.add_0_r.
  - rewrite (IH (S start) n H). f_equal. f_equal. lia.
Qed.

Section Frame.
Variable to_datetime : string -> option datetime.
Variable df : RawSeriesTable.

Lemma melted_rows (cols : list (nat * string)) (melted : list (MeltedRow datetime))
    (x : MeltedRow datetime) :
  mapM (convert_date to_datetime) (flat_map (column_rows df) cols) = Ok melted ->
  In x melted <->
  exists jh d r,
    In jh cols /\ to_datetime (snd jh) = Some d /\ In r (raw_rows df)
    /\ x = dated_row (fst jh) d r.
Proof.
  revert melted. induction cols as [|jh cols IH]; simpl; intros melted H.
  - injection H as <-. split; [intros []|intros (? & ? & ? & [] & _)].
  - apply mapM_app in H. destruct H as (o1 & o2 & H1 & H2 & ->).
    rewrite in_app_iff, (IH _ H2). apply convert_column in H1. split.
    + intros [Hx|(jh' & d & r & Hin & Hd & Hr & ->)].
      * destruct H1 as [[_ ->]|(d & Hd & ->)]; [destruct Hx|].
        apply in_map_iff in Hx. destruct Hx as (r & <- & Hr).
        exists jh, d, r. repeat split; auto.
      * exists jh', d, r. repeat split; auto.
    + intros (jh' & d & r & [<-|Hin] & Hd & Hr & ->).
      * left. destruct H1 as [[E _]|(d' & Hd' & ->)].
        { rewrite E in Hr. destruct Hr. }
        { rewrite Hd in Hd'. injection Hd' as <-. now apply in_map. }
      * right. exists jh', d, r. repeat split; auto.
Qed.

Lemma columns_headers (h : string) :
  (exists j, In (j, h) (columns df)) <-> In h (date_columns df).
Proof.
  unfold columns. split.
  - intros [j H]. now apply in_combine_r in H.
  - intros H. apply In_nth_error in H. destruct H as [n H].
    exists (0 + n)%nat. apply (nth_error_In _ n).
    now apply nth_error_combine_seq.
Qed.

End Frame.

(** The sum of the raw values of a country at a date: over the date
    columns whose header is that date, the cells of the rows of the
    country. *)
Definition country_date_total (to_datetime : string -> option datetime)
    (df : RawSeriesTable) (country : string) (d : Z) : Z :=
  zsum (map (fun jh : nat * string =>
               match to_datetime (snd jh) with
               | Some (Timestamp d') =>
                   if d' =? d
                   then csum (map (fun r => nth (fst jh) (raw_cells r) NaN)
                                  (country_rows df country))
                   else 0
               | _ => 0
               end)
            (columns df)).

Lemma group_total (to_datetime : string -> option datetime) (df : RawSeriesTable)
    (cols : list (nat * string)) (melted : list (MeltedRow datetime)) (k : key) :
  mapM (convert_date to_datetime) (flat_map (column_rows df) cols) = Ok melted ->
  total (group melted k)
  = zsum (map (fun jh : nat * string =>
                 match to_datetime (snd jh) with
                 | Some (Timestamp d') =>
                     if d' =? snd k
                     then csum (map (fun r => nth (fst jh) (raw_cells r) NaN)
                                    (country_rows df (fst k)))
                     else 0
                 | _ => 0
                 end)
              cols).
Proof.
  revert melted. induction cols as [|jh cols IH]; simpl; intros melted H.
  - now injection H as <-.
  - apply mapM_app in H. destruct H as (o1 & o2 & H1 & H2 & ->).
    unfold group in *. rewrite filter_app, total_app, (IH _ H2). f_equal.
    apply convert_column in H1.
    destruct H1 as [[E ->]|(p & E & ->)].
    + unfold country_rows. rewrite E. simpl.
      destruct (to_datetime (snd jh)) as [[d'|]|]; try reflexivity.
      now destruct (d' =? snd k).
    + rewrite E, filter_map_swap.
      rewrite (filter_ext _ _ (has_key_dated_row k (fst jh) p)).
      destruct p as [d'|]; [destruct (d' =? snd k) eqn:D|].
      * rewrite (filter_ext _ (is_country (fst k)))
          by (intros r; apply andb_true_r).
        fold (country_rows df (fst k)). unfold total. now rewrite map_map.
      * rewrite filter_none; [reflexivity|]. intros r _. apply andb_false_r.
      * now rewrite filter_none.
Qed.

Lemma processed_table (to_datetime : string -> option datetime)
    (data : dict RawSeriesTable) (processed : dict (list LongRecord))
    (data_type : string) (out : list LongRecord) :
  NoDup (map fst data) ->
  preprocess_data to_datetime data = Ok processed ->
  get data_type processed = Some out ->
  exists df melted,
    get data_type data = Some df
    /\ mapM (convert_date to_datetime) (melt df) = Ok melted
    /\ out = groupby_agg melted.
Proof.
  intros ND H G.
  pose proof (preprocess_loop_get _ _ _ _ ND H data_type) as P.
  destruct (get data_type data) as [df|].
  - destruct P as (out' & F & G'). rewrite G in G'. injection G' as <-.
    unfold preprocess_frame in F.
    destruct (mapM (convert_date to_datetime) (melt df)) as [melted|e] eqn:M;
      simpl in F; [|discriminate].
    injection F as <-. now exists df, melted.
  - rewrite G in P. discriminate P.
Qed.

Lemma processed_rows_ordered_aux (to_datetime : string -> option datetime)
    (data : dict RawSeriesTable) (processed : dict (list LongRecord))
    (data_type : string) (out : list LongRecord) :
  NoDup (map fst data) ->
  preprocess_data to_datetime data = Ok processed ->
  get data_type processed = Some out ->
  NoDup (map long_key out) /\ Sorted key_lt (map long_key out).
Proof.
  intros ND H G.
  destruct (processed_table _ _ _ _ _ ND H G) as (df & melted & _ & _ & ->).
  rewrite groupby_keys.
  assert (N : NoDup (group_keys melted)) by apply group_keys_NoDup.
  split; [exact N|]. apply sorted_strict; [|exact N].
  apply sort_sorted, key_leb_total.
Qed.

(** A processed table has one row for each key (country, date), and its
    rows are in increasing order of country, then of date. *)
Theorem processed_rows_ordered (to_datetime : string -> option datetime)
    (data : dict RawSeriesTable) (processed : dict (list LongRecord))
    (data_type : string) (out : list LongRecord) :
  NoDup (map fst data) ->
  preprocess_data to_datetime data = Ok processed ->
  get data_type processed = Some out ->
  NoDup (map long_key out) /\ Sorted key_lt (map long_key out).
Proof. exact (processed_rows_ordered_aux to_datetime data processed data_type out). Qed.

(** The processed table of the sample. *)
Definition sample_confirmed : list LongRecord :=
  Eval vm_compute in
    match get "confirmed" sample_processed with
    | Some out => out
    | None => []
    end.

Lemma processed_rows_ordered_witness :
  NoDup (map long_key sample_confirmed)
  /\ Sorted key_lt (map long_key sample_confirmed).
Proof.
  apply (processed_rows_ordered parse_header sample_data sample_processed
           "confirmed").
  - repeat constructor; simpl; intuition discriminate.
  - vm_compute. reflexivity.
  - reflexivity.
Defined.

(** A processed table has a row for a country at a date exactly when the
    raw table has a row of the country and a date column of that date;
    the value of the row is the sum of the cells of the rows of the country
    in the columns of the date, a missing cell counting for nothing. *)
Theorem processed_rows_complete (to_datetime : string -> option datetime)
    (data : dict RawSeriesTable) (processed : dict (list LongRecord))
    (data_type : string) (out : list LongRecord) :
  NoDup (map fst data) ->
  preprocess_data to_datetime data = Ok processed ->
  get data_type processed = Some out ->
  exists df,
    get data_type data = Some df
    /\ (forall country d,
          In (country, d) (map long_key out) <->
          (exists r, In r (raw_rows df) /\ raw_Country_Region r = Some country)
          /\ (exists h, In h (date_columns df)
                        /\ to_datetime h = Some (Timestamp d)))
    /\ (forall o, In o out ->
          long_Cases o
          = country_date_total to_datetime df (long_Country_Region o)
                               (long_Date o)).
Proof.
  intros ND H G.
  destruct (processed_table _ _ _ _ _ ND H G) as (df & melted & Hdf & M & ->).
  exists df. split; [exact Hdf|]. rewrite melt_columns in M. split.
  - intros country d. rewrite groupby_keys, group_keys_In. split.
    + intros (x & Hx & E). apply (melted_rows _ _ _ _ _ M) in Hx.
      destruct Hx as ([j h] & p & r & Hin & Hd & Hr & ->).
      unfold melted_key in E. simpl in E.
      destruct (raw_Country_Region r) as [c|] eqn:C; [|discriminate E].
      destruct p as [d'|]; [|discriminate E].
      injection E as -> ->. split; [now exists r|].
      exists h. split; [|exact Hd]. apply columns_headers. now exists j.
    + intros [(r & Hr & C) (h & Hh & Hd)].
      apply columns_headers in Hh. destruct Hh as [j Hj].
      exists (dated_row j (Timestamp d) r). split.
      * apply (melted_rows _ _ _ _ _ M). now exists (j, h), (Timestamp d), r.
      * unfold melted_key. simpl. now rewrite C.
  - intros o Ho. apply in_map_iff in Ho. destruct Ho as (k & <- & _).
    simpl. exact (group_total _ _ _ _ k M).
Qed.

Lemma processed_rows_complete_witness :
  exists df,
    get "confirmed" sample_data = Some df
    /\ (forall country d,
          In (country, d) (map long_key sample_confirmed) <->
          (exists r, In r (raw_rows df) /\ raw_Country_Region r = Some country)
          /\ (exists h, In h (date_columns df)
                        /\ parse_header h = Some (Timestamp d)))
    /\ (forall o,
          In o sample_confirmed ->
          long_Cases o
          = country_date_total parse_header df (long_Country_Region o)
                               (long_Date o)).
Proof.
  apply (processed_rows_complete parse_header sample_data sample_processed
           "confirmed").
  - repeat constructor; simpl; intuition discriminate.
  - vm_compute. reflexivity.
  - reflexivity.
Defined.

(** *** A date header that is not a date *)

Lemma mapM_raise {A B : Type} (f : A -> result B) (l : list A) (e : exn) :
  mapM f l = Raise e -> exists a, In a l /\ f a = Raise e.
Proof.
  induction l as [|a l IH]; simpl; [discriminate|].
  destruct (f a) as [b|e'] eqn:F; simpl.
  - destruct (mapM f l) as [bs|e'']; simpl; [discriminate|].
    intros [= ->]. destruct (IH eq_refl) as (x & Hx & Fx).
    exists x. split; [now right|exact Fx].
  - intros [= ->]. exists a. split; [now left|exact F].
Qed.

Lemma mapM_ok {A B : Type} (f : A -> result B) (l : list A) (out : list B) :
  mapM f l = Ok out -> forall a, In a l -> exists b, f a = Ok b.
Proof.
  revert out. induction l as [|a l IH]; simpl; intros out H x Hx;
    [destruct Hx|].
  destruct (f a) as [b|e] eqn:F; simpl in H; [|discriminate].
  destruct (mapM f l) as [bs|e]; simpl in H; [|discriminate].
  destruct Hx as [<-|Hx]; [now exists b|]. now apply (IH bs).
Qed.

Lemma preprocess_frame_raise (to_datetime : string -> option datetime)
    (df : RawSeriesTable) (e : exn) :
  preprocess_frame to_datetime df = Raise e ->
  exists h, e = DateParseError h /\ In h (date_columns df)
            /\ to_datetime h = None.
Proof.
  unfold preprocess_frame.
  destruct (mapM (convert_date to_datetime) (melt df)) as [melted|e'] eqn:M;
    simpl; [discriminate|].
  intros [= ->]. apply mapM_raise in M. destruct M as (x & Hx & Fx).
  rewrite melt_columns in Hx. apply in_flat_map in Hx.
  destruct Hx as ([j h] & Hjh & Hx). apply in_map_iff in Hx.
  destruct Hx as (r & <- & _). unfold convert_date in Fx. simpl in Fx.
  destruct (to_datetime h) eqn:E; [discriminate|]. injection Fx as <-.
  exists h. split; [reflexivity|]. split; [|exact E].
  apply columns_headers. now exists j.
Qed.

Lemma preprocess_frame_bad_header (to_datetime : string -> option datetime)
    (df : RawSeriesTable) (h : string) :
  raw_rows df <> [] -> In h (date_columns df) -> to_datetime h = None ->
  exists e, preprocess_frame to_datetime df = Raise e.
Proof.
  intros Hr Hh Hn. unfold preprocess_frame.
  destruct (mapM (convert_date to_datetime) (melt df)) as [melted|e] eqn:M;
    simpl; [|now exists e].
  exfalso. destruct (raw_rows df) as [|r rows] eqn:R; [now apply Hr|].
  apply columns_headers in Hh. destruct Hh as [j Hj].
  destruct (mapM_ok _ _ _ M
              {| melted_Province_State := raw_Province_State r;
                 melted_Country_Region := raw_Country_Region r;
                 melted_Lat := raw_Lat r;
                 melted_Long := raw_Long r;
                 melted_Date := h;
                 melted_Cases := nth j (raw_cells r) NaN |}) as [b Hb].
  - rewrite melt_columns. apply in_flat_map. exists (j, h).
    split; [exact Hj|]. unfold column_rows. rewrite R. now left.
  - unfold convert_date in Hb. simpl in Hb. rewrite Hn in Hb. discriminate Hb.
Qed.

Lemma preprocess_loop_raise (to_datetime : string -> option datetime)
    (items : list (string * RawSeriesTable)) (acc : dict (list LongRecord))
    (t : string) (df : RawSeriesTable) (e : exn) :
  In (t, df) items -> preprocess_frame to_datetime df = Raise e ->
  exists t' df' e',
    In (t', df') items /\ preprocess_frame to_datetime df' = Raise e'
    /\ preprocess_loop to_datetime items acc = Raise e'.
Proof.
  revert acc. induction items as [|[t0 df0] items IH]; intros acc Hin F;
    [destruct Hin|].
  simpl. destruct (preprocess_frame to_datetime df0) as [cd|e0] eqn:F0; simpl.
  - destruct Hin as [E|Hin]; [injection E as -> ->; congruence|].
    destruct (IH (Dict.set t0 cd acc) Hin F) as (t' & df' & e' & H1 & H2 & H3).
    exists t', df', e'. split; [now right|]. now split.
  - exists t0, df0, e0. split; [now left|]. now split.
Qed.

(** A date header that does not parse, in a table that has rows, makes
    [preprocess_data] raise for the whole dictionary: no table is returned,
    not even those whose headers are all dates, and no column is dropped
    silently. *)
Theorem preprocess_malformed_header (to_datetime : string -> option datetime)
    (data : dict RawSeriesTable) (data_type : string) (df : RawSeriesTable)
    (h : string) :
  In (data_type, df) data ->
  raw_rows df <> [] ->
  In h (date_columns df) ->
  to_datetime h = None ->
  exists h',
    preprocess_data to_datetime data = Raise (DateParseError h')
    /\ to_datetime h' = None.
Proof.
  intros Hin Hr Hh Hn.
  destruct (preprocess_frame_bad_header to_datetime df h Hr Hh Hn) as [e F].
  destruct (preprocess_loop_raise to_datetime data [] _ _ _ Hin F)
    as (t' & df' & e' & _ & F' & L).
  apply preprocess_frame_raise in F'. destruct F' as (h' & -> & _ & Hn').
  now exists h'.
Qed.

Definition bad_table : RawSeriesTable :=
  {| date_columns := ["1/22/20"; "Population"];
     raw_rows :=
       [ {| raw_Province_State := None;
            raw_Country_Region := Some "Italy";
            raw_Lat := FNum 43;
            raw_Long := FNum 12;
            raw_cells := [Num 0; Num 60] |} ] |}.

Lemma preprocess_malformed_header_witness :
  exists h',
    preprocess_data parse_header
      [("confirmed", sample_table); ("deaths", bad_table)]
    = Raise (DateParseError h')
    /\ parse_header h' = None.
Proof.
  apply (preprocess_malformed_header parse_header
           [("confirmed", sample_table); ("deaths", bad_table)]
           "deaths" bad_table "Population").
  - right. now left.
  - discriminate.
  - right. now left.
  - reflexivity.
Defined.

End ProcessedFacts.

(* ================================================================= *)
(** ** The Merger: rows, missing values, and the pipeline *)

Module MergedFacts.
Import Dict Loader DictFacts ReshaperFacts MergerFacts ProcessedFacts.

Lemma matches_unique (right : list LongRecord) (k : key) :
  NoDup (map long_key right) ->
  matches right k = [] \/ exists v, matches right k = [v].
Proof.
  unfold matches. induction right as [|r right IH]; simpl; intros ND;
    [now left|].
  inversion ND as [|? ? Hn ND']; subst.
  change (long_Country_Region r, long_Date r) with (long_key r).
  destruct (key_eqb (long_key r) k) eqn:E.
  - right. exists (long_Cases r). simpl. f_equal.
    apply key_eqb_eq in E. subst k.
    rewrite filter_none; [reflexivity|].
    intros x Hx. destruct (key_eqb _ _) eqn:E'; [|reflexivity].
    apply key_eqb_eq in E'. exfalso. apply Hn.
    change (long_Country_Region x, long_Date x) with (long_key x) in E'.
    rewrite <- E'. now apply in_map.
  - now apply IH.
Qed.

(** The value of the single row a left row is joined with. *)
Definition join_value (right : list LongRecord) (k : key) : count :=
  match matches right k with
  | [] => NaN
  | v :: _ => Num v
  end.

Lemma merge_left_unique {L : Type} (key_of : L -> key) (left : list L)
    (right : list LongRecord) :
  NoDup (map long_key right) ->
  merge_left key_of left right
  = map (fun l => (l, join_value right (key_of l))) left.
Proof.
  intros ND.
  assert (Step : forall l left,
     merge_left key_of (l :: left) right
     = (match matches right (key_of l) with
        | [] => [(l, NaN)]
        | vs => map (fun v => (l, Num v)) vs
        end ++ merge_left key_of left right)%list) by reflexivity.
  induction left as [|l left IH]; [reflexivity|].
  rewrite Step, IH. unfold join_value. cbn [map].
  destruct (matches_unique right (key_of l) ND) as [E|[v E]]; rewrite E;
    reflexivity.
Qed.

(** When the deaths and the recovered tables have one row for each key, the
    merged table has one row for each row of the confirmed table, in the
    same order, with its key and its confirmed count; the deaths and the
    recovered counts are those of the row of the same key, or 0. *)
Theorem merged_row_per_confirmed_row (processed_data : dict (list LongRecord))
    (confirmed deaths recovered : list LongRecord) :
  get "confirmed" processed_data = Some confirmed ->
  get "deaths" processed_data = Some deaths ->
  get "recovered" processed_data = Some recovered ->
  NoDup (map long_key deaths) ->
  NoDup (map long_key recovered) ->
  exists out,
    get_merged_data processed_data = Ok out
    /\ map merged_key out = map long_key confirmed
    /\ map Confirmed out = map long_Cases confirmed
    /\ map Deaths out
       = map (fun c => cfillna0 (join_value deaths (long_key c))) confirmed
    /\ map Recovered out
       = map (fun c => cfillna0 (join_value recovered (long_key c))) confirmed.
Proof.
  intros Hc Hd Hr NDd NDr.
  exists (merge_frames confirmed deaths recovered).
  split; [now apply get_merged_data_ok|].
  unfold merge_frames.
  rewrite (merge_left_unique long_key confirmed deaths NDd).
  rewrite (merge_left_unique _ _ recovered NDr).
  rewrite !map_map. repeat split; apply map_ext; reflexivity.
Qed.

Lemma merged_row_per_confirmed_row_witness :
  exists out,
    get_merged_data unmatched_recovered = Ok out
    /\ map merged_key out
       = map long_key [long "US" d1 10; long "US" d2 12]
    /\ map Confirmed out
       = map long_Cases [long "US" d1 10; long "US" d2 12]
    /\ map Deaths out
       = map (fun c => cfillna0 (join_value [long "US" d1 1; long "US" d2 1]
                                            (long_key c)))
             [long "US" d1 10; long "US" d2 12]
    /\ map Recovered out
       = map (fun c => cfillna0 (join_value [long "US" d1 2] (long_key c)))
             [long "US" d1 10; long "US" d2 12].
Proof.
  apply (merged_row_per_confirmed_row unmatched_recovered); try reflexivity;
    repeat constructor; simpl; intuition discriminate.
Defined.

(** The merged table has no missing value in any column (an infinite rate
    is not a missing value and may remain). *)
Theorem merged_no_missing_value (processed_data : dict (list LongRecord))
    (confirmed deaths recovered : list LongRecord) :
  get "confirmed" processed_data = Some confirmed ->
  get "deaths" processed_data = Some deaths ->
  get "recovered" processed_data = Some recovered ->
  exists out,
    get_merged_data processed_data = Ok out
    /\ forall m, In m out ->
         cnotna (Deaths m) = true /\ cnotna (Recovered m) = true
         /\ cnotna (Active m) = true
         /\ fnotna (Lat m) = true /\ fnotna (Long m) = true
         /\ fnotna (Death_Rate m) = true /\ fnotna (Recovery_Rate m) = true.
Proof.
  intros Hc Hd Hr. exists (merge_frames confirmed deaths recovered).
  split; [now apply get_merged_data_ok|].
  intros m Hm. apply in_merge_frames in Hm.
  destruct Hm as (c & d & r & _ & _ & _ & ->). simpl.
  assert (C : forall x, cnotna (cfillna0 x) = true) by now intros [|z].
  assert (F : forall x, fnotna (ffillna0 x) = true) by now intros [| |q].
  now rewrite !C, !F.
Qed.

Lemma merged_no_missing_value_witness :
  exists out,
    get_merged_data missing_deaths = Ok out
    /\ forall m, In m out ->
         cnotna (Deaths m) = true /\ cnotna (Recovered m) = true
         /\ cnotna (Active m) = true
         /\ fnotna (Lat m) = true /\ fnotna (Long m) = true
         /\ fnotna (Death_Rate m) = true /\ fnotna (Recovery_Rate m) = true.
Proof.
  apply (merged_no_missing_value missing_deaths
           [long "US" d1 10] [] [long "US" d1 2]); reflexivity.
Defined.

Lemma active_when_matched_witness :
  exists d r,
    Deaths (fillna0 (derive (long "US" d1 0, Num 5, Num 0))) = Num d
    /\ Recovered (fillna0 (derive (long "US" d1 0, Num 5, Num 0))) = Num r
    /\ (0 <= Confirmed (fillna0 (derive (long "US" d1 0, Num 5, Num 0)))
          < 2 ^ 52 ->
        0 <= d < 2 ^ 52 -> 0 <= r < 2 ^ 52 ->
        Active (fillna0 (derive (long "US" d1 0, Num 5, Num 0)))
        = Num (Confirmed (fillna0 (derive (long "US" d1 0, Num 5, Num 0)))
               - d - r)).
Proof.
  apply (active_when_matched [long "US" d1 0] [long "US" d1 5]
           [long "US" d1 0]).
  - now left.
  - discriminate.
  - discriminate.
Defined.

(** The whole pipeline: the table merged from processed tables has one row
    for each key (country, date) of the processed confirmed table, in
    increasing order of country, then of date. *)
Theorem pipeline_row_per_key (to_datetime : string -> option datetime)
    (data : dict RawSeriesTable) (processed : dict (list LongRecord))
    (out : list MergedRecord) :
  NoDup (map fst data) ->
  preprocess_data to_datetime data = Ok processed ->
  get_merged_data processed = Ok out ->
  exists confirmed,
    get "confirmed" processed = Some confirmed
    /\ map merged_key out = map long_key confirmed
    /\ NoDup (map merged_key out)
    /\ Sorted key_lt (map merged_key out).
Proof.
  intros ND P M.
  destruct (get_merged_data_inv _ _ M)
    as (confirmed & deaths & recovered & Hc & Hd & Hr & ->).
  destruct (processed_rows_ordered_aux _ _ _ _ _ ND P Hc) as [Nc Sc].
  destruct (processed_rows_ordered_aux _ _ _ _ _ ND P Hd) as [Nd _].
  destruct (processed_rows_ordered_aux _ _ _ _ _ ND P Hr) as [Nr _].
  exists confirmed. split; [exact Hc|].
  assert (K : map merged_key (merge_frames confirmed deaths recovered)
              = map long_key confirmed).
  { unfold merge_frames.
    rewrite (merge_left_unique long_key confirmed deaths Nd).
    rewrite (merge_left_unique _ _ recovered Nr).
    rewrite !map_map. apply map_ext. reflexivity. }
  rewrite K. now repeat split.
Qed.

Definition three_tables : dict RawSeriesTable :=
  [("confirmed", sample_table); ("deaths", sample_table);
   ("recovered", sample_table)].

Definition three_processed : dict (list LongRecord) :=
  Eval vm_compute in
    match preprocess_data parse_header three_tables with
    | Ok processed => processed
    | Raise _ => []
    end.

Definition three_merged : list MergedRecord :=
  Eval vm_compute in
    match get_merged_data three_processed with
    | Ok merged => merged
    | Raise _ => []
    end.

Lemma pipeline_row_per_key_witness :
  exists confirmed,
    get "confirmed" three_processed = Some confirmed
    /\ map merged_key three_merged = map long_key confirmed
    /\ NoDup (map merged_key three_merged)
    /\ Sorted key_lt (map merged_key three_merged).
Proof.
  apply (pipeline_row_per_key parse_header three_tables three_processed
           three_merged).
  - repeat constructor; simpl; intuition discriminate.
  - vm_compute. reflexivity.
  - vm_compute. reflexivity.
Defined.

End MergedFacts.

(* ================================================================= *)
(** ** The Fetcher: [download_data], and loading what it wrote *)

Module FetcherFacts.
Import Dict Loader DictFacts ReshaperFacts LoadFacts.

(** The name under which [download_data] writes a file. *)
Definition target (file : string * string) : string :=
  fst file ++ "_" ++ snd file.

(** Whether the download of a file succeeded. *)
Definition downloaded (requests_get : string -> Response)
    (file : string * string) : bool :=
  status_code (requests_get (base_url ++ snd file)) =? 200.

Section Download.
Variable requests_get : string -> Response.

(** Writing a file, or not. *)
Definition write_if (b : bool) (k v : string) (d : dict string) : dict string :=
  if b then set k v d else d.

Lemma get_three_writes (d : dict string) (k1 k2 k3 v1 v2 v3 : string)
    (b1 b2 b3 : bool) (name : string) :
  k1 <> k2 -> k1 <> k3 -> k2 <> k3 ->
  get name (write_if b3 k3 v3 (write_if b2 k2 v2 (write_if b1 k1 v1 d)))
  = if String.eqb name k1 then (if b1 then Some v1 else get name d)
    else if String.eqb name k2 then (if b2 then Some v2 else get name d)
    else if String.eqb name k3 then (if b3 then Some v3 else get name d)
    else get name d.
Proof.
  intros N12 N13 N23. unfold write_if.
  destruct (string_dec name k1) as [E1|E1];
    [rewrite (proj2 (String.eqb_eq name k1) E1)
    |rewrite (proj2 (String.eqb_neq name k1) E1);
     destruct (string_dec name k2) as [E2|E2];
       [rewrite (proj2 (String.eqb_eq name k2) E2)
       |rewrite (proj2 (String.eqb_neq name k2) E2);
        destruct (string_dec name k3) as [E3|E3];
          [rewrite (proj2 (String.eqb_eq name k3) E3)
          |rewrite (proj2 (String.eqb_neq name k3) E3)]]];
    try subst name; destruct b1, b2, b3;
    repeat first [ rewrite get_set_same
                 | rewrite get_set_other by congruence ];
    reflexivity.
Qed.

Lemma download_file_write (d : dict string) (file : string * string) :
  download_file requests_get d file
  = write_if (downloaded requests_get file) (target file)
             (content (requests_get (base_url ++ snd file))) d.
Proof. now destruct file. Qed.

Lemma download_data_get (data_dir : dict string) (name : string) :
  get name (download_data requests_get data_dir)
  = match find (fun file => String.eqb name (target file)) files with
    | Some file =>
        if downloaded requests_get file
        then Some (content (requests_get (base_url ++ snd file)))
        else get name data_dir
    | None => get name data_dir
    end.
Proof.
  unfold download_data, files. cbn [fold_left find].
  rewrite !download_file_write.
  rewrite get_three_writes by discriminate.
  set (f1 := ("confirmed", "time_series_covid19_confirmed_global.csv")).
  set (f2 := ("deaths", "time_series_covid19_deaths_global.csv")).
  set (f3 := ("recovered", "time_series_covid19_recovered_global.csv")).
  destruct (String.eqb name (target f1)); [reflexivity|].
  destruct (String.eqb name (target f2)); [reflexivity|].
  destruct (String.eqb name (target f3)); reflexivity.
Qed.

Lemma download_data_get_target (data_dir : dict string)
    (file : string * string) :
  In file files ->
  get (target file) (download_data requests_get data_dir)
  = if downloaded requests_get file
    then Some (content (requests_get (base_url ++ snd file)))
    else get (target file) data_dir.
Proof.
  intros H. rewrite download_data_get. unfold files in H.
  destruct H as [<-|[<-|[<-|[]]]]; reflexivity.
Qed.

(** What the directory holds after [download_data]: under the name of each
    of the three files, the content received if the response had status
    200, and what was there before otherwise; a failed download does not
    stop the other two; every other file of the directory is as it was. *)
Theorem download_data_writes (data_dir : dict string) (name : string) :
  get name (download_data requests_get data_dir)
  = match find (fun file => String.eqb name (target file)) files with
    | Some file =>
        if downloaded requests_get file
        then Some (content (requests_get (base_url ++ snd file)))
        else get name data_dir
    | None => get name data_dir
    end.
Proof. exact (download_data_get data_dir name). Qed.

(** *** The names in the directory *)

Lemma names_set (k : string) (v : string) (d : dict string) :
  ~ In k (map fst d) -> map fst (set k v d) = (map fst d ++ [k])%list.
Proof.
  induction d as [|[k' v'] d IH]; simpl; intros H; [reflexivity|].
  destruct (String.eqb k k') eqn:E.
  - apply String.eqb_eq in E. subst. exfalso. apply H. now left.
  - simpl. rewrite IH; [reflexivity|]. intros Hin. apply H. now right.
Qed.

Lemma download_file_names (d : dict string) (file : string * string) :
  ~ In (target file) (map fst d) ->
  map fst (download_file requests_get d file)
  = (map fst d
     ++ if downloaded requests_get file then [target file] else [])%list.
Proof.
  intros H. destruct file as [t f]. unfold download_file, downloaded, target in *.
  simpl in *. destruct (_ =? 200).
  - now apply names_set.
  - now rewrite app_nil_r.
Qed.

Lemma download_data_names (data_dir : dict string) :
  (forall file, In file files -> ~ In (target file) (map fst data_dir)) ->
  map fst (download_data requests_get data_dir)
  = (map fst data_dir
     ++ flat_map (fun file =>
                    if downloaded requests_get file then [target file] else [])
                 files)%list.
Proof.
  intros H. unfold download_data, files in *. cbn [fold_left flat_map].
  set (f1 := ("confirmed", "time_series_covid19_confirmed_global.csv")) in *.
  set (f2 := ("deaths", "time_series_covid19_deaths_global.csv")) in *.
  set (f3 := ("recovered", "time_series_covid19_recovered_global.csv")) in *.
  assert (N1 := download_file_names data_dir f1
                  (H f1 (or_introl eq_refl))).
  assert (N2 : map fst (download_file requests_get
                          (download_file requests_get data_dir f1) f2)
               = ((map fst data_dir
                   ++ (if downloaded requests_get f1 then [target f1] else []))
                  ++ (if downloaded requests_get f2 then [target f2] else []))%list).
  { rewrite <- N1. apply download_file_names. rewrite N1.
    intros Hin. apply in_app_or in Hin. destruct Hin as [Hin|Hin].
    - exact (H f2 (or_intror (or_introl eq_refl)) Hin).
    - destruct (downloaded requests_get f1); [|destruct Hin].
      destruct Hin as [E|[]]. discriminate E. }
  rewrite download_file_names.
  - rewrite N2, app_nil_r, <- !app_assoc. reflexivity.
  - rewrite N2. intros Hin.
    apply in_app_or in Hin. destruct Hin as [Hin|Hin];
      [apply in_app_or in Hin; destruct Hin as [Hin|Hin]|].
    + exact (H f3 (or_intror (or_intror (or_introl eq_refl))) Hin).
    + destruct (downloaded requests_get f1); [|destruct Hin].
      destruct Hin as [E|[]]. discriminate E.
    + destruct (downloaded requests_get f2); [|destruct Hin].
      destruct Hin as [E|[]]. discriminate E.
Qed.

End Download.

Lemma filter_perm {A : Type} (p : A -> bool) (l1 l2 : list A) :
  Permutation l1 l2 -> Permutation (filter p l1) (filter p l2).
Proof.
  induction 1 as [|x l1 l2 _ IH|x y l|l1 l2 l3 _ IH1 _ IH2]; simpl.
  - constructor.
  - destruct (p x); [now apply perm_skip|exact IH].
  - destruct (p x), (p y); try reflexivity. apply perm_swap.
  - now rewrite IH1.
Qed.

(** Reading a file of the directory. *)
Definition read_file (data_dir : dict string) (name : string) : string :=
  match get name data_dir with
  | Some bytes => bytes
  | None => ""
  end.

(** Download, then load: into a directory that has no file named like a
    data file, [download_data] followed by [load_data] (whatever the order
    in which the directory is listed) loads, for each metric, the content
    received for it when the download succeeded, and leaves the metric out
    when it failed. *)
Theorem download_then_load (requests_get : string -> Response)
    (parse : string -> RawSeriesTable) (data_dir : dict string)
    (listdir : list string) :
  (forall name data_type,
      In name (map fst data_dir) -> In data_type metrics ->
      String.prefix (data_type ++ "_time_series") name = false) ->
  let data_dir' := download_data requests_get data_dir in
  Permutation listdir (map fst data_dir') ->
  let data := load_data listdir (fun name => parse (read_file data_dir' name)) in
  forall file, In file files ->
    get (fst file) data
    = if downloaded requests_get file
      then Some (parse (content (requests_get (base_url ++ snd file))))
      else None.
Proof.
  intros Fresh data_dir' P data file Hfile.
  assert (Hfresh : forall f, In f files -> ~ In (target f) (map fst data_dir)).
  { intros f Hf Hin. unfold files in Hf.
    destruct Hf as [<-|[<-|[<-|[]]]];
      [assert (X := Fresh _ "confirmed" Hin ltac:(simpl; auto))
      |assert (X := Fresh _ "deaths" Hin ltac:(simpl; auto))
      |assert (X := Fresh _ "recovered" Hin ltac:(simpl; auto))];
      discriminate X. }
  assert (Empty : forall data_type, In data_type metrics ->
            filter (String.prefix (data_type ++ "_time_series"))
                   (map fst data_dir) = []).
  { intros t Ht. apply filter_none. intros name Hin. now apply Fresh. }
  assert (Hm : In (fst file) metrics).
  { unfold files in Hfile. destruct Hfile as [<-|[<-|[<-|[]]]]; simpl; auto. }
  unfold data. rewrite load_data_get by exact Hm.
  assert (F : Permutation (files_of listdir (fst file))
                (if downloaded requests_get file then [target file] else [])).
  { unfold files_of. rewrite (filter_perm _ _ _ P). unfold data_dir'.
    rewrite (download_data_names requests_get data_dir Hfresh).
    rewrite filter_app, (Empty _ Hm). simpl app.
    unfold files in *. simpl flat_map.
    destruct Hfile as [<-|[<-|[<-|[]]]]; simpl fst;
      repeat match goal with
        | |- context [downloaded requests_get ?f] =>
            destruct (downloaded requests_get f)
        end;
      reflexivity. }
  destruct (downloaded requests_get file) eqn:D.
  - apply Permutation_sym, Permutation_length_1_inv in F. rewrite F.
    f_equal. f_equal. unfold read_file, data_dir'.
    rewrite (download_data_get_target requests_get data_dir file Hfile).
    now rewrite D.
  - apply Permutation_sym, Permutation_nil in F. now rewrite F.
Qed.

(** A server that has the confirmed and the recovered files only. *)
Definition two_of_three (url : string) : Response :=
  if String.eqb url (base_url ++ "time_series_covid19_deaths_global.csv")
  then {| status_code := 404; content := "Not Found" |}
  else {| status_code := 200; content := url |}.

Lemma download_then_load_witness :
  let data_dir' :=
    download_data two_of_three [("notes.txt", "keep")] in
  let data :=
    load_data
      ["recovered_time_series_covid19_recovered_global.csv"; "notes.txt";
       "confirmed_time_series_covid19_confirmed_global.csv"]
      (fun name => sample_table) in
  get (fst ("deaths", "time_series_covid19_deaths_global.csv")) data
  = if downloaded two_of_three
         ("deaths", "time_series_covid19_deaths_global.csv")
    then Some sample_table
    else None.
Proof.
  apply (download_then_load two_of_three (fun _ => sample_table)
           [("notes.txt", "keep")]
           ["recovered_time_series_covid19_recovered_global.csv"; "notes.txt";
            "confirmed_time_series_covid19_confirmed_global.csv"]
           ltac:(intros name t [<-|[]] [<-|[<-|[<-|[]]]]; reflexivity)
           ltac:(vm_compute;
                 apply (Permutation_cons_app
                          ["notes.txt";
                           "confirmed_time_series_covid19_confirmed_global.csv"]
                          []);
                 apply Permutation_refl)
           ("deaths", "time_series_covid19_deaths_global.csv")).
  right. now left.
Defined.

End FetcherFacts.

(* ================================================================= *)
(** ** The tables the Visualizer draws *)

Module VisualizerFacts.
Import Dict Loader Analysis Visualizer ReshaperFacts MergerFacts RankingFacts.

(** *** The heat map *)

Lemma sorted_nodup_In {A : Type} (dec : forall a b : A, {a = b} + {a <> b})
    (leb : A -> A -> bool) (l : list A) (a : A) :
  In a (sort leb (nodup dec l)) <-> In a l.
Proof.
  split; intros H.
  - apply (nodup_In dec).
    eapply Permutation_in; [symmetry; apply sort_perm|exact H].
  - eapply Permutation_in; [apply sort_perm|].
    now apply (nodup_In dec).
Qed.

Lemma sorted_nodup_NoDup {A : Type} (dec : forall a b : A, {a = b} + {a <> b})
    (leb : A -> A -> bool) (l : list A) :
  NoDup (sort leb (nodup dec l)).
Proof.
  eapply Permutation_NoDup; [apply sort_perm|apply NoDup_nodup].
Qed.

(** The heat map of a table that is not empty, for the window from [lo] to
    [hi] (by default the 30 days before the latest date of the whole table,
    and that date): there is none exactly when no row of the countries
    asked for falls in the window; otherwise its countries and its dates
    are those of the rows selected, each once, and the cell of a country at
    a date is the sum of the confirmed cases of its rows at that date, or
    missing when it has no such row. *)
Theorem heatmap_table (data : DataFrame) (countries : list string)
    (start_date end_date : option Z) (latest : Z) :
  max_date data = Some latest ->
  let lo := match start_date with Some d => d | None => latest - 30 end in
  let hi := match end_date with Some d => d | None => latest end in
  let selected :=
    filter (fun r : Row =>
              isin countries (Country_Region r)
              && (lo <=? Date r) && (Date r <=? hi)) data in
  (create_heatmap_data data countries start_date end_date = None
   <-> selected = [])
  /\ forall hm,
       create_heatmap_data data countries start_date end_date = Some hm ->
       NoDup (hm_index hm) /\ NoDup (hm_columns hm)
       /\ (forall c, In c (hm_index hm) <->
             exists r : Row, In r selected /\ Country_Region r = c)
       /\ (forall d, In d (hm_columns hm) <->
             exists r : Row, In r selected /\ Date r = d)
       /\ (forall i j c d,
             nth_error (hm_index hm) i = Some c ->
             nth_error (hm_columns hm) j = Some d ->
             exists cells,
               nth_error (hm_values hm) i = Some cells
               /\ nth_error cells j
                  = Some match cell_rows selected c d with
                         | [] => NaN
                         | g => Num (zsum (map (fun r : Row => Confirmed r) g))
                         end).
Proof.
  intros M lo hi selected.
  assert (E : create_heatmap_data data countries start_date end_date
              = match selected with
                | [] => None
                | _ => Some (pivot_table selected)
                end).
  { unfold create_heatmap_data. rewrite M. simpl option_map.
    replace (filter _ data) with selected; [reflexivity|].
    unfold selected. apply filter_ext. intros r.
    destruct start_date, end_date; simpl; now rewrite Z.geb_leb. }
  rewrite E. split.
  - destruct selected; split; congruence.
  - intros hm H. destruct selected as [|r0 sel] eqn:S; [discriminate|].
    injection H as <-. rewrite <- S. clear S E. simpl.
    split; [apply sorted_nodup_NoDup|]. split; [apply sorted_nodup_NoDup|].
    split; [|split].
    + intros c. rewrite sorted_nodup_In, in_map_iff.
      split; intros (r & A & B); exists r; tauto.
    + intros d. rewrite sorted_nodup_In, in_map_iff.
      split; intros (r & A & B); exists r; tauto.
    + intros i j c d Hc Hd. eexists. split.
      * apply (map_nth_error _ _ _ Hc).
      * apply (map_nth_error (pivot_cell selected c) _ _ Hd).
Qed.

Lemma heatmap_table_witness :
  let lo := 18284 - 30 in
  let hi := 18284 in
  let selected :=
    filter (fun r : Row =>
              isin ["A"; "C"; "Z"] (Country_Region r)
              && (lo <=? Date r) && (Date r <=? hi))
           QueryFacts.six_countries in
  (create_heatmap_data QueryFacts.six_countries ["A"; "C"; "Z"] None None = None
   <-> selected = [])
  /\ forall hm,
       create_heatmap_data QueryFacts.six_countries ["A"; "C"; "Z"] None None
       = Some hm ->
       NoDup (hm_index hm) /\ NoDup (hm_columns hm)
       /\ (forall c, In c (hm_index hm) <->
             exists r : Row, In r selected /\ Country_Region r = c)
       /\ (forall d, In d (hm_columns hm) <->
             exists r : Row, In r selected /\ Date r = d)
       /\ (forall i j c d,
             nth_error (hm_index hm) i = Some c ->
             nth_error (hm_columns hm) j = Some d ->
             exists cells,
               nth_error (hm_values hm) i = Some cells
               /\ nth_error cells j
                  = Some match cell_rows selected c d with
                         | [] => NaN
                         | g => Num (zsum (map (fun r : Row => Confirmed r) g))
                         end).
Proof.
  apply (heatmap_table QueryFacts.six_countries ["A"; "C"; "Z"] None None 18284).
  reflexivity.
Defined.

(** *** The normalisation of a row of the heat map *)

Lemma fold_min_spec (l : list Z) (x : Z) :
  let m := fold_left Z.min l x in
  m <= x /\ (forall y, In y l -> m <= y).
Proof.
  revert x. induction l as [|a l IH]; simpl; intros x.
  - split; [lia|intros y []].
  - destruct (IH (Z.min x a)) as (H1 & H2). split; [lia|].
    intros y [<-|Hy]; [lia|now apply H2].
Qed.

Lemma present_In (x : list count) (i : nat) (v : Z) :
  nth_error x i = Some (Num v) -> In v (present x).
Proof.
  intros H. apply nth_error_In in H. unfold present. apply in_flat_map.
  exists (Num v). split; [exact H|now left].
Qed.

Lemma row_bounds (x : list count) (lo hi : Z) (i : nat) (v : Z) :
  row_min x = Num lo -> row_max x = Num hi ->
  nth_error x i = Some (Num v) -> lo <= v <= hi.
Proof.
  unfold row_min, row_max. intros Hlo Hhi H. apply present_In in H.
  destruct (present x) as [|z zs]; [destruct H|].
  injection Hlo as <-. injection Hhi as <-.
  destruct (fold_min_spec zs z) as [L1 L2].
  destruct (QueryFacts.fold_max_spec zs z) as (U1 & U2 & _).
  destruct H as [<-|H]; [lia|].
  split; [now apply L2|now apply U2].
Qed.



(** *** The map *)

(** On a merged table, the map of a date shows every row of the date: no
    row is removed for missing coordinates, because [get_merged_data] has
    replaced a missing coordinate by 0. *)
Theorem map_of_merged_keeps_rows (processed_data : dict (list LongRecord))
    (confirmed deaths recovered : list LongRecord) (date : option Z) :
  get "confirmed" processed_data = Some confirmed ->
  get "deaths" processed_data = Some deaths ->
  get "recovered" processed_data = Some recovered ->
  exists merged,
    get_merged_data processed_data = Ok merged
    /\ map_data (of_merged merged) date
       = match filter (date_is (as_of (of_merged merged) date))
                      (of_merged merged) with
         | [] => None
         | rows => Some rows
         end.
Proof.
  intros Hc Hd Hr. exists (merge_frames confirmed deaths recovered).
  split; [now apply get_merged_data_ok|].
  unfold map_data. fold (as_of (of_merged (merge_frames confirmed deaths recovered)) date).
  rewrite (filter_all (fun r : Row => fnotna (Lat r) && fnotna (Long r))).
  - now destruct (filter _ _).
  - intros r Hr'. apply filter_In in Hr'. destruct Hr' as [Hr' _].
    unfold of_merged in Hr'. apply in_map_iff in Hr'.
    destruct Hr' as (m & <- & Hm). apply in_merge_frames in Hm.
    destruct Hm as (c & d & rc & _ & _ & _ & ->). simpl.
    now destruct (long_Lat c) as [| |?], (long_Long c) as [| |?].
Qed.

Lemma map_of_merged_keeps_rows_witness :
  exists merged,
    get_merged_data missing_deaths = Ok merged
    /\ map_data (of_merged merged) None
       = match filter (date_is (as_of (of_merged merged) None))
                      (of_merged merged) with
         | [] => None
         | rows => Some rows
         end.
Proof.
  apply (map_of_merged_keeps_rows missing_deaths
           [long "US" d1 10] [] [long "US" d1 2] None); reflexivity.
Defined.

End VisualizerFacts.
